(** * casbun: a Bun storage adapter for Casbin policies

    A shallow embedding of the [CasbinPolicy] record with its codec and of
    [adapter.go] (the mutation protocol run against one SQL table),
    together with the properties of the tuple-to-row mapping, of the
    filter predicates and of the transactional operations.  Casbin's
    model, which [LoadPolicy] fills, is a library type and is taken as a
    parameter. *)

From Stdlib Require Import ZArith Lia DecimalString.
From stdpp Require Import gmap strings list fin_maps.

Local Open Scope string_scope.
Local Open Scope list_scope.
Local Open Scope Z_scope.

(** ** The policy record *)

Module Codec.

(** [type CasbinPolicy struct]: the identity column, the rule type and six
    positional slots. *)
Record CasbinPolicy := mkCasbinPolicy {
  ID : Z;
  PType : string;
  V0 : string;
  V1 : string;
  V2 : string;
  V3 : string;
  V4 : string;
  V5 : string
}.

#[global] Instance CasbinPolicy_eq_dec : EqDecision CasbinPolicy.
Proof. solve_decision. Defined.

(** [func nonEmptyFields(fields []string) []string]: the range loop appends
    every non-empty field to [result]. *)
Definition nonEmptyFields (fields : list string) : list string :=
  foldl (fun result f => if decide (f <> "") then result ++ [f] else result)
        [] fields.

(** [func (c CasbinPolicy) toSlice() []string] *)
Definition toSlice (c : CasbinPolicy) : list string :=
  let fields := [PType c; V0 c; V1 c; V2 c; V3 c; V4 c; V5 c] in
  nonEmptyFields fields.

(** [func (c CasbinPolicy) filterValues() []string] *)
Definition filterValues (c : CasbinPolicy) : list string :=
  let fields := [V0 c; V1 c; V2 c; V3 c; V4 c; V5 c] in
  nonEmptyFields fields.

(** [fmt.Sprintf("%d", n)] and [fmt.Sprintf("v%d", n)]. *)
Definition Sprintf_d (n : Z) : string := NilZero.string_of_int (Z.to_int n).
Definition Sprintf_v (n : Z) : string := "v" +:+ Sprintf_d n.

(** [func (c CasbinPolicy) filterValuesWithKey() map[string]string]: the
    range loop over the six slots with their index. *)
Definition filterValuesWithKey (c : CasbinPolicy) : gmap string string :=
  foldl (fun (values : gmap string string) '(i, v) =>
           if decide (v <> "") then <[Sprintf_v (Z.of_nat i) := v]> values
           else values)
        (∅ : gmap string string)
        (imap (fun i v => (i, v)) [V0 c; V1 c; V2 c; V3 c; V4 c; V5 c]).

(** The [switch i] of [newCasbinPolicy]: assignment to slot [i]; no case
    matches an index above 5. *)
Definition set_slot (i : nat) (x : string) (c : CasbinPolicy) : CasbinPolicy :=
  match i with
  | 0%nat => mkCasbinPolicy (ID c) (PType c) x (V1 c) (V2 c) (V3 c) (V4 c) (V5 c)
  | 1%nat => mkCasbinPolicy (ID c) (PType c) (V0 c) x (V2 c) (V3 c) (V4 c) (V5 c)
  | 2%nat => mkCasbinPolicy (ID c) (PType c) (V0 c) (V1 c) x (V3 c) (V4 c) (V5 c)
  | 3%nat => mkCasbinPolicy (ID c) (PType c) (V0 c) (V1 c) (V2 c) x (V4 c) (V5 c)
  | 4%nat => mkCasbinPolicy (ID c) (PType c) (V0 c) (V1 c) (V2 c) (V3 c) x (V5 c)
  | 5%nat => mkCasbinPolicy (ID c) (PType c) (V0 c) (V1 c) (V2 c) (V3 c) (V4 c) x
  | _ => c
  end.

(** The loop [for i := 0; i < len(rule) && i < 6; i++] of
    [newCasbinPolicy], started at [i]; [fuel] bounds the number of
    iterations.  [rule[i]] is read only under the guard [i < len(rule)]. *)
Fixpoint newCasbinPolicy_loop (fuel i : nat) (rule : list string)
    (c : CasbinPolicy) : CasbinPolicy :=
  match fuel with
  | O => c
  | S fuel' =>
      if bool_decide (i < length rule)%nat && bool_decide (i < 6)%nat
      then newCasbinPolicy_loop fuel' (S i) rule (set_slot i (rule !!! i) c)
      else c
  end.

(** [func newCasbinPolicy(ptype string, rule []string) CasbinPolicy]; the
    fields not named in the composite literal hold their zero value.  Six
    iterations exhaust the loop, see [newCasbinPolicy_loop_fuel]. *)
Definition newCasbinPolicy (ptype : string) (rule : list string) : CasbinPolicy :=
  let c := mkCasbinPolicy 0 ptype "" "" "" "" "" "" in
  newCasbinPolicy_loop 6 0 rule c.

(** The six slots of a record, in order. *)
Definition slots (c : CasbinPolicy) : list string :=
  [V0 c; V1 c; V2 c; V3 c; V4 c; V5 c].

End Codec.
Export Codec.

(** ** The storage engine

    The SQL engine and the Bun driver are external to the repository.  They
    are modelled by what the adapter relies on: one table
    [casbin_policies] with its indexes, statements that either take effect
    as a whole or fail without effect, and transactions that work on a
    private copy until they commit.  The failures the model works out
    itself are the missing table, the relation that already exists, the
    violated unique index and the bulk insert of no row, which Bun refuses
    before it sends a statement; every other failure of the engine or the
    driver (a lost connection, a cancelled context, a value wider than its
    column) is a failure injected by the world, see [faults].  A SELECT
    carries no ORDER BY: the order of its rows is the engine's choice, see
    [RowOrder]. *)

Module Storage.

(** Errors a driver call can return. *)
Inductive error :=
| ErrDriver                      (* connection lost, context cancelled, statement rejected *)
| ErrTxDone                      (* the transaction has already finished *)
| ErrNoTable                     (* the table does not exist *)
| ErrNoColumn (name : string)    (* the WHERE clause names an unknown column *)
| ErrExists (name : string)      (* a relation of that name already exists *)
| ErrUnique (index : string)     (* a unique index would be violated *)
| ErrEmptySlice                  (* bun: Insert(empty slice) *)
| ErrJoin1 (e : error)           (* errors.Join of one non-nil error *)
| ErrJoin2 (e1 e2 : error).      (* errors.Join of two non-nil errors *)

(** [errors.Join]: nil operands are dropped; nil when all are nil. *)
Definition errors_Join (e1 e2 : option error) : option error :=
  match e1, e2 with
  | None, None => None
  | Some a, None => Some (ErrJoin1 a)
  | None, Some b => Some (ErrJoin1 b)
  | Some a, Some b => Some (ErrJoin2 a b)
  end.

Inductive result (A : Type) :=
| Ok (a : A)
| Err (e : error).
Arguments Ok {A} a.
Arguments Err {A} e.

(** One conjunct of a WHERE clause, as the adapter writes them:
    [Where(col + " = ?", arg)] and [Where(col + " LIKE '%'")]. *)
Inductive cond :=
| CondEq (col arg : string)
| CondLikeAny (col : string).

#[global] Instance cond_eq_dec : EqDecision cond.
Proof. solve_decision. Defined.

(** The string columns of [casbin_policies], by name. *)
Definition column (name : string) (r : CasbinPolicy) : option string :=
  if decide (name = "ptype") then Some (PType r)
  else if decide (name = "v0") then Some (V0 r)
  else if decide (name = "v1") then Some (V1 r)
  else if decide (name = "v2") then Some (V2 r)
  else if decide (name = "v3") then Some (V3 r)
  else if decide (name = "v4") then Some (V4 r)
  else if decide (name = "v5") then Some (V5 r)
  else None.

Definition cond_column (c : cond) : string :=
  match c with CondEq col _ => col | CondLikeAny col => col end.

(** A row satisfies [col = arg] when the column holds [arg]; every string
    matches [LIKE '%']. *)
Definition eval_cond (c : cond) (r : CasbinPolicy) : bool :=
  match c with
  | CondEq col arg => bool_decide (column col r = Some arg)
  | CondLikeAny col => bool_decide (is_Some (column col r))
  end.

(** The conjuncts of a WHERE clause are ANDed. *)
Definition matches (conds : list cond) (r : CasbinPolicy) : bool :=
  forallb (fun c => eval_cond c r) conds.

(** The first unknown column of a WHERE clause, if any. *)
Definition unknown_column (conds : list cond) : option string :=
  cond_column <$>
    head (filter (fun c => ~ is_Some (column (cond_column c)
                                        (mkCasbinPolicy 0 "" "" "" "" "" "" "")))
                 conds).

Record Index := mkIndex {
  ix_name : string;
  ix_unique : bool;
  ix_columns : list string
}.

Record Table := mkTable {
  indexes : list Index;
  rows : list CasbinPolicy;      (* in insertion order *)
  next_id : Z                    (* the next value of the identity column *)
}.

(** The database holds the table [casbin_policies], or not yet. *)
Record Database := mkDatabase {
  casbin_policies : option Table
}.

(** The key of a row under an index. *)
Definition index_key (ix : Index) (r : CasbinPolicy) : list (option string) :=
  (fun col => column col r) <$> ix_columns ix.

(** The first unique index that [rs] would violate. *)
Definition violated_index (ixs : list Index) (rs : list CasbinPolicy)
    : option string :=
  ix_name <$>
    head (filter (fun ix => ix_unique ix = true
                            /\ ~ NoDup (index_key ix <$> rs)) ixs).

(** The identity column: a zero [ID] is replaced by the next identity
    value, a given one is kept. *)
Definition assign_ids (next : Z) (ps : list CasbinPolicy) : list CasbinPolicy :=
  imap (fun k p =>
          if decide (ID p = 0)
          then mkCasbinPolicy (next + Z.of_nat k) (PType p)
                 (V0 p) (V1 p) (V2 p) (V3 p) (V4 p) (V5 p)
          else p) ps.

(** [CREATE TABLE casbin_policies], with or without [IF NOT EXISTS]. *)
Definition sql_create_table (if_not_exists : bool) (d : Database)
    : result Database :=
  match casbin_policies d with
  | Some _ => if if_not_exists then Ok d else Err (ErrExists "casbin_policies")
  | None => Ok (mkDatabase (Some (mkTable [] [] 1)))
  end.

(** [CREATE [UNIQUE] INDEX name ON casbin_policies (columns)], with no
    [IF NOT EXISTS]. *)
Definition sql_create_index (ix : Index) (d : Database) : result Database :=
  match casbin_policies d with
  | None => Err ErrNoTable
  | Some t =>
      if decide (ix_name ix ∈ ix_name <$> indexes t)
      then Err (ErrExists (ix_name ix))
      else match violated_index [ix] (rows t) with
           | Some name => Err (ErrUnique name)
           | None => Ok (mkDatabase
                           (Some (mkTable (indexes t ++ [ix]) (rows t) (next_id t))))
           end
  end.

(** [TRUNCATE TABLE casbin_policies] *)
Definition sql_truncate (d : Database) : result Database :=
  match casbin_policies d with
  | None => Err ErrNoTable
  | Some t => Ok (mkDatabase (Some (mkTable (indexes t) [] (next_id t))))
  end.

(** [INSERT INTO casbin_policies ... VALUES (...), (...)]: one statement
    for all the rows. *)
Definition sql_insert (ps : list CasbinPolicy) (d : Database) : result Database :=
  match casbin_policies d with
  | None => Err ErrNoTable
  | Some t =>
      let rs := rows t ++ assign_ids (next_id t) ps in
      match violated_index (indexes t) rs with
      | Some name => Err (ErrUnique name)
      | None => Ok (mkDatabase
                      (Some (mkTable (indexes t) rs (next_id t + Z.of_nat (length ps)))))
      end
  end.

(** [DELETE FROM casbin_policies WHERE ...] *)
Definition sql_delete (conds : list cond) (d : Database) : result Database :=
  match casbin_policies d with
  | None => Err ErrNoTable
  | Some t =>
      match unknown_column conds with
      | Some name => Err (ErrNoColumn name)
      | None =>
          Ok (mkDatabase
                (Some (mkTable (indexes t)
                               (filter (fun r => matches conds r = false) (rows t))
                               (next_id t))))
      end
  end.

(** The order in which the engine returns the rows of a SELECT that has no
    ORDER BY: some arrangement of the rows selected, which may depend on
    the table, its indexes and the WHERE clause. *)
Record RowOrder := mkRowOrder {
  answer : Table -> list cond -> list CasbinPolicy -> list CasbinPolicy;
  answer_perm : forall t conds rs, answer t conds rs ≡ₚ rs
}.

(** The engine that returns the rows in insertion order. *)
Definition table_order : RowOrder :=
  mkRowOrder (fun _ _ rs => rs) (fun _ _ rs => Permutation_refl rs).

(** [SELECT ... FROM casbin_policies WHERE ...] *)
Definition sql_select (order : RowOrder) (conds : list cond) (d : Database)
    : result (list CasbinPolicy) :=
  match casbin_policies d with
  | None => Err ErrNoTable
  | Some t =>
      match unknown_column conds with
      | Some name => Err (ErrNoColumn name)
      | None =>
          Ok (answer order t conds
                (filter (fun r => matches conds r = true) (rows t)))
      end
  end.

(** [UPDATE casbin_policies SET ptype = ?, v0 = ?, ... WHERE ...]: every
    column but the primary key is set from the model. *)
Definition sql_update (model : CasbinPolicy) (conds : list cond) (d : Database)
    : result Database :=
  match casbin_policies d with
  | None => Err ErrNoTable
  | Some t =>
      match unknown_column conds with
      | Some name => Err (ErrNoColumn name)
      | None =>
          let rs := (fun r => if matches conds r
                              then mkCasbinPolicy (ID r) (PType model)
                                     (V0 model) (V1 model) (V2 model)
                                     (V3 model) (V4 model) (V5 model)
                              else r) <$> rows t in
          match violated_index (indexes t) rs with
          | Some name => Err (ErrUnique name)
          | None => Ok (mkDatabase (Some (mkTable (indexes t) rs (next_id t))))
          end
      end
  end.

(** The world the adapter runs in: the committed database, the private
    copy of the open transaction, and the failures the driver will
    inject into the coming calls ([true]: the call fails). *)
Record World := mkWorld {
  committed : Database;
  pending : option Database;
  faults : list bool
}.

(** A Go call either returns or panics. *)
Inductive outcome (A : Type) :=
| Done (a : A) (w : World)
| Panicked (w : World).
Arguments Done {A} a w.
Arguments Panicked {A} w.

(** Go code run against the world. *)
Record M (A : Type) : Type := mkM { run : World -> outcome A }.
Arguments mkM {A} run.
Arguments run {A} m w.

#[global] Instance M_ret : MRet M := fun A a => mkM (fun w => Done a w).
#[global] Instance M_bind : MBind M := fun A B f m =>
  mkM (fun w =>
         match run m w with
         | Done a w' => run (f a) w'
         | Panicked w' => Panicked w'
         end).

Definition world_of {A} (o : outcome A) : World :=
  match o with Done _ w => w | Panicked w => w end.

(** Go's index expression [l[i]]: a run-time panic when out of range. *)
Definition index {A} (l : list A) (i : Z) : M A :=
  mkM (fun w =>
         if bool_decide (0 <= i)
         then match l !! Z.to_nat i with
              | Some x => Done x w
              | None => Panicked w
              end
         else Panicked w).

(** Whether the driver fails the coming call. *)
Definition take_fault : M bool :=
  mkM (fun w =>
         match faults w with
         | [] => Done false w
         | b :: fs => Done b (mkWorld (committed w) (pending w) fs)
         end).

(** Where a query runs: on [a.db] (its effect is committed at once) or on
    the open transaction [tx]. *)
Inductive handle := OnDB | OnTx.

(** A statement that changes the database. *)
Definition run_stmt (h : handle) (stmt : Database -> result Database)
    : M (option error) :=
  failed ← take_fault;
  if (failed : bool) then mret (Some ErrDriver)
  else mkM (fun w =>
    match h with
    | OnDB =>
        match stmt (committed w) with
        | Ok d' => Done None (mkWorld d' (pending w) (faults w))
        | Err e => Done (Some e) w
        end
    | OnTx =>
        match pending w with
        | None => Done (Some ErrTxDone) w
        | Some d =>
            match stmt d with
            | Ok d' => Done None (mkWorld (committed w) (Some d') (faults w))
            | Err e => Done (Some e) w
            end
        end
    end).

(** A statement that reads rows. *)
Definition run_query (h : handle) (stmt : Database -> result (list CasbinPolicy))
    : M (list CasbinPolicy * option error) :=
  failed ← take_fault;
  if (failed : bool) then mret ([], Some ErrDriver)
  else mkM (fun w =>
    let d := match h with OnDB => Some (committed w) | OnTx => pending w end in
    match d with
    | None => Done ([], Some ErrTxDone) w
    | Some d =>
        match stmt d with
        | Ok rs => Done (rs, None) w
        | Err e => Done ([], Some e) w
        end
    end).

(** [db.BeginTx]: the transaction starts from the committed state. *)
Definition BeginTx : M (option error) :=
  failed ← take_fault;
  if (failed : bool) then mret (Some ErrDriver)
  else mkM (fun w =>
    Done None (mkWorld (committed w) (Some (committed w)) (faults w))).

(** [tx.Commit]: the private copy becomes the committed state; a failed
    commit leaves the committed state as it was. *)
Definition Commit : M (option error) :=
  failed ← take_fault;
  mkM (fun w =>
    match pending w with
    | None => Done (Some ErrTxDone) w
    | Some d =>
        if (failed : bool)
        then Done (Some ErrDriver) (mkWorld (committed w) None (faults w))
        else Done None (mkWorld d None (faults w))
    end).

(** [tx.Rollback]: the private copy is dropped. *)
Definition Rollback : M (option error) :=
  failed ← take_fault;
  mkM (fun w =>
    match pending w with
    | None => Done (Some ErrTxDone) w
    | Some _ =>
        Done (if (failed : bool) then Some ErrDriver else None)
             (mkWorld (committed w) None (faults w))
    end).

(** [db.RunInTx]: begin, run [fn], commit when it returns nil; the
    deferred function rolls back when [fn] returns an error or panics. *)
Definition RunInTx (fn : M (option error)) : M (option error) :=
  err ← BeginTx;
  match err with
  | Some e => mret (Some e)
  | None => mkM (fun w =>
      match run fn w with
      | Panicked w' => Panicked (world_of (run Rollback w'))
      | Done (Some e) w' => Done (Some e) (world_of (run Rollback w'))
      | Done None w' => run Commit w'
      end)
  end.

(** A query under construction: [NewSelect], [NewDelete], [NewUpdate]
    followed by [Where] calls. *)
Inductive verb :=
| Select
| Delete
| Update (model : CasbinPolicy).

Record Query := mkQuery {
  q_on : handle;
  q_verb : verb;
  q_where : list cond
}.

Definition NewSelect (h : handle) : Query := mkQuery h Select [].
Definition NewDelete (h : handle) : Query := mkQuery h Delete [].
Definition NewUpdate (h : handle) (model : CasbinPolicy) : Query :=
  mkQuery h (Update model) [].
Definition Where (q : Query) (c : cond) : Query :=
  mkQuery (q_on q) (q_verb q) (q_where q ++ [c]).

(** [query.Exec(ctx)] for a delete or an update; on a select the rows are
    dropped, whatever their order. *)
Definition Exec (q : Query) : M (option error) :=
  match q_verb q with
  | Delete => run_stmt (q_on q) (sql_delete (q_where q))
  | Update model => run_stmt (q_on q) (sql_update model (q_where q))
  | Select =>
      '(_, err) ← run_query (q_on q) (sql_select table_order (q_where q));
      mret err
  end.

(** [query.Scan(ctx)] for a select into a slice; the rows come in the
    order the engine returns them. *)
Definition Scan (order : RowOrder) (q : Query)
    : M (list CasbinPolicy * option error) :=
  run_query (q_on q) (sql_select order (q_where q)).

(** [NewInsert().Model(&policies).Exec(ctx)]: Bun refuses an empty slice
    while it builds the statement, before the driver is called. *)
Definition ExecInsert (h : handle) (ps : list CasbinPolicy) : M (option error) :=
  match ps with
  | [] => mret (Some ErrEmptySlice)
  | _ :: _ => run_stmt h (sql_insert ps)
  end.

End Storage.
Export Storage.

(** ** The adapter *)

Module Adapter.

(** Go's [int] is 64 bits wide on the supported platforms; [+] and [-]
    wrap around. *)
Definition int_min : Z := - 2 ^ 63.
Definition int_max : Z := 2 ^ 63 - 1.
Definition int_wrap (z : Z) : Z := (z + 2 ^ 63) mod 2 ^ 64 - 2 ^ 63.
Definition int_add (x y : Z) : Z := int_wrap (x + y).
Definition int_sub (x y : Z) : Z := int_wrap (x - y).
Definition len {A} (l : list A) : Z := Z.of_nat (length l).

(** [for _, x := range xs { if err := body(x); err != nil { return err } };
    return nil] *)
Fixpoint range_err {A} (xs : list A) (body : A -> M (option error))
    : M (option error) :=
  match xs with
  | [] => mret None
  | x :: xs' =>
      err ← body x;
      match err with
      | Some e => mret (Some e)
      | None => range_err xs' body
      end
  end.

(** [for n := 0; n <= 5; n++ { body }] over the accumulated state; the
    body does not assign to [n] and does not leave the loop. *)
Fixpoint for_n {S} (ns : list Z) (body : Z -> S -> M S) (s : S) : M S :=
  match ns with
  | [] => mret s
  | n :: ns' => s' ← body n s; for_n ns' body s'
  end.

(** [for _, rule := range rules { policies = append(policies,
    newCasbinPolicy(ptype, rule)) }] *)
Definition append_policies (policies : list CasbinPolicy) (ptype : string)
    (rules : list (list string)) : list CasbinPolicy :=
  foldl (fun policies rule => policies ++ [newCasbinPolicy ptype rule])
        policies rules.

(** [type Adapter struct]; the [db] field is the world the methods run
    in, a handle that is not nil. *)
Record Adapter := mkAdapter {
  notCreateTables : bool
}.

(** [type CasbinBunOption func(a *Adapter)]: a function value, which may be
    nil; called, it may update the adapter it is given and, as any Go
    function, act on the world or panic. *)
Definition CasbinBunOption : Type := option (Adapter -> M Adapter).

(** [func DisableAutoCreateTable() CasbinBunOption] *)
Definition DisableAutoCreateTable : CasbinBunOption :=
  Some (fun a => mret (mkAdapter true)).

(** The call [opt(b)]: calling a nil function value is a run-time panic. *)
Definition call_option (opt : CasbinBunOption) (b : Adapter) : M Adapter :=
  match opt with
  | Some f => f b
  | None => mkM (fun w => Panicked w)
  end.

(** [for _, opt := range opts { opt(b) }] *)
Fixpoint apply_options (opts : list CasbinBunOption) (b : Adapter) : M Adapter :=
  match opts with
  | [] => mret b
  | opt :: opts' => b ← call_option opt b; apply_options opts' b
  end.

Definition unique_casbin_policy : Index :=
  mkIndex "unique_casbin_policy" true ["ptype"; "v0"; "v1"; "v2"; "v3"; "v4"; "v5"].
Definition idx_casbin_ptype : Index :=
  mkIndex "idx_casbin_ptype" false ["ptype"].

(** [func (a *Adapter) createTable(ctx) error] *)
Definition createTable : M (option error) :=
  err ← BeginTx;
  match err with
  | Some e => mret (Some e)
  | None =>
      err ← run_stmt OnTx (sql_create_table true);
      match err with
      | Some e => r ← Rollback; mret (errors_Join (Some e) r)
      | None =>
          err ← run_stmt OnTx (sql_create_index unique_casbin_policy);
          match err with
          | Some e => r ← Rollback; mret (errors_Join (Some e) r)
          | None =>
              err ← run_stmt OnTx (sql_create_index idx_casbin_ptype);
              match err with
              | Some e => r ← Rollback; mret (errors_Join (Some e) r)
              | None => Commit
              end
          end
      end
  end.

(** [func NewAdapter(ctx, db, opts ...CasbinBunOption)], which returns the
    adapter and an error; the finalizer it registers is not modelled. *)
Definition NewAdapter (opts : list CasbinBunOption)
    : M (option Adapter * option error) :=
  let b := mkAdapter false in
  b ← apply_options opts b;
  if negb (notCreateTables b)
  then err ← createTable;
       match err with
       | Some e => mret (None, Some e)
       | None => mret (Some b, None)
       end
  else mret (Some b, None).

(** [func (a *Adapter) refreshTable(ctx) error] *)
Definition refreshTable : M (option error) :=
  err ← run_stmt OnDB sql_truncate;
  match err with
  | Some e => mret (Some e)
  | None => mret None
  end.

(** [func (a *Adapter) savePolicyRecords(ctx, policies) error] *)
Definition savePolicyRecords (policies : list CasbinPolicy) : M (option error) :=
  err ← refreshTable;
  match err with
  | Some e => mret (Some e)
  | None =>
      err ← ExecInsert OnDB policies;
      match err with
      | Some e => mret (Some e)
      | None => mret None
      end
  end.

(** Casbin's [model.Assertion], of which the adapter reads [Policy];
    [model.Model] maps a section to its assertions by rule type. *)
Record Assertion := mkAssertion {
  Policy : list (list string)
}.

(** Go's [for k, v := range m] over a map visits every entry once, in an
    order the run time chooses anew for each loop.  [RangeOrder] is that
    choice for the loops over [model[sec]], one per section. *)
Record RangeOrder := mkRangeOrder {
  range_of : string -> gmap string Assertion -> list (string * Assertion);
  range_of_perm : forall sec m, range_of sec m ≡ₚ map_to_list m
}.

(** The run time that visits the rule types in the order in which
    [map_to_list] lists them. *)
Definition key_order : RangeOrder :=
  mkRangeOrder (fun _ m => map_to_list m)
               (fun _ m => Permutation_refl (map_to_list m)).

(** The two range loops of [SavePolicyCtx] over [model[sec]]; a missing
    section is a nil map. *)
Definition section_policies (order : RangeOrder) (policies : list CasbinPolicy)
    (model : gmap string (gmap string Assertion)) (sec : string)
    : list CasbinPolicy :=
  foldl (fun policies '(ptype, ast) => append_policies policies ptype (Policy ast))
        policies
        (range_of order sec (default (∅ : gmap string Assertion) (model !! sec))).

(** [func (a *Adapter) SavePolicyCtx(ctx, model) error] *)
Definition SavePolicyCtx (order : RangeOrder)
    (model : gmap string (gmap string Assertion)) : M (option error) :=
  let policies := [] in
  let policies := section_policies order policies model "p" in
  let policies := section_policies order policies model "g" in
  savePolicyRecords policies.

(** [func (a *Adapter) AddPolicyCtx(ctx, _, ptype, rule) error] *)
Definition AddPolicyCtx (ptype : string) (rule : list string) : M (option error) :=
  let newPolicy := newCasbinPolicy ptype rule in
  err ← ExecInsert OnDB [newPolicy];
  match err with
  | Some e => mret (Some e)
  | None => mret None
  end.

(** [func (a *Adapter) AddPoliciesCtx(ctx, _, ptype, rules) error] *)
Definition AddPoliciesCtx (ptype : string) (rules : list (list string))
    : M (option error) :=
  let policies := append_policies [] ptype rules in
  err ← ExecInsert OnDB policies;
  match err with
  | Some e => mret (Some e)
  | None => mret None
  end.

(** The range loop of [delete] and of [update] over the keyed values: one
    equality per entry. *)
Definition where_values (query : Query) (values : gmap string string) : Query :=
  foldl (fun query '(key, value) => Where query (CondEq key value))
        query (map_to_list values).

(** [func (a *Adapter) delete(ctx, query, values) error] *)
Definition delete (query : Query) (values : gmap string string) : M (option error) :=
  let query := where_values query values in
  err ← Exec query;
  match err with
  | Some e => mret (Some e)
  | None => mret None
  end.

(** [func (a *Adapter) deleteRecord(ctx, existingPolicy) error] *)
Definition deleteRecord (existingPolicy : CasbinPolicy) : M (option error) :=
  let query := Where (NewDelete OnDB) (CondEq "ptype" (PType existingPolicy)) in
  let values := filterValuesWithKey existingPolicy in
  delete query values.

(** [func (a *Adapter) deleteRecordInTx(ctx, tx, existingPolicy) error] *)
Definition deleteRecordInTx (existingPolicy : CasbinPolicy) : M (option error) :=
  let query := Where (NewDelete OnTx) (CondEq "ptype" (PType existingPolicy)) in
  let values := filterValuesWithKey existingPolicy in
  delete query values.

(** [func (a *Adapter) RemovePolicyCtx(ctx, _, ptype, rule) error] *)
Definition RemovePolicyCtx (ptype : string) (rule : list string) : M (option error) :=
  let exisingPolicy := newCasbinPolicy ptype rule in
  err ← deleteRecord exisingPolicy;
  match err with
  | Some e => mret (Some e)
  | None => mret None
  end.

(** [func (a *Adapter) RemovePoliciesCtx(ctx, _, ptype, rules) error] *)
Definition RemovePoliciesCtx (ptype : string) (rules : list (list string))
    : M (option error) :=
  RunInTx
    (range_err rules (fun rule =>
       let exisingPolicy := newCasbinPolicy ptype rule in
       deleteRecordInTx exisingPolicy)).

(** The body of the loop of [deleteFilteredPolicy] at slot position [n];
    [continue] leaves the query as it is. *)
Definition deleteFilteredPolicy_body (fieldIndex : Z) (fieldValues : list string)
    (n : Z) (query : Query) : M Query :=
  if bool_decide (fieldIndex > n)
     || bool_decide (n >= int_add fieldIndex (len fieldValues))
  then mret query
  else
    value ← index fieldValues (int_sub n fieldIndex);
    let col := Sprintf_v n in
    if decide (value = "")
    then mret (Where query (CondLikeAny col))
    else mret (Where query (CondEq col value)).

(** The loop [for n := 0; n <= 5; n++] of [deleteFilteredPolicy]. *)
Definition deleteFilteredPolicy_where (query : Query) (fieldIndex : Z)
    (fieldValues : list string) : M Query :=
  for_n [0; 1; 2; 3; 4; 5] (deleteFilteredPolicy_body fieldIndex fieldValues) query.

(** [func (a *Adapter) deleteFilteredPolicy(ctx, ptype, fieldIndex,
    fieldValues...) error] *)
Definition deleteFilteredPolicy (ptype : string) (fieldIndex : Z)
    (fieldValues : list string) : M (option error) :=
  let query := Where (NewDelete OnDB) (CondEq "ptype" ptype) in
  query ← deleteFilteredPolicy_where query fieldIndex fieldValues;
  err ← Exec query;
  match err with
  | Some e => mret (Some e)
  | None => mret None
  end.

(** [func (a *Adapter) RemoveFilteredPolicyCtx(ctx, sec, ptype, fieldIndex,
    fieldValues...) error] *)
Definition RemoveFilteredPolicyCtx (ptype : string) (fieldIndex : Z)
    (fieldValues : list string) : M (option error) :=
  deleteFilteredPolicy ptype fieldIndex fieldValues.

(** [func (a *Adapter) update(ctx, query, values) error] *)
Definition update (query : Query) (values : gmap string string) : M (option error) :=
  let query := where_values query values in
  err ← Exec query;
  match err with
  | Some e => mret (Some e)
  | None => mret None
  end.

(** [func (a *Adapter) updateRecord(ctx, oldPolicy, newPolicy) error] *)
Definition updateRecord (oldPolicy newPolicy : CasbinPolicy) : M (option error) :=
  let query := Where (NewUpdate OnDB newPolicy) (CondEq "ptype" (PType oldPolicy)) in
  let values := filterValuesWithKey oldPolicy in
  update query values.

(** [func (a *Adapter) updateRecordInTx(ctx, tx, oldPolicy, newPolicy) error] *)
Definition updateRecordInTx (oldPolicy newPolicy : CasbinPolicy) : M (option error) :=
  let query := Where (NewUpdate OnTx newPolicy) (CondEq "ptype" (PType oldPolicy)) in
  let values := filterValuesWithKey oldPolicy in
  update query values.

(** [func (a *Adapter) UpdatePolicyCtx(ctx, sec, ptype, oldRule, newRule) error] *)
Definition UpdatePolicyCtx (ptype : string) (oldRule newRule : list string)
    : M (option error) :=
  let oldPolicy := newCasbinPolicy ptype oldRule in
  let newPolicy := newCasbinPolicy ptype newRule in
  updateRecord oldPolicy newPolicy.

(** [func (a *Adapter) UpdatePoliciesCtx(ctx, sec, ptype, oldRules,
    newRules) error]; [for i := range oldPolicies] reads [oldPolicies[i]]
    and [newPolicies[i]]. *)
Definition UpdatePoliciesCtx (ptype : string) (oldRules newRules : list (list string))
    : M (option error) :=
  let oldPolicies := append_policies [] ptype oldRules in
  let newPolicies := append_policies [] ptype newRules in
  RunInTx
    (range_err (seqZ 0 (len oldPolicies)) (fun i =>
       oldPolicy ← index oldPolicies i;
       newPolicy ← index newPolicies i;
       updateRecordInTx oldPolicy newPolicy)).

(** The body of the loop of [UpdateFilteredPoliciesCtx] at slot position
    [n], which extends the select and the delete query alike. *)
Definition UpdateFilteredPoliciesCtx_body (fieldIndex : Z)
    (fieldValues : list string) (n : Z) (queries : Query * Query)
    : M (Query * Query) :=
  let '(selectQuery, deleteQuery) := queries in
  if bool_decide (fieldIndex > n)
     || bool_decide (n >= int_add fieldIndex (len fieldValues))
  then mret (selectQuery, deleteQuery)
  else
    value ← index fieldValues (int_sub n fieldIndex);
    let col := Sprintf_v n in
    let condition := CondLikeAny col in
    let condition := if decide (value <> "") then CondEq col value
                     else condition in
    mret (Where selectQuery condition, Where deleteQuery condition).

(** The loop [for n := 0; n <= 5; n++] of [UpdateFilteredPoliciesCtx]. *)
Definition UpdateFilteredPoliciesCtx_where (queries : Query * Query)
    (fieldIndex : Z) (fieldValues : list string) : M (Query * Query) :=
  for_n [0; 1; 2; 3; 4; 5]
        (UpdateFilteredPoliciesCtx_body fieldIndex fieldValues) queries.

(** [func (a *Adapter) UpdateFilteredPoliciesCtx(ctx, sec, ptype, newRules,
    fieldIndex, fieldValues...) ([][]string, error)] *)
Definition UpdateFilteredPoliciesCtx (order : RowOrder) (ptype : string)
    (newRules : list (list string)) (fieldIndex : Z) (fieldValues : list string)
    : M (list (list string) * option error) :=
  let newPolicies := append_policies [] ptype newRules in
  err ← BeginTx;
  match err with
  | Some e => mret ([], Some e)
  | None =>
      let selectQuery := Where (NewSelect OnTx) (CondEq "ptype" ptype) in
      let deleteQuery := Where (NewDelete OnTx) (CondEq "ptype" ptype) in
      '(selectQuery, deleteQuery) ←
        UpdateFilteredPoliciesCtx_where (selectQuery, deleteQuery)
                                        fieldIndex fieldValues;
      '(oldPolicies, err) ← Scan order selectQuery;
      match err with
      | Some e =>
          rerr ← Rollback;
          match rerr with
          | Some e' => mret ([], Some e')
          | None => mret ([], Some e)
          end
      | None =>
          err ← Exec deleteQuery;
          match err with
          | Some e =>
              rerr ← Rollback;
              match rerr with
              | Some e' => mret ([], Some e')
              | None => mret ([], Some e)
              end
          | None =>
              err ← ExecInsert OnTx newPolicies;
              match err with
              | Some e =>
                  rerr ← Rollback;
                  match rerr with
                  | Some e' => mret ([], Some e')
                  | None => mret ([], Some e)
                  end
              | None =>
                  let out := foldl (fun out policy => out ++ [toSlice policy])
                                   [] oldPolicies in
                  cerr ← Commit;
                  mret (out, cerr)
              end
          end
      end
  end.

End Adapter.
Export Adapter.

(** ** The filter predicate, as the specification words it *)

Module PredicateSpec.

(** The conjunct the specification gives to slot position [n]: none outside
    [fieldIndex .. fieldIndex + len(values) - 1], match-anything for an
    empty value, equality otherwise. *)
Definition slot_predicate (fieldIndex : Z) (fieldValues : list string) (n : Z)
    : option cond :=
  if decide (n < fieldIndex \/ n >= fieldIndex + len fieldValues) then None
  else match fieldValues !! Z.to_nat (n - fieldIndex) with
       | None => None
       | Some value =>
           if decide (value = "") then Some (CondLikeAny (Sprintf_v n))
           else Some (CondEq (Sprintf_v n) value)
       end.

(** The whole predicate: the rule type, then the slots 0 to 5. *)
Definition filter_predicate (ptype : string) (fieldIndex : Z)
    (fieldValues : list string) : list cond :=
  CondEq "ptype" ptype
  :: omap (slot_predicate fieldIndex fieldValues) [0; 1; 2; 3; 4; 5].




End PredicateSpec.
Export PredicateSpec.

(** ** Postconditions of adapter code *)

Module Triples.

(** [wp m Q E w]: run from [w], [m] returns a value and a world that
    satisfy [Q], or panics in a world that satisfies [E]. *)
Definition wp {A} (m : M A) (Q : A -> World -> Prop) (E : World -> Prop)
    (w : World) : Prop :=
  match run m w with
  | Done a w' => Q a w'
  | Panicked w' => E w'
  end.

(** The outcome is a failure: a returned error or a panic. *)
Definition failed (o : outcome (option error)) : Prop :=
  match o with
  | Done None _ => False
  | _ => True
  end.

Definition failed2 {A} (o : outcome (A * option error)) : Prop :=
  match o with
  | Done (_, None) _ => False
  | _ => True
  end.

(** [m] returns: it does not panic. *)
Definition returns {A} (m : M A) : Prop :=
  forall w, wp m (fun _ _ => True) (fun _ => False) w.

(** [m] never changes the committed state, whether it returns or panics. *)
Definition keeps_committed {A} (m : M A) : Prop :=
  forall w,
    wp m (fun _ w' => committed w' = committed w)
         (fun w' => committed w' = committed w) w.

(** All or nothing: when [m] returns an error or panics, the committed
    state is the one it started from. *)
Definition all_or_nothing (m : M (option error)) : Prop :=
  forall w,
    wp m (fun err w' => err <> None -> committed w' = committed w)
         (fun w' => committed w' = committed w) w.

(** The same for an operation that returns a value next to the error. *)
Definition all_or_nothing2 {A} (m : M (A * option error)) : Prop :=
  forall w,
    wp m (fun res w' => res.2 <> None -> committed w' = committed w)
         (fun w' => committed w' = committed w) w.

(** [m] neither touches the world nor panics, and returns a value in [R]. *)
Definition pure_in {A} (R : A -> Prop) (m : M A) : Prop :=
  forall w, wp m (fun a w' => w' = w /\ R a) (fun w' => w' = w) w.

(** A slot predicate, when there is one, appended to a WHERE clause. *)
Definition Where_opt (query : Query) (c : option cond) : Query :=
  mkQuery (q_on query) (q_verb query)
          (q_where query ++ from_option (fun c => [c]) [] c).

End Triples.
Export Triples.

(** ** The rule set of a model, as the specification words it *)

Module SaveSpec.

(** A row without its storage-assigned identity. *)
Definition forget_id (r : CasbinPolicy) : CasbinPolicy :=
  mkCasbinPolicy 0 (PType r) (V0 r) (V1 r) (V2 r) (V3 r) (V4 r) (V5 r).

(** The rules of one rule family of the model, each with its rule type:
    the rule types as the loop visits them, the rules of a rule type in
    the order of its [Policy]. *)
Definition section_rules (order : RangeOrder)
    (model : gmap string (gmap string Assertion)) (sec : string)
    : list (string * list string) :=
  range_of order sec (default (∅ : gmap string Assertion) (model !! sec))
  ≫= (fun '(ptype, ast) => (fun rule => (ptype, rule)) <$> Policy ast).

(** The rule set passed to [SavePolicy]: the policy rules, then the role
    rules. *)
Definition model_rules (order : RangeOrder)
    (model : gmap string (gmap string Assertion))
    : list (string * list string) :=
  section_rules order model "p" ++ section_rules order model "g".

Definition encode (rule : string * list string) : CasbinPolicy :=
  newCasbinPolicy rule.1 rule.2.

End SaveSpec.
Export SaveSpec.

(** ** The partial key of a single remove, as the specification words it *)

Module RemoveSpec.

(** The keyed values of the range loop of [filterValuesWithKey], one per
    non-empty slot, in slot order. *)
Definition keyed_values (l : list (nat * string)) : list (string * string) :=
  omap (fun '(i, v) => if decide (v = "") then None
                       else Some (Sprintf_v (Z.of_nat i), v)) l.

(** The filter the specification gives to a single remove: equality on the
    rule type and on each non-empty slot. *)
Definition key_filter (p : CasbinPolicy) : list cond :=
  CondEq "ptype" (PType p)
  :: ((fun kv => CondEq kv.1 kv.2)
        <$> keyed_values (imap (fun i v => (i, v)) (slots p))).

(** The row [r] shares the partial key of [p]: the rule type, and the
    value of every slot that [p] fills. *)
Definition shares_partial_key (p r : CasbinPolicy) : Prop :=
  PType r = PType p
  /\ Forall2 (fun a b => a = "" \/ b = a) (slots p) (slots r).

#[global] Instance shares_partial_key_dec (p r : CasbinPolicy) :
  Decision (shares_partial_key p r).
Proof. unfold shares_partial_key. apply _. Defined.

End RemoveSpec.
Export RemoveSpec.

(** ** Example tables *)

Module Examples.

Definition alice_data1_read : CasbinPolicy :=
  mkCasbinPolicy 1 "p" "alice" "data1" "read" "" "" "".
Definition bob_data1_read : CasbinPolicy :=
  mkCasbinPolicy 2 "p" "bob" "data1" "read" "" "" "".
Definition alice_data2_write : CasbinPolicy :=
  mkCasbinPolicy 3 "p" "alice" "data2" "write" "" "" "".

(** The table as [createTable] makes it, holding [rs]. *)
Definition table_of (rs : list CasbinPolicy) (next : Z) : Table :=
  mkTable [unique_casbin_policy; idx_casbin_ptype] rs next.

(** A world with that table, no open transaction and no failure ahead. *)
Definition world_of_rows (rs : list CasbinPolicy) (next : Z) : World :=
  mkWorld (mkDatabase (Some (table_of rs next))) None [].

(** A model with two policy rules and one role rule. *)
Definition small_model : gmap string (gmap string Assertion) :=
  {[ "p" := {[ "p" := mkAssertion [["alice"; "data1"; "read"];
                                   ["bob"; "data2"; "write"]] ]};
     "g" := {[ "g" := mkAssertion [["alice"; "admin"]] ]} ]}.

Definition alice_admin : CasbinPolicy :=
  mkCasbinPolicy 2 "g" "alice" "admin" "" "" "" "".

(** Rows of two rule types. *)
Definition mixed_rows : World :=
  world_of_rows [alice_data1_read; alice_admin; alice_data2_write] 4.

Definition three_rows : World :=
  world_of_rows [alice_data1_read; bob_data1_read; alice_data2_write] 4.

(** An empty database, on which [NewAdapter] is then run. *)
Definition fresh : World := mkWorld (mkDatabase None) None [].

(** The tuples stored after a run, each decoded by [toSlice]. *)
Definition stored {A} (o : outcome A) : list (list string) :=
  match casbin_policies (committed (world_of o)) with
  | Some t => toSlice <$> rows t
  | None => []
  end.

(** The rules the tests of the repository start from. *)
Definition test_policies : list (list string) :=
  [["alice"; "data1"; "write"]; ["bob"; "data1"; "read"];
   ["alice"; "data2"; "write"]].

End Examples.
Export Examples.

(** ** Loading the table into Casbin's model *)

Module Loader.

(** Go's slice expression [s[:1]] on a string: its first byte, and a
    run-time panic on the empty string. *)
Definition slice_to_1 (s : string) : M string :=
  mkM (fun w =>
         match s with
         | EmptyString => Panicked w
         | String a _ => Done (String a EmptyString) w
         end).

Section WithModel.

(** Casbin's [model.Model] is a library type: [Model] stands for its
    state, and the two methods [loadPolicyRecord] calls are taken as they
    are, [AddPolicy] returning the model it has updated in place. *)
Context {Model ModelError : Type}.
Variable HasPolicyEx :
  Model -> string -> string -> list string -> bool * option ModelError.
Variable AddPolicy :
  Model -> string -> string -> list string -> Model * option ModelError.

(** [func loadPolicyRecord(policy CasbinPolicy, model model.Model) error] *)
Definition loadPolicyRecord (policy : CasbinPolicy) (model : Model)
    : M (Model * option ModelError) :=
  let pType := PType policy in
  sec ← slice_to_1 pType;
  let '(ok, err) := HasPolicyEx model sec pType (filterValues policy) in
  match err with
  | Some e => mret (model, Some e)
  | None =>
      if (ok : bool) then mret (model, None)
      else mret (AddPolicy model sec pType (filterValues policy))
  end.

(** The range loop of [LoadPolicyCtx] over the scanned rows; it returns
    at the first error. *)
Fixpoint LoadPolicyCtx_range (policies : list CasbinPolicy) (model : Model)
    : M (Model * option ModelError) :=
  match policies with
  | [] => mret (model, None)
  | policy :: policies' =>
      '(model, err) ← loadPolicyRecord policy model;
      match err with
      | Some e => mret (model, Some e)
      | None => LoadPolicyCtx_range policies' model
      end
  end.

(** [func (a *Adapter) LoadPolicyCtx(ctx, model) error]; the error is the
    driver's ([inl]) or the model's ([inr]). *)
Definition LoadPolicyCtx (order : RowOrder) (model : Model)
    : M (Model * option (error + ModelError)) :=
  '(policies, err) ← Scan order (NewSelect OnDB);
  match err with
  | Some e => mret (model, Some (inl e))
  | None =>
      '(model, err) ← LoadPolicyCtx_range policies model;
      mret (model, inr <$> err)
  end.

End WithModel.

End Loader.
Export Loader.

(** ** Well-formed records and a model to load into *)

Module CodecSpec.

(** Once a slot is empty, all the slots after it are empty. *)
Fixpoint no_gap (l : list string) : bool :=
  match l with
  | [] => true
  | x :: l' =>
      if decide (x = "") then forallb (fun y => bool_decide (y = "")) l'
      else no_gap l'
  end.

(** A tuple cut or padded to the six slots. *)
Definition pad6 (T : list string) : list string :=
  take 6 (T ++ replicate 6 "").

(** The row [r] rewritten by an update to the values of [model]. *)
Definition rewritten (model r : CasbinPolicy) : CasbinPolicy :=
  mkCasbinPolicy (ID r) (PType model)
    (V0 model) (V1 model) (V2 model) (V3 model) (V4 model) (V5 model).

(** The section of a rule type: its first byte. *)
Definition section_of (ptype : string) : string :=
  match ptype with
  | EmptyString => EmptyString
  | String a _ => String a EmptyString
  end.

(** A stand-in for Casbin's model: the rules it holds, each with its
    section and rule type; it has no errors of its own. *)
Definition rule_list : Type := list (string * string * list string).

Definition rule_list_HasPolicyEx (model : rule_list) (sec ptype : string)
    (rule : list string) : bool * option Empty_set :=
  (bool_decide ((sec, ptype, rule) ∈ model), None).

Definition rule_list_AddPolicy (model : rule_list) (sec ptype : string)
    (rule : list string) : rule_list * option Empty_set :=
  (model ++ [(sec, ptype, rule)], None).

End CodecSpec.
Export CodecSpec.

(** ** Properties of the codec *)

Section CodecFacts.

Lemma nonEmptyFields_acc (acc fields : list string) :
  foldl (fun result f => if decide (f <> "") then result ++ [f] else result)
        acc fields
  = acc ++ filter (fun f => f <> "") fields.
Proof.
  revert acc. induction fields as [|f fields IH]; intros acc; simpl.
  - by rewrite app_nil_r.
  - rewrite IH, filter_cons. destruct (decide (f <> "")); [|done].
    by rewrite <- app_assoc.
Qed.

(** [nonEmptyFields] keeps the non-empty strings, in order. *)
Lemma nonEmptyFields_filter (fields : list string) :
  nonEmptyFields fields = filter (fun f => f <> "") fields.
Proof. unfold nonEmptyFields. by rewrite nonEmptyFields_acc. Qed.

Lemma nonEmptyFields_id (fields : list string) :
  Forall (fun f => f <> "") fields -> nonEmptyFields fields = fields.
Proof.
  intros H. rewrite nonEmptyFields_filter.
  induction H as [|f fields Hf _ IH]; [done|].
  rewrite filter_cons. destruct (decide (f <> "")); [by rewrite IH | done].
Qed.

(** Beyond six iterations the loop of [newCasbinPolicy] has stopped: more
    fuel changes nothing. *)
Lemma newCasbinPolicy_loop_fuel (k fuel i : nat) (rule : list string) c :
  (6 <= fuel + i)%nat ->
  newCasbinPolicy_loop (fuel + k) i rule c = newCasbinPolicy_loop fuel i rule c.
Proof.
  revert i c. induction fuel as [|fuel IH]; intros i c Hi; simpl.
  - destruct k as [|k]; [done|]. simpl.
    rewrite (bool_decide_eq_false_2 (i < 6)%nat) by lia.
    by rewrite andb_false_r.
  - destruct (bool_decide (i < length rule)%nat && bool_decide (i < 6)%nat);
      [|done].
    apply IH. lia.
Qed.

(** The slots of an encoded rule: the first six elements, padded with the
    empty string. *)
Lemma newCasbinPolicy_slots (ptype : string) (rule : list string) :
  slots (newCasbinPolicy ptype rule) = take 6 (rule ++ replicate 6 "").
Proof.
  destruct rule as [|x0 [|x1 [|x2 [|x3 [|x4 [|x5 rest]]]]]]; reflexivity.
Qed.

Lemma newCasbinPolicy_PType (ptype : string) (rule : list string) :
  PType (newCasbinPolicy ptype rule) = ptype.
Proof.
  destruct rule as [|x0 [|x1 [|x2 [|x3 [|x4 [|x5 rest]]]]]]; reflexivity.
Qed.

Lemma newCasbinPolicy_ID (ptype : string) (rule : list string) :
  ID (newCasbinPolicy ptype rule) = 0.
Proof.
  destruct rule as [|x0 [|x1 [|x2 [|x3 [|x4 [|x5 rest]]]]]]; reflexivity.
Qed.

Lemma filterValues_slots (c : CasbinPolicy) :
  filterValues c = nonEmptyFields (slots c).
Proof. reflexivity. Qed.

Lemma nonEmptyFields_replicate_empty (n : nat) :
  nonEmptyFields (replicate n "") = [].
Proof.
  rewrite nonEmptyFields_filter.
  induction n as [|n IH]; [done|]. simpl. rewrite filter_cons.
  destruct (decide ("" <> "")); [done | exact IH].
Qed.

Lemma nonEmptyFields_app (l k : list string) :
  nonEmptyFields (l ++ k) = nonEmptyFields l ++ nonEmptyFields k.
Proof. rewrite !nonEmptyFields_filter. apply filter_app. Qed.

(** C1, as stated, fails: an empty string inside the tuple is dropped by
    [filterValues], so a tuple of length at most 6 that holds one does not
    come back. *)
Lemma roundtrip_loses_empty_element :
  (length ["alice"; ""; "read"] <= 6)%nat
  /\ filterValues (newCasbinPolicy "p" ["alice"; ""; "read"]) = ["alice"; "read"]
  /\ filterValues (newCasbinPolicy "p" ["alice"; ""; "read"])
     <> ["alice"; ""; "read"].
Proof. split; [simpl; lia|]. split; [reflexivity | discriminate]. Qed.

(** C1 (amended): for every rule type and every tuple [T] of at most six
    strings none of which is empty, [filterValues (newCasbinPolicy ptype T)]
    is [T]. *)
Theorem filterValues_newCasbinPolicy_roundtrip (ptype : string) (T : list string) :
  (length T <= 6)%nat ->
  Forall (fun x => x <> "") T ->
  filterValues (newCasbinPolicy ptype T) = T.
Proof.
  intros Hlen Hne.
  rewrite filterValues_slots, newCasbinPolicy_slots.
  rewrite take_app_ge by exact Hlen. rewrite take_replicate.
  rewrite nonEmptyFields_app, nonEmptyFields_replicate_empty, app_nil_r.
  by apply nonEmptyFields_id.
Qed.

Lemma filterValues_newCasbinPolicy_roundtrip_witness :
  filterValues (newCasbinPolicy "p" ["alice"; "data1"; "read"])
  = ["alice"; "data1"; "read"].
Proof.
  apply (filterValues_newCasbinPolicy_roundtrip "p" ["alice"; "data1"; "read"]).
  - simpl; lia.
  - repeat constructor; discriminate.
Defined.

(** C7: a tuple longer than six elements is encoded by its first six
    elements, the rest is dropped and the encoding is a record all the
    same; the empty tuple is encoded with six empty slots and its filter
    values are the empty sequence. *)
Theorem newCasbinPolicy_truncates_and_empty :
  (forall (ptype : string) (T : list string),
      (6 < length T)%nat ->
      slots (newCasbinPolicy ptype T) = take 6 T
      /\ PType (newCasbinPolicy ptype T) = ptype)
  /\ (forall ptype : string,
        newCasbinPolicy ptype [] = mkCasbinPolicy 0 ptype "" "" "" "" "" ""
        /\ slots (newCasbinPolicy ptype []) = ["" ; ""; ""; ""; ""; ""]
        /\ filterValues (newCasbinPolicy ptype []) = []).
Proof.
  split.
  - intros ptype T Hlen. split; [|apply newCasbinPolicy_PType].
    rewrite newCasbinPolicy_slots. apply take_app_le. lia.
  - intros ptype. repeat split; reflexivity.
Qed.

Lemma newCasbinPolicy_truncates_and_empty_witness :
  slots (newCasbinPolicy "p" ["a"; "b"; "c"; "d"; "e"; "f"; "g"; "h"])
  = ["a"; "b"; "c"; "d"; "e"; "f"].
Proof.
  apply (proj1 newCasbinPolicy_truncates_and_empty
               "p" ["a"; "b"; "c"; "d"; "e"; "f"; "g"; "h"]).
  simpl; lia.
Defined.

End CodecFacts.

(** ** Reading adapter code *)

Section Programs.

Lemma run_bind {A B} (m : M A) (k : A -> M B) (w : World) :
  run (m ≫= k) w
  = match run m w with
    | Done a w' => run (k a) w'
    | Panicked w' => Panicked w'
    end.
Proof. reflexivity. Qed.

Lemma append_policies_fmap (policies : list CasbinPolicy) (ptype : string)
    (rules : list (list string)) :
  append_policies policies ptype rules
  = policies ++ (newCasbinPolicy ptype <$> rules).
Proof.
  unfold append_policies. revert policies.
  induction rules as [|rule rules IH]; intros policies; simpl.
  - by rewrite app_nil_r.
  - rewrite IH. by rewrite <- app_assoc.
Qed.

Lemma toSlice_fold (policies : list CasbinPolicy) (out : list (list string)) :
  foldl (fun out policy => out ++ [toSlice policy]) out policies
  = out ++ (toSlice <$> policies).
Proof.
  revert out. induction policies as [|policy policies IH]; intros out; simpl.
  - by rewrite app_nil_r.
  - by rewrite IH, <- app_assoc.
Qed.

(** A bulk insert of at least one row is one statement. *)
Lemma ExecInsert_rows (h : handle) (ps : list CasbinPolicy) :
  ps <> [] -> ExecInsert h ps = run_stmt h (sql_insert ps).
Proof. by destruct ps. Qed.

End Programs.

(** ** Properties of the filter predicate *)

(** Case analysis on a slot position between 0 and 5. *)
Ltac slot_cases n :=
  let H := fresh "Hslot" in
  assert (n = 0 \/ n = 1 \/ n = 2 \/ n = 3 \/ n = 4 \/ n = 5) as H by lia;
  destruct H as [?|[?|[?|[?|[?|?]]]]]; subst n.

(** Membership in a list that is written out. *)
Ltac elem_of_literal :=
  repeat first [apply list_elem_of_here | apply list_elem_of_further].

Section PredicateFacts.

Context (fieldIndex : Z) (fieldValues : list string).
Hypothesis fieldIndex_int : int_min <= fieldIndex <= int_max.
(** A slice of strings is far shorter than the largest [int]. *)
Hypothesis fieldValues_len : len fieldValues <= int_max - 5.

Lemma int_wrap_id (z : Z) : int_min <= z <= int_max -> int_wrap z = z.
Proof.
  unfold int_wrap, int_min, int_max. intros H.
  rewrite Z.mod_small; lia.
Qed.

(** The guard of the loops, without the wrap-around. *)
Lemma guard_spec (n : Z) :
  0 <= n <= 5 ->
  bool_decide (fieldIndex > n)
  || bool_decide (n >= int_add fieldIndex (len fieldValues))
  = bool_decide (n < fieldIndex \/ n >= fieldIndex + len fieldValues).
Proof using fieldIndex_int fieldValues_len.
  intros Hn. unfold len in *.
  destruct (decide (fieldIndex > n)) as [Hgt|Hle].
  - rewrite (bool_decide_eq_true_2 _ Hgt). simpl.
    symmetry. apply bool_decide_eq_true_2. lia.
  - rewrite (bool_decide_eq_false_2 _ Hle). simpl.
    unfold int_add. rewrite int_wrap_id by (unfold int_min, int_max in *; lia).
    apply bool_decide_ext. lia.
Qed.

(** Inside the guard the index expression is in range: the loops do not
    panic. *)
Lemma index_in_guard (n : Z) (w : World) :
  0 <= n <= 5 ->
  ~ (n < fieldIndex \/ n >= fieldIndex + len fieldValues) ->
  exists value,
    fieldValues !! Z.to_nat (n - fieldIndex) = Some value
    /\ run (index fieldValues (int_sub n fieldIndex)) w = Done value w.
Proof using fieldIndex_int fieldValues_len.
  intros Hn Hg. unfold len in *.
  assert (Hlt : (Z.to_nat (n - fieldIndex) < length fieldValues)%nat) by lia.
  destruct (lookup_lt_is_Some_2 _ _ Hlt) as [value Hv].
  exists value. split; [exact Hv|].
  unfold index, int_sub. simpl.
  rewrite int_wrap_id by (unfold int_min, int_max in *; lia).
  rewrite bool_decide_eq_true_2 by lia. by rewrite Hv.
Qed.

(** One iteration of the loop of [deleteFilteredPolicy]. *)
Lemma deleteFilteredPolicy_step (n : Z) (query : Query) (w : World) :
  0 <= n <= 5 ->
  run (deleteFilteredPolicy_body fieldIndex fieldValues n query) w
  = Done (Where_opt query (slot_predicate fieldIndex fieldValues n)) w.
Proof using fieldIndex_int fieldValues_len.
  intros Hn. unfold deleteFilteredPolicy_body, Where_opt.
  rewrite guard_spec by exact Hn. unfold slot_predicate.
  destruct (decide (n < fieldIndex \/ n >= fieldIndex + len fieldValues))
    as [Hg|Hg].
  - rewrite (bool_decide_eq_true_2 _ Hg). simpl. rewrite app_nil_r.
    by destruct query.
  - rewrite (bool_decide_eq_false_2 _ Hg).
    destruct (index_in_guard n w Hn Hg) as (value & Hv & Hrun).
    unfold mbind, M_bind. cbn [run]. rewrite Hrun, Hv.
    by destruct (decide (value = "")).
Qed.

(** One iteration of the loop of [UpdateFilteredPoliciesCtx]. *)
Lemma UpdateFilteredPoliciesCtx_step (n : Z) (queries : Query * Query)
    (w : World) :
  0 <= n <= 5 ->
  run (UpdateFilteredPoliciesCtx_body fieldIndex fieldValues n queries) w
  = Done (Where_opt queries.1 (slot_predicate fieldIndex fieldValues n),
          Where_opt queries.2 (slot_predicate fieldIndex fieldValues n)) w.
Proof using fieldIndex_int fieldValues_len.
  intros Hn. destruct queries as [selectQuery deleteQuery].
  unfold UpdateFilteredPoliciesCtx_body, Where_opt.
  rewrite guard_spec by exact Hn. unfold slot_predicate.
  destruct (decide (n < fieldIndex \/ n >= fieldIndex + len fieldValues))
    as [Hg|Hg].
  - rewrite (bool_decide_eq_true_2 _ Hg). simpl. rewrite !app_nil_r.
    by destruct selectQuery, deleteQuery.
  - rewrite (bool_decide_eq_false_2 _ Hg).
    destruct (index_in_guard n w Hn Hg) as (value & Hv & Hrun).
    unfold mbind, M_bind. cbn [run]. rewrite Hrun, Hv.
    destruct (decide (value = "")), (decide (value <> "")); done.
Qed.

(** A loop whose body always returns is a fold. *)
Lemma for_n_fold {S} (ns : list Z) (body : Z -> S -> M S) (g : Z -> S -> S)
    (P : Z -> Prop) (s : S) (w : World) :
  Forall P ns ->
  (forall n s w, P n -> run (body n s) w = Done (g n s) w) ->
  run (for_n ns body s) w = Done (foldl (fun s n => g n s) s ns) w.
Proof.
  intros Hns Hbody. revert s.
  induction Hns as [|n ns Hn _ IH]; intros s; [done|].
  simpl. unfold mbind, M_bind. cbn [run]. rewrite Hbody by exact Hn. apply IH.
Qed.

Lemma Where_opt_fold (f : Z -> option cond) (ns : list Z) (query : Query) :
  foldl (fun q n => Where_opt q (f n)) query ns
  = mkQuery (q_on query) (q_verb query) (q_where query ++ omap f ns).
Proof.
  revert query. induction ns as [|n ns IH]; intros query; simpl.
  - rewrite app_nil_r. by destruct query.
  - rewrite IH. unfold Where_opt. simpl. rewrite <- app_assoc.
    by destruct (f n).
Qed.

Lemma slot_positions : Forall (fun n => 0 <= n <= 5) [0; 1; 2; 3; 4; 5].
Proof. repeat constructor; lia. Qed.

(** The loop of [deleteFilteredPolicy] returns the query extended by the
    slot predicates. *)
Lemma deleteFilteredPolicy_where_spec (query : Query) (w : World) :
  run (deleteFilteredPolicy_where query fieldIndex fieldValues) w
  = Done (mkQuery (q_on query) (q_verb query)
            (q_where query
             ++ omap (slot_predicate fieldIndex fieldValues) [0; 1; 2; 3; 4; 5])) w.
Proof using fieldIndex_int fieldValues_len.
  unfold deleteFilteredPolicy_where.
  rewrite (for_n_fold _ _
             (fun n q => Where_opt q (slot_predicate fieldIndex fieldValues n))
             (fun n => 0 <= n <= 5) _ _ slot_positions).
  - by rewrite Where_opt_fold.
  - intros n s w' Hn. by apply deleteFilteredPolicy_step.
Qed.

(** The loop of [UpdateFilteredPoliciesCtx] returns both queries extended
    by the slot predicates. *)
Lemma UpdateFilteredPoliciesCtx_where_spec (selectQuery deleteQuery : Query)
    (w : World) :
  run (UpdateFilteredPoliciesCtx_where (selectQuery, deleteQuery)
         fieldIndex fieldValues) w
  = Done (mkQuery (q_on selectQuery) (q_verb selectQuery)
            (q_where selectQuery
             ++ omap (slot_predicate fieldIndex fieldValues) [0; 1; 2; 3; 4; 5]),
          mkQuery (q_on deleteQuery) (q_verb deleteQuery)
            (q_where deleteQuery
             ++ omap (slot_predicate fieldIndex fieldValues) [0; 1; 2; 3; 4; 5])) w.
Proof using fieldIndex_int fieldValues_len.
  unfold UpdateFilteredPoliciesCtx_where.
  rewrite (for_n_fold _ _
             (fun n (qs : Query * Query) =>
                (Where_opt qs.1 (slot_predicate fieldIndex fieldValues n),
                 Where_opt qs.2 (slot_predicate fieldIndex fieldValues n)))
             (fun n => 0 <= n <= 5) _ _ slot_positions).
  - f_equal.
    generalize [0; 1; 2; 3; 4; 5]. intros ns.
    revert selectQuery deleteQuery.
    induction ns as [|n ns IH]; intros selectQuery deleteQuery.
    + simpl. rewrite !app_nil_r. by destruct selectQuery, deleteQuery.
    + simpl. rewrite IH. unfold Where_opt. simpl. rewrite <- !app_assoc.
      by destruct (slot_predicate fieldIndex fieldValues n).
  - intros n s w' Hn. by apply UpdateFilteredPoliciesCtx_step.
Qed.

Lemma column_Sprintf_v (n : Z) (r : CasbinPolicy) :
  0 <= n <= 5 -> column (Sprintf_v n) r = slots r !! Z.to_nat n.
Proof.
  intros Hn.
  slot_cases n; reflexivity.
Qed.

Lemma Sprintf_v_column_name (n : Z) :
  0 <= n <= 5 -> Sprintf_v n ∈ ["v0"; "v1"; "v2"; "v3"; "v4"; "v5"].
Proof.
  intros Hn.
  slot_cases n; vm_compute; elem_of_literal.
Qed.

Lemma matches_omap (f : Z -> option cond) (ns : list Z) (r : CasbinPolicy) :
  matches (omap f ns) r = true
  <-> Forall (fun n => forall c, f n = Some c -> eval_cond c r = true) ns.
Proof.
  unfold matches. induction ns as [|n ns IH]; simpl.
  - split; [constructor | done].
  - rewrite Forall_cons. destruct (f n) as [c|]; simpl.
    + rewrite andb_true_iff, IH. split.
      * intros [Hc Hns]. split; [|done]. intros c' [= <-]. done.
      * intros [Hc Hns]. split; [by apply Hc | done].
    + rewrite IH. split; [intros H; split; [done | exact H] | by intros [_ H]].
Qed.

(** What a slot predicate asks of a row. *)
Lemma slot_predicate_eval (n : Z) (c : cond) (r : CasbinPolicy) :
  0 <= n <= 5 ->
  slot_predicate fieldIndex fieldValues n = Some c ->
  eval_cond c r = true
  <-> (forall value, fieldValues !! Z.to_nat (n - fieldIndex) = Some value ->
                     value <> "" -> slots r !! Z.to_nat n = Some value).
Proof.
  intros Hn. unfold slot_predicate.
  destruct (decide (n < fieldIndex \/ n >= fieldIndex + len fieldValues));
    [done|].
  destruct (fieldValues !! Z.to_nat (n - fieldIndex)) as [value|]; [|done].
  destruct (decide (value = "")) as [->|Hne]; intros [= <-]; simpl.
  - rewrite bool_decide_eq_true, column_Sprintf_v by exact Hn. split.
    + intros _ value [= <-]. done.
    + intros _. apply lookup_lt_is_Some_2. simpl. lia.
  - rewrite bool_decide_eq_true, column_Sprintf_v by exact Hn. split.
    + intros Hr value' [= <-] _. exact Hr.
    + intros H. by apply H.
Qed.

(** The rows the specified predicate selects. *)
Lemma filter_predicate_matches (ptype : string) (r : CasbinPolicy) :
  matches (filter_predicate ptype fieldIndex fieldValues) r = true
  <-> PType r = ptype
      /\ (forall (n : Z) (value : string),
             0 <= n <= 5 -> fieldIndex <= n ->
             fieldValues !! Z.to_nat (n - fieldIndex) = Some value ->
             value <> "" ->
             slots r !! Z.to_nat n = Some value).
Proof.
  unfold filter_predicate.
  change (matches (?c :: ?l) r) with (eval_cond c r && matches l r).
  rewrite andb_true_iff, matches_omap. simpl eval_cond.
  rewrite bool_decide_eq_true.
  change (column "ptype" r) with (Some (PType r)).
  split.
  - intros [[= Hp] Hall]. split; [exact Hp|].
    intros n value Hn Hge Hv Hne.
    rewrite Forall_forall in Hall.
    assert (Hin : n ∈ [0; 1; 2; 3; 4; 5]).
    { slot_cases n; elem_of_literal. }
    specialize (Hall n Hin).
    assert (Hlt : (Z.to_nat (n - fieldIndex) < length fieldValues)%nat)
      by (apply lookup_lt_is_Some_1; eauto).
    destruct (slot_predicate fieldIndex fieldValues n) as [c|] eqn:Hsp.
    + pose proof (proj1 (slot_predicate_eval n c r Hn Hsp) (Hall c eq_refl)) as H.
      by apply H.
    + unfold slot_predicate in Hsp.
      destruct (decide (n < fieldIndex \/ n >= fieldIndex + len fieldValues));
        [unfold len in *; lia|].
      rewrite Hv in Hsp. by destruct (decide (value = "")).
  - intros [Hp Hall]. split; [by rewrite Hp|].
    apply Forall_forall. intros n Hin c Hsp.
    assert (Hn : 0 <= n <= 5).
    { pose proof slot_positions as Hpos. rewrite Forall_forall in Hpos.
      by apply Hpos. }
    apply (slot_predicate_eval n c r Hn Hsp).
    intros value Hv Hne. apply (Hall n value Hn); [|done..].
    unfold slot_predicate in Hsp.
    destruct (decide (n < fieldIndex \/ n >= fieldIndex + len fieldValues));
      [done | lia].
Qed.

(** The specified predicate names the rule type and the six slot columns
    only. *)
Lemma filter_predicate_columns (ptype : string) :
  Forall (fun c => cond_column c ∈ ["ptype"; "v0"; "v1"; "v2"; "v3"; "v4"; "v5"])
         (filter_predicate ptype fieldIndex fieldValues).
Proof.
  unfold filter_predicate. constructor; [apply list_elem_of_here|].
  apply Forall_forall. intros c Hc.
  apply list_elem_of_omap in Hc as (n & Hin & Hsp).
  assert (Hn : 0 <= n <= 5).
  { pose proof slot_positions as Hpos. rewrite Forall_forall in Hpos.
    by apply Hpos. }
  apply list_elem_of_further.
  unfold slot_predicate in Hsp.
  destruct (decide (n < fieldIndex \/ n >= fieldIndex + len fieldValues));
    [done|].
  destruct (fieldValues !! Z.to_nat (n - fieldIndex)) as [value|]; [|done].
  destruct (decide (value = "")); injection Hsp as <-; simpl;
    by apply Sprintf_v_column_name.
Qed.




End PredicateFacts.


(** ** Reasoning about adapter code *)

Section Triples.

Context {A : Type}.

Lemma wp_ret (a : A) (Q : A -> World -> Prop) (E : World -> Prop) (w : World) :
  Q a w -> wp (mret a) Q E w.
Proof. done. Qed.

Lemma wp_bind {B} (m : M A) (k : A -> M B) (Q : B -> World -> Prop)
    (E : World -> Prop) (w : World) :
  wp m (fun a w' => wp (k a) Q E w') E w -> wp (m ≫= k) Q E w.
Proof.
  unfold wp, mbind, M_bind. cbn [run]. by destruct (run m w).
Qed.

Lemma wp_mono (m : M A) (Q Q' : A -> World -> Prop) (E E' : World -> Prop)
    (w : World) :
  wp m Q E w ->
  (forall a w', Q a w' -> Q' a w') ->
  (forall w', E w' -> E' w') ->
  wp m Q' E' w.
Proof. unfold wp. destruct (run m w); eauto. Qed.

End Triples.

(** What the driver calls can do to the committed state. *)
Section Primitives.

Lemma wp_take_fault (w : World) (Q : bool -> World -> Prop) (E : World -> Prop) :
  (forall b w', committed w' = committed w -> pending w' = pending w -> Q b w') ->
  wp take_fault Q E w.
Proof.
  intros H. unfold wp, take_fault. cbn [run].
  destruct (faults w); by apply H.
Qed.

(** A statement run on the transaction leaves the committed state alone. *)
Lemma wp_run_stmt_tx (stmt : Database -> result Database) (w : World)
    (Q : option error -> World -> Prop) (E : World -> Prop) :
  (forall err w', committed w' = committed w -> Q err w') ->
  wp (run_stmt OnTx stmt) Q E w.
Proof.
  intros H. unfold run_stmt. apply wp_bind, wp_take_fault.
  intros [] w' Hc Hp; [by apply wp_ret, H|].
  unfold wp. cbn [run].
  destruct (pending w') as [d|]; [|by apply H].
  destruct (stmt d); by apply H.
Qed.

(** A statement run on the database itself changes the committed state
    only when it succeeds. *)
Lemma wp_run_stmt_db (stmt : Database -> result Database) (w : World)
    (Q : option error -> World -> Prop) (E : World -> Prop) :
  (forall e w', committed w' = committed w -> Q (Some e) w') ->
  (forall d' w', stmt (committed w) = Ok d' -> committed w' = d' -> Q None w') ->
  wp (run_stmt OnDB stmt) Q E w.
Proof.
  intros Herr Hok. unfold run_stmt. apply wp_bind, wp_take_fault.
  intros [] w' Hc Hp; [by apply wp_ret, Herr|].
  unfold wp. cbn [run]. rewrite Hc.
  destruct (stmt (committed w)) as [d'|e] eqn:Hs; [by eapply Hok | by apply Herr].
Qed.

Lemma wp_run_query (h : handle) (stmt : Database -> result (list CasbinPolicy))
    (w : World) (Q : list CasbinPolicy * option error -> World -> Prop)
    (E : World -> Prop) :
  (forall res w', committed w' = committed w -> Q res w') ->
  wp (run_query h stmt) Q E w.
Proof.
  intros H. unfold run_query. apply wp_bind, wp_take_fault.
  intros [] w' Hc Hp; [by apply wp_ret, H|].
  unfold wp. cbn [run].
  destruct (match h with OnDB => Some (committed w') | OnTx => pending w' end)
    as [d|]; [|by apply H].
  destruct (stmt d); by apply H.
Qed.

Lemma wp_BeginTx (w : World) (Q : option error -> World -> Prop)
    (E : World -> Prop) :
  (forall err w', committed w' = committed w -> Q err w') ->
  wp BeginTx Q E w.
Proof.
  intros H. unfold BeginTx. apply wp_bind, wp_take_fault.
  intros [] w' Hc Hp; [by apply wp_ret, H|].
  unfold wp. cbn [run]. by apply H.
Qed.

Lemma wp_Rollback (w : World) (Q : option error -> World -> Prop)
    (E : World -> Prop) :
  (forall err w', committed w' = committed w -> Q err w') ->
  wp Rollback Q E w.
Proof.
  intros H. unfold Rollback. apply wp_bind, wp_take_fault.
  intros b w' Hc Hp. unfold wp. cbn [run].
  destruct (pending w'); by apply H.
Qed.

(** A commit that reports an error has not changed the committed state. *)
Lemma wp_Commit (w : World) (Q : option error -> World -> Prop)
    (E : World -> Prop) :
  (forall e w', committed w' = committed w -> Q (Some e) w') ->
  (forall w', Q None w') ->
  wp Commit Q E w.
Proof.
  intros Herr Hok. unfold Commit. apply wp_bind, wp_take_fault.
  intros b w' Hc Hp. unfold wp. cbn [run].
  destruct (pending w'); [|by apply Herr].
  destruct b; [by apply Herr | by apply Hok].
Qed.

Lemma wp_index {A} (l : list A) (i : Z) (w : World) (Q : A -> World -> Prop)
    (E : World -> Prop) :
  (forall x, 0 <= i -> l !! Z.to_nat i = Some x -> Q x w) ->
  (~ (0 <= i < len l) -> E w) ->
  wp (index l i) Q E w.
Proof.
  intros HQ HE. unfold wp, index. cbn [run].
  destruct (decide (0 <= i)) as [Hi|Hi].
  - rewrite (bool_decide_eq_true_2 _ Hi).
    destruct (l !! Z.to_nat i) as [x|] eqn:Hl; [by apply HQ|].
    apply HE. apply lookup_ge_None_1 in Hl. unfold len. lia.
  - rewrite (bool_decide_eq_false_2 _ Hi). apply HE. lia.
Qed.

(** A bulk insert on the database changes the committed state only when it
    succeeds, and it succeeds on rows only. *)
Lemma wp_ExecInsert_db (ps : list CasbinPolicy) (w : World)
    (Q : option error -> World -> Prop) (E : World -> Prop) :
  (forall e w', committed w' = committed w -> Q (Some e) w') ->
  (forall d' w', ps <> [] -> sql_insert ps (committed w) = Ok d' ->
                 committed w' = d' -> Q None w') ->
  wp (ExecInsert OnDB ps) Q E w.
Proof.
  intros Herr Hok. destruct ps as [|p ps]; [by apply wp_ret, Herr|].
  apply wp_run_stmt_db; [exact Herr|]. intros d' w' Hs Hc. by eapply Hok.
Qed.

Lemma wp_ExecInsert_tx (ps : list CasbinPolicy) (w : World)
    (Q : option error -> World -> Prop) (E : World -> Prop) :
  (forall err w', committed w' = committed w -> Q err w') ->
  wp (ExecInsert OnTx ps) Q E w.
Proof.
  intros H. destruct ps as [|p ps]; [by apply wp_ret, H|].
  by apply wp_run_stmt_tx.
Qed.

(** A statement on the database that meets no failure. *)
Lemma run_stmt_db_ok (stmt : Database -> result Database) (w : World)
    (d' : Database) :
  faults w = [] -> stmt (committed w) = Ok d' ->
  run (run_stmt OnDB stmt) w = Done None (mkWorld d' (pending w) []).
Proof.
  intros Hf Hs. destruct w as [d p fs]. simpl in *. subst fs.
  unfold run_stmt, take_fault, mbind, M_bind. cbn. by rewrite Hs.
Qed.

End Primitives.

(** ** Transactions: all or nothing *)

Section Atomicity.

Lemma keeps_ret {A} (a : A) : keeps_committed (mret a).
Proof. intros w. by apply wp_ret. Qed.

Lemma keeps_bind {A B} (m : M A) (k : A -> M B) :
  keeps_committed m -> (forall a, keeps_committed (k a)) ->
  keeps_committed (m ≫= k).
Proof.
  intros Hm Hk w. apply wp_bind.
  eapply wp_mono; [apply Hm | | done].
  intros a w' Hc. simpl.
  eapply wp_mono; [apply Hk | |]; simpl; congruence.
Qed.

(** A computation that leaves the world alone before it goes on. *)
Lemma keeps_bind_pure {A B} (R : A -> Prop) (m : M A) (k : A -> M B) :
  pure_in R m -> (forall a, R a -> keeps_committed (k a)) ->
  keeps_committed (m ≫= k).
Proof.
  intros Hm Hk w. apply wp_bind.
  eapply wp_mono; [apply Hm | | by intros w' ->].
  intros a w' [-> HR]. by apply Hk.
Qed.

Lemma keeps_run_stmt_tx (stmt : Database -> result Database) :
  keeps_committed (run_stmt OnTx stmt).
Proof. intros w. by apply wp_run_stmt_tx. Qed.

Lemma keeps_run_query (h : handle) (stmt : Database -> result (list CasbinPolicy)) :
  keeps_committed (run_query h stmt).
Proof. intros w. by apply wp_run_query. Qed.

Lemma keeps_BeginTx : keeps_committed BeginTx.
Proof. intros w. by apply wp_BeginTx. Qed.

Lemma keeps_Rollback : keeps_committed Rollback.
Proof. intros w. by apply wp_Rollback. Qed.

Lemma keeps_index {A} (l : list A) (i : Z) : keeps_committed (index l i).
Proof. intros w. by apply wp_index. Qed.

Lemma Rollback_committed (w : World) :
  committed (world_of (run Rollback w)) = committed w.
Proof.
  pose proof (keeps_Rollback w) as H. unfold wp in H.
  by destruct (run Rollback w).
Qed.

Lemma keeps_range_err {A} (xs : list A) (body : A -> M (option error)) :
  (forall x, keeps_committed (body x)) -> keeps_committed (range_err xs body).
Proof.
  intros Hbody. induction xs as [|x xs IH]; simpl; [apply keeps_ret|].
  apply keeps_bind; [apply Hbody|].
  intros [e|]; [apply keeps_ret | apply IH].
Qed.

(** [RunInTx] makes a function that works on the transaction only all or
    nothing. *)
Lemma RunInTx_all_or_nothing (fn : M (option error)) :
  keeps_committed fn -> all_or_nothing (RunInTx fn).
Proof.
  intros Hfn w. unfold RunInTx. apply wp_bind, wp_BeginTx.
  intros [e|] w1 Hc1; [by apply wp_ret|].
  unfold wp. cbn [run].
  pose proof (Hfn w1) as H1. unfold wp in H1.
  destruct (run fn w1) as [[e|] w2|w2].
  - intros _. rewrite Rollback_committed. congruence.
  - change (wp Commit (fun err w' => err <> None -> committed w' = committed w)
                      (fun w' => committed w' = committed w) w2).
    apply wp_Commit; [|done]. intros e w' Hc _. congruence.
  - rewrite Rollback_committed. congruence.
Qed.

Lemma where_values_on (query : Query) (values : gmap string string) :
  q_on (where_values query values) = q_on query
  /\ q_verb (where_values query values) = q_verb query.
Proof.
  unfold where_values. generalize (map_to_list values). intros l.
  revert query. induction l as [|[key value] l IH]; intros query; [done|].
  simpl. destruct (IH (Where query (CondEq key value))) as [-> ->]. done.
Qed.

(** A delete or an update run on the transaction. *)
Lemma keeps_Exec_tx (query : Query) :
  q_on query = OnTx -> keeps_committed (Exec query).
Proof.
  intros Hon. unfold Exec. rewrite Hon.
  destruct (q_verb query); try apply keeps_run_stmt_tx.
  apply keeps_bind; [apply keeps_run_query|]. intros [rs err]. apply keeps_ret.
Qed.

Lemma keeps_deleteRecordInTx (existingPolicy : CasbinPolicy) :
  keeps_committed (deleteRecordInTx existingPolicy).
Proof.
  unfold deleteRecordInTx, delete. apply keeps_bind.
  - apply keeps_Exec_tx. by rewrite (proj1 (where_values_on _ _)).
  - intros [e|]; apply keeps_ret.
Qed.

Lemma keeps_updateRecordInTx (oldPolicy newPolicy : CasbinPolicy) :
  keeps_committed (updateRecordInTx oldPolicy newPolicy).
Proof.
  unfold updateRecordInTx, update. apply keeps_bind.
  - apply keeps_Exec_tx. by rewrite (proj1 (where_values_on _ _)).
  - intros [e|]; apply keeps_ret.
Qed.

(** The loop of [UpdateFilteredPoliciesCtx] does not touch the world and
    keeps both queries on the transaction, whatever the filter. *)
Lemma pure_for_n {S} (I : S -> Prop) (ns : list Z) (body : Z -> S -> M S) (s : S) :
  I s -> (forall n s, I s -> pure_in I (body n s)) ->
  pure_in I (for_n ns body s).
Proof.
  intros Hs Hbody. revert s Hs.
  induction ns as [|n ns IH]; intros s Hs w; simpl; [by apply wp_ret|].
  apply wp_bind. eapply wp_mono; [by apply Hbody | | done].
  intros s' w' [-> Hs']. by apply IH.
Qed.

Lemma pure_UpdateFilteredPoliciesCtx_where (queries : Query * Query)
    (fieldIndex : Z) (fieldValues : list string) :
  q_on queries.1 = OnTx -> q_on queries.2 = OnTx ->
  pure_in (fun qs : Query * Query => q_on qs.1 = OnTx /\ q_on qs.2 = OnTx)
          (UpdateFilteredPoliciesCtx_where queries fieldIndex fieldValues).
Proof.
  intros H1 H2. unfold UpdateFilteredPoliciesCtx_where.
  apply (pure_for_n (fun qs : Query * Query => q_on qs.1 = OnTx /\ q_on qs.2 = OnTx));
    [done|].
  intros n [selectQuery deleteQuery] [Hs Hd] w.
  unfold UpdateFilteredPoliciesCtx_body.
  destruct (bool_decide (fieldIndex > n)
            || bool_decide (n >= int_add fieldIndex (len fieldValues)));
    [by apply wp_ret|].
  apply wp_bind, wp_index; [|done].
  intros value _ _. by apply wp_ret.
Qed.

Lemma AddPoliciesCtx_all_or_nothing (ptype : string) (rules : list (list string)) :
  all_or_nothing (AddPoliciesCtx ptype rules).
Proof.
  intros w. unfold AddPoliciesCtx.
  apply wp_bind, wp_ExecInsert_db.
  - intros e w' Hc. by apply wp_ret.
  - intros d' w' _ _ _. by apply wp_ret.
Qed.

Lemma RemovePoliciesCtx_all_or_nothing (ptype : string) (rules : list (list string)) :
  all_or_nothing (RemovePoliciesCtx ptype rules).
Proof.
  apply RunInTx_all_or_nothing, keeps_range_err.
  intros rule. apply keeps_deleteRecordInTx.
Qed.

Lemma UpdatePoliciesCtx_all_or_nothing (ptype : string)
    (oldRules newRules : list (list string)) :
  all_or_nothing (UpdatePoliciesCtx ptype oldRules newRules).
Proof.
  apply RunInTx_all_or_nothing, keeps_range_err.
  intros i. apply keeps_bind; [apply keeps_index|]. intros oldPolicy.
  apply keeps_bind; [apply keeps_index|]. intros newPolicy.
  apply keeps_updateRecordInTx.
Qed.

Lemma fail_after_Rollback {A} (x : A) (e : error) (w0 w : World) :
  committed w = committed w0 ->
  wp (rerr ← Rollback;
      match rerr with
      | Some e' => mret (x, Some e')
      | None => mret (x, Some e)
      end)
     (fun res w' => res.2 <> None -> committed w' = committed w0)
     (fun w' => committed w' = committed w0) w.
Proof.
  intros Hc. apply wp_bind, wp_Rollback.
  intros [e'|] w' Hc'; apply wp_ret; intros _; congruence.
Qed.

Lemma UpdateFilteredPoliciesCtx_all_or_nothing (order : RowOrder) (ptype : string)
    (newRules : list (list string)) (fieldIndex : Z) (fieldValues : list string) :
  all_or_nothing2
    (UpdateFilteredPoliciesCtx order ptype newRules fieldIndex fieldValues).
Proof.
  intros w. unfold UpdateFilteredPoliciesCtx.
  apply wp_bind, wp_BeginTx. intros [e|] w1 Hc1; [by apply wp_ret|].
  apply wp_bind.
  eapply wp_mono;
    [by apply pure_UpdateFilteredPoliciesCtx_where | | by intros w' ->].
  intros [selectQuery deleteQuery] w' [-> [Hs Hd]]. simpl in Hs, Hd.
  apply wp_bind, wp_run_query. intros [oldPolicies [e|]] w2 Hc2.
  { apply fail_after_Rollback. congruence. }
  apply wp_bind.
  eapply wp_mono;
    [by apply keeps_Exec_tx | | intros w3 Hc3; simpl in Hc3; congruence].
  intros [e|] w3 Hc3; simpl in Hc3.
  { apply fail_after_Rollback. congruence. }
  apply wp_bind, wp_ExecInsert_tx. intros [e|] w4 Hc4.
  { apply fail_after_Rollback. congruence. }
  apply wp_bind, wp_Commit.
  - intros e w5 Hc5. apply wp_ret. intros _. congruence.
  - intros w5. by apply wp_ret.
Qed.

(** C5: batch add, batch remove, batch update and filtered replace are all
    or nothing.  Whatever the table, the open transaction and the failures
    the driver injects, when the operation returns an error or panics the
    committed table is the one before the call. *)
Theorem batch_operations_all_or_nothing (order : RowOrder) (ptype : string)
    (rules oldRules newRules : list (list string))
    (fieldIndex : Z) (fieldValues : list string) (w : World) :
  (failed (run (AddPoliciesCtx ptype rules) w) ->
   committed (world_of (run (AddPoliciesCtx ptype rules) w)) = committed w)
  /\ (failed (run (RemovePoliciesCtx ptype rules) w) ->
      committed (world_of (run (RemovePoliciesCtx ptype rules) w)) = committed w)
  /\ (failed (run (UpdatePoliciesCtx ptype oldRules newRules) w) ->
      committed (world_of (run (UpdatePoliciesCtx ptype oldRules newRules) w))
      = committed w)
  /\ (failed2 (run (UpdateFilteredPoliciesCtx order ptype newRules
                          fieldIndex fieldValues) w) ->
      committed (world_of (run (UpdateFilteredPoliciesCtx order ptype newRules
                                  fieldIndex fieldValues) w))
      = committed w).
Proof.
  repeat split.
  - pose proof (AddPoliciesCtx_all_or_nothing ptype rules w) as H.
    unfold wp in H. destruct (run (AddPoliciesCtx ptype rules) w) as [[e|] w'|w'];
      simpl; intros Hf; [by apply H | done | done].
  - pose proof (RemovePoliciesCtx_all_or_nothing ptype rules w) as H.
    unfold wp in H. destruct (run (RemovePoliciesCtx ptype rules) w) as [[e|] w'|w'];
      simpl; intros Hf; [by apply H | done | done].
  - pose proof (UpdatePoliciesCtx_all_or_nothing ptype oldRules newRules w) as H.
    unfold wp in H.
    destruct (run (UpdatePoliciesCtx ptype oldRules newRules) w) as [[e|] w'|w'];
      simpl; intros Hf; [by apply H | done | done].
  - pose proof (UpdateFilteredPoliciesCtx_all_or_nothing
                  order ptype newRules fieldIndex fieldValues w) as H.
    unfold wp in H.
    destruct (run (UpdateFilteredPoliciesCtx order ptype newRules
                     fieldIndex fieldValues) w)
      as [[out [e|]] w'|w']; simpl; intros Hf; [by apply H | done | done].
Qed.

(** A batch add whose second rule is already in the table: the statement
    fails on the unique index and no rule of the batch is added. *)
Lemma batch_operations_all_or_nothing_witness :
  run (AddPoliciesCtx "p" [["carol"; "data3"; "read"];
                           ["bob"; "data1"; "read"];
                           ["dave"; "data4"; "read"]]) three_rows
  = Done (Some (ErrUnique "unique_casbin_policy")) three_rows
  /\ committed (world_of
                  (run (AddPoliciesCtx "p" [["carol"; "data3"; "read"];
                                            ["bob"; "data1"; "read"];
                                            ["dave"; "data4"; "read"]]) three_rows))
     = committed three_rows.
Proof.
  split; [vm_compute; reflexivity|].
  apply (proj1 (batch_operations_all_or_nothing table_order "p"
                  [["carol"; "data3"; "read"]; ["bob"; "data1"; "read"];
                   ["dave"; "data4"; "read"]] [] [] 0 [] three_rows)).
  vm_compute. exact I.
Defined.

End Atomicity.

(** ** Batch update: the index into the new rules *)

Section BatchUpdate.

Lemma returns_ret {A} (a : A) : returns (mret a).
Proof. intros w. by apply wp_ret. Qed.

Lemma returns_bind {A B} (m : M A) (k : A -> M B) :
  returns m -> (forall a, returns (k a)) -> returns (m ≫= k).
Proof.
  intros Hm Hk w. apply wp_bind.
  eapply wp_mono; [apply Hm | | done]. intros a w' _. apply Hk.
Qed.

Lemma returns_index {A} (l : list A) (i : Z) :
  0 <= i < len l -> returns (index l i).
Proof. intros Hi w. by apply wp_index. Qed.

Lemma returns_Exec (query : Query) : returns (Exec query).
Proof.
  intros w. unfold Exec. destruct (q_verb query).
  - apply wp_bind, wp_run_query. intros [rs err] w' _. by apply wp_ret.
  - destruct (q_on query); [by apply wp_run_stmt_db | by apply wp_run_stmt_tx].
  - destruct (q_on query); [by apply wp_run_stmt_db | by apply wp_run_stmt_tx].
Qed.

Lemma returns_updateRecordInTx (oldPolicy newPolicy : CasbinPolicy) :
  returns (updateRecordInTx oldPolicy newPolicy).
Proof.
  unfold updateRecordInTx, update.
  apply returns_bind; [apply returns_Exec|]. intros [e|]; apply returns_ret.
Qed.

Lemma returns_range_err {A} (xs : list A) (body : A -> M (option error)) :
  Forall (fun x => returns (body x)) xs -> returns (range_err xs body).
Proof.
  induction 1 as [|x xs Hx _ IH]; simpl; [apply returns_ret|].
  apply returns_bind; [exact Hx|]. intros [e|]; [apply returns_ret | exact IH].
Qed.

Lemma returns_RunInTx (fn : M (option error)) :
  returns fn -> returns (RunInTx fn).
Proof.
  intros Hfn w. unfold RunInTx. apply wp_bind, wp_BeginTx.
  intros [e|] w1 _; [by apply wp_ret|].
  unfold wp. cbn [run].
  pose proof (Hfn w1) as H1. unfold wp in H1.
  destruct (run fn w1) as [[e|] w2|w2]; [done | | done].
  change (wp Commit (fun _ _ => True) (fun _ => False) w2).
  by apply wp_Commit.
Qed.

Lemma len_append_policies (ptype : string) (rules : list (list string)) :
  len (append_policies [] ptype rules) = len rules.
Proof. unfold len. by rewrite append_policies_fmap, length_app, length_fmap. Qed.

(** C10: [UpdatePoliciesCtx] reads [newPolicies[i]] for every index [i] of
    the old rules.  With at least as many new rules as old ones the
    operation returns, whatever the world; with fewer, there is an input
    on which the index expression is out of range and the operation
    panics instead of returning an error. *)
Theorem UpdatePoliciesCtx_index_newPolicies :
  (forall (ptype : string) (oldRules newRules : list (list string)) (w : World),
      (length oldRules <= length newRules)%nat ->
      exists err w', run (UpdatePoliciesCtx ptype oldRules newRules) w = Done err w')
  /\ (exists (ptype : string) (oldRules newRules : list (list string))
             (w w' : World),
        (length newRules < length oldRules)%nat
        /\ run (UpdatePoliciesCtx ptype oldRules newRules) w = Panicked w').
Proof.
  split.
  - intros ptype oldRules newRules w Hlen.
    assert (Hr : returns (UpdatePoliciesCtx ptype oldRules newRules)).
    { apply returns_RunInTx, returns_range_err.
      apply Forall_forall. intros i Hi.
      apply elem_of_seqZ in Hi. rewrite len_append_policies in Hi.
      apply returns_bind.
      { apply returns_index. rewrite len_append_policies. lia. }
      intros oldPolicy. apply returns_bind.
      { apply returns_index. rewrite len_append_policies. unfold len in *. lia. }
      intros newPolicy. apply returns_updateRecordInTx. }
    specialize (Hr w). unfold wp in Hr.
    destruct (run (UpdatePoliciesCtx ptype oldRules newRules) w) as [err w'|w'];
      [eauto | done].
  - exists "p", [["alice"; "data1"; "read"]], [], three_rows, three_rows.
    split; [simpl; lia | vm_compute; reflexivity].
Qed.

Lemma UpdatePoliciesCtx_index_newPolicies_witness :
  exists err w',
    run (UpdatePoliciesCtx "p" [["alice"; "data1"; "read"]]
                           [["alice"; "data1"; "write"]]) three_rows
    = Done err w'.
Proof.
  apply (proj1 UpdatePoliciesCtx_index_newPolicies
               "p" [["alice"; "data1"; "read"]] [["alice"; "data1"; "write"]]
               three_rows).
  simpl. lia.
Defined.

End BatchUpdate.

(** ** Table bootstrap *)

Section Bootstrap.

(** The branch [return errors.Join(err, tx.Rollback())]. *)
Ltac rollback_branch :=
  apply wp_bind, wp_Rollback; intros ? ? ?; apply wp_ret; intros _; congruence.

(** Whatever fails, [createTable] leaves the committed schema as it was. *)
Lemma createTable_all_or_nothing : all_or_nothing createTable.
Proof.
  intros w. unfold createTable.
  apply wp_bind, wp_BeginTx. intros [e|] w1 Hc1; [by apply wp_ret|].
  apply wp_bind, wp_run_stmt_tx. intros [e|] w2 Hc2.
  { rollback_branch. }
  apply wp_bind, wp_run_stmt_tx. intros [e|] w3 Hc3.
  { rollback_branch. }
  apply wp_bind, wp_run_stmt_tx. intros [e|] w4 Hc4.
  { rollback_branch. }
  apply wp_Commit; [|done]. intros e w5 Hc5 _. congruence.
Qed.

(** Once the unique index exists, [createTable] cannot succeed: its
    [CREATE UNIQUE INDEX] carries no [IF NOT EXISTS]. *)
Lemma createTable_existing_index_fails (w : World) (t : Table) :
  casbin_policies (committed w) = Some t ->
  "unique_casbin_policy" ∈ ix_name <$> indexes t ->
  exists e w', run createTable w = Done (Some e) w'
               /\ committed w' = committed w.
Proof.
  intros Ht Hix.
  assert (Hidx : forall d, casbin_policies d = Some t ->
                 sql_create_index unique_casbin_policy d
                 = Err (ErrExists "unique_casbin_policy")).
  { intros d Hd. unfold sql_create_index. rewrite Hd.
    by rewrite decide_True. }
  assert (Htab : sql_create_table true (committed w) = Ok (committed w)).
  { unfold sql_create_table. by rewrite Ht. }
  destruct w as [d p fs]. simpl in Ht, Htab.
  unfold createTable, BeginTx, run_stmt, Rollback, take_fault, mbind, M_bind, mret, M_ret.
  destruct fs as [|[] [|[] [|[] [|[] fs]]]]; cbn [run faults pending committed];
    rewrite ?Htab; cbn [run faults pending committed errors_Join];
    rewrite ?(Hidx d Ht); cbn [run faults pending committed errors_Join];
    eauto.
Qed.

(** C8 fails on the code: run on a database it has already set up,
    [createTable] returns the error of [CREATE UNIQUE INDEX], and so does
    [NewAdapter] unless the bootstrap is disabled.  The first run, on an
    empty database, creates the table and both indexes. *)
Theorem createTable_second_run_fails :
  run createTable (mkWorld (mkDatabase None) None []) = Done None (world_of_rows [] 1)
  /\ run createTable (world_of_rows [] 1)
     = Done (Some (ErrJoin1 (ErrExists "unique_casbin_policy"))) (world_of_rows [] 1)
  /\ run (NewAdapter []) (world_of_rows [] 1)
     = Done (None, Some (ErrJoin1 (ErrExists "unique_casbin_policy")))
            (world_of_rows [] 1)
  /\ run (NewAdapter [DisableAutoCreateTable]) (world_of_rows [] 1)
     = Done (Some (mkAdapter true), None) (world_of_rows [] 1).
Proof. repeat split; vm_compute; reflexivity. Qed.

End Bootstrap.

(** ** Saving the whole model *)

Section Save.

Lemma section_policies_spec (order : RangeOrder) (policies : list CasbinPolicy)
    (model : gmap string (gmap string Assertion)) (sec : string) :
  section_policies order policies model sec
  = policies ++ (encode <$> section_rules order model sec).
Proof.
  unfold section_policies, section_rules.
  generalize (range_of order sec
                (default (∅ : gmap string Assertion) (model !! sec))).
  intros l. revert policies.
  induction l as [|[ptype ast] l IH]; intros policies; simpl.
  - by rewrite app_nil_r.
  - rewrite IH, append_policies_fmap, fmap_app, <- app_assoc.
    do 2 f_equal. rewrite <- list_fmap_compose. done.
Qed.

(** The records [SavePolicyCtx] hands to [savePolicyRecords]. *)
Lemma SavePolicyCtx_policies (order : RangeOrder)
    (model : gmap string (gmap string Assertion)) :
  section_policies order (section_policies order [] model "p") model "g"
  = encode <$> model_rules order model.
Proof. rewrite !section_policies_spec. simpl. by rewrite <- fmap_app. Qed.

(** Whatever the order of the visit, the rules visited are the same. *)
Lemma model_rules_Permutation (order order' : RangeOrder)
    (model : gmap string (gmap string Assertion)) :
  model_rules order model ≡ₚ model_rules order' model.
Proof.
  unfold model_rules, section_rules.
  apply Permutation_app; apply bind_Permutation;
    (etrans; [apply range_of_perm | symmetry; apply range_of_perm]).
Qed.

Lemma forget_assign_ids (next : Z) (ps : list CasbinPolicy) :
  Forall (fun p => ID p = 0) ps ->
  forget_id <$> assign_ids next ps = ps.
Proof.
  intros Hps. unfold assign_ids. revert next.
  induction Hps as [|p ps Hp _ IH]; intros next; [done|].
  rewrite imap_cons. simpl. rewrite decide_True by exact Hp. f_equal.
  - destruct p. simpl in *. by subst.
  - rewrite <- (IH (next + 1)) at 2. f_equal. apply imap_ext.
    intros k q _. simpl. destruct (decide (ID q = 0)); [|done].
    f_equal. lia.
Qed.

Lemma encode_ID (rules : list (string * list string)) :
  Forall (fun p => ID p = 0) (encode <$> rules).
Proof.
  apply Forall_fmap, Forall_forall. intros [ptype rule] _.
  apply newCasbinPolicy_ID.
Qed.

(** What the two statements of [savePolicyRecords] leave behind. *)
Lemma savePolicyRecords_spec (policies : list CasbinPolicy) (w : World) :
  wp (savePolicyRecords policies)
     (fun err w' =>
        match err with
        | None =>
            exists t, casbin_policies (committed w) = Some t
                      /\ casbin_policies (committed w')
                         = Some (mkTable (indexes t)
                                         (assign_ids (next_id t) policies)
                                         (next_id t + Z.of_nat (length policies)))
                      /\ policies <> []
        | Some _ =>
            committed w' = committed w
            \/ exists t, casbin_policies (committed w) = Some t
                         /\ casbin_policies (committed w')
                            = Some (mkTable (indexes t) [] (next_id t))
        end)
     (fun _ => False) w.
Proof.
  unfold savePolicyRecords, refreshTable.
  apply wp_bind, wp_bind, wp_run_stmt_db.
  - intros e w1 Hc1. apply wp_ret, wp_ret. by left.
  - intros d1 w1 Htr Hc1. apply wp_ret.
    unfold sql_truncate in Htr.
    destruct (casbin_policies (committed w)) as [t|] eqn:Ht; [|done].
    injection Htr as <-.
    apply wp_bind, wp_ExecInsert_db.
    + intros e w2 Hc2. apply wp_ret. right. exists t. by rewrite Hc2, Hc1.
    + intros d2 w2 Hne Hins Hc2. apply wp_ret. exists t. split; [done|].
      split; [|exact Hne].
      rewrite Hc2. rewrite Hc1 in Hins. unfold sql_insert in Hins. simpl in Hins.
      destruct (violated_index (indexes t) (assign_ids (next_id t) policies));
        [done|].
      by injection Hins as <-.
Qed.

Lemma index_key_forget_id (r : CasbinPolicy) :
  index_key unique_casbin_policy (forget_id r)
  = index_key unique_casbin_policy r.
Proof. reflexivity. Qed.

Lemma index_key_inj (r r' : CasbinPolicy) :
  index_key unique_casbin_policy r = index_key unique_casbin_policy r' ->
  forget_id r = forget_id r'.
Proof.
  destruct r, r'. unfold index_key, forget_id. cbn.
  intros [= -> -> -> -> -> -> ->]. reflexivity.
Qed.

(** Rows that differ beyond their identity pass the indexes that
    [createTable] makes. *)
Lemma violated_index_None (rs : list CasbinPolicy) :
  NoDup (forget_id <$> rs) ->
  violated_index [unique_casbin_policy; idx_casbin_ptype] rs = None.
Proof.
  intros Hnd. unfold violated_index.
  rewrite filter_cons, decide_False.
  - by rewrite filter_cons, decide_False by (by intros [? _]).
  - intros [_ Hdup]. apply Hdup.
    replace (index_key unique_casbin_policy <$> rs)
      with (index_key unique_casbin_policy <$> (forget_id <$> rs))
      by (rewrite <- list_fmap_compose; by apply list_fmap_ext).
    apply NoDup_fmap_2_strong; [|exact Hnd].
    intros x y Hx Hy Hxy.
    apply list_elem_of_fmap in Hx as (r & -> & _).
    apply list_elem_of_fmap in Hy as (r' & -> & _).
    rewrite !index_key_forget_id in Hxy. by apply index_key_inj.
Qed.

(** C4: when [SavePolicyCtx] returns without error the committed table
    holds, up to the storage-assigned identities, exactly the encodings of
    the rules of the model, whatever it held before: the rule types of
    the section p, then those of g, as the two range loops visit them, and
    the rules of a rule type in the order of its [Policy]; whatever that
    visit, they are the encodings of the same rules, and there is at least
    one.  When it returns an error, either nothing has changed or the
    truncation has already emptied the table.  It never panics; and on the
    table that [createTable] makes it returns without error when the
    driver does not fail and the model holds at least one rule and no two
    rules with the same encoding. *)
Theorem SavePolicyCtx_replaces_table (order : RangeOrder)
    (model : gmap string (gmap string Assertion)) (w : World) :
  (forall w', run (SavePolicyCtx order model) w = Done None w' ->
     exists t t',
       casbin_policies (committed w) = Some t
       /\ casbin_policies (committed w') = Some t'
       /\ forget_id <$> rows t' = encode <$> model_rules order model
       /\ forget_id <$> rows t' ≡ₚ encode <$> model_rules key_order model
       /\ model_rules order model <> []
       /\ indexes t' = indexes t)
  /\ (forall e w', run (SavePolicyCtx order model) w = Done (Some e) w' ->
        committed w' = committed w
        \/ exists t t',
             casbin_policies (committed w) = Some t
             /\ casbin_policies (committed w') = Some t'
             /\ rows t' = [] /\ indexes t' = indexes t)
  /\ (exists err w', run (SavePolicyCtx order model) w = Done err w')
  /\ (forall t : Table,
        faults w = [] ->
        casbin_policies (committed w) = Some t ->
        indexes t = [unique_casbin_policy; idx_casbin_ptype] ->
        model_rules order model <> [] ->
        NoDup (encode <$> model_rules order model) ->
        run (SavePolicyCtx order model) w
        = Done None
            (mkWorld
               (mkDatabase
                  (Some (mkTable (indexes t)
                           (assign_ids (next_id t)
                              (encode <$> model_rules order model))
                           (next_id t
                            + Z.of_nat (length (model_rules order model))))))
               (pending w) [])).
Proof.
  pose proof (SavePolicyCtx_policies order model) as Hps.
  pose proof (savePolicyRecords_spec
                (section_policies order (section_policies order [] model "p")
                                  model "g") w)
    as H.
  unfold wp in H. fold (SavePolicyCtx order model) in H.
  split; [|split; [|split]].
  - intros w' Hrun. rewrite Hrun in H. destruct H as (t & Ht & Ht' & Hne).
    rewrite Hps in Ht', Hne.
    assert (Hrows : forget_id <$> assign_ids (next_id t)
                                    (encode <$> model_rules order model)
                    = encode <$> model_rules order model)
      by apply forget_assign_ids, encode_ID.
    eexists t, _. split; [exact Ht|]. split; [exact Ht'|]. cbn [rows indexes].
    split; [exact Hrows|]. split; [|split; [|done]].
    + rewrite Hrows. apply fmap_Permutation, model_rules_Permutation.
    + intros Hnil. apply Hne. by rewrite Hnil.
  - intros e w' Hrun. rewrite Hrun in H.
    destruct H as [H|(t & Ht & Ht')]; [by left|].
    right. eexists t, _. eauto.
  - destruct (run (SavePolicyCtx order model) w) as [err w1|w1]; [eauto | done].
  - intros t Hf Ht Hix Hne Hnd.
    unfold SavePolicyCtx. rewrite Hps.
    unfold savePolicyRecords, refreshTable, mbind, M_bind.
    cbn [run].
    rewrite (run_stmt_db_ok sql_truncate w
               (mkDatabase (Some (mkTable (indexes t) [] (next_id t)))) Hf)
      by (unfold sql_truncate; by rewrite Ht).
    cbn [run mret M_ret].
    rewrite ExecInsert_rows
      by (intros Hnil; apply fmap_nil_inv in Hnil; by apply Hne).
    erewrite run_stmt_db_ok; [reflexivity | done |].
    unfold sql_insert. cbn. rewrite Hix, violated_index_None.
    + by rewrite length_fmap.
    + rewrite forget_assign_ids; [done | apply encode_ID].
Qed.

Lemma SavePolicyCtx_replaces_table_witness :
  exists t',
    casbin_policies
      (committed (world_of (run (SavePolicyCtx key_order small_model) three_rows)))
    = Some t'
    /\ forget_id <$> rows t'
       = [newCasbinPolicy "p" ["alice"; "data1"; "read"];
          newCasbinPolicy "p" ["bob"; "data2"; "write"];
          newCasbinPolicy "g" ["alice"; "admin"]].
Proof.
  destruct (proj1 (SavePolicyCtx_replaces_table key_order small_model three_rows)
                  (world_of (run (SavePolicyCtx key_order small_model) three_rows)))
    as (t & t' & _ & Ht' & Hrows & _).
  - vm_compute. reflexivity.
  - exists t'. split; [exact Ht'|]. rewrite Hrows. vm_compute. reflexivity.
Defined.

End Save.

(** ** Single remove: the partial key *)

Section Remove.

Local Abbreviation slot_key := (fun iv : nat * string => Sprintf_v (Z.of_nat iv.1)).

Lemma keyed_values_fst (l : list (nat * string)) (k : string) :
  k ∈ (keyed_values l).*1 -> k ∈ slot_key <$> l.
Proof.
  unfold keyed_values. intros Hk.
  apply list_elem_of_fmap in Hk as ([k' v] & -> & Hin).
  apply list_elem_of_omap in Hin as ([i v'] & Hin & Hg).
  destruct (decide (v' = "")); [done|]. injection Hg as <- <-.
  apply list_elem_of_fmap. by exists (i, v').
Qed.

Lemma keyed_values_snoc (l : list (nat * string)) (i : nat) (v : string) :
  keyed_values (l ++ [(i, v)])
  = keyed_values l
    ++ (if decide (v = "") then [] else [(Sprintf_v (Z.of_nat i), v)]).
Proof.
  unfold keyed_values. rewrite omap_app. simpl.
  by destruct (decide (v = "")).
Qed.

(** With distinct keys, the map the loop builds holds the keyed values. *)
Lemma filterValuesWithKey_fold (l : list (nat * string)) :
  NoDup (slot_key <$> l) ->
  foldl (fun (values : gmap string string) '(i, v) =>
           if decide (v <> "") then <[Sprintf_v (Z.of_nat i) := v]> values
           else values)
        (∅ : gmap string string) l
  = list_to_map (keyed_values l)
  /\ NoDup (keyed_values l).*1.
Proof.
  induction l as [|[i v] l IH] using rev_ind; intros Hnd.
  - split; [done | constructor].
  - rewrite fmap_app in Hnd. apply NoDup_app in Hnd as (Hl & Hfresh & _).
    destruct (IH Hl) as [IHm IHnd].
    rewrite foldl_snoc, keyed_values_snoc, IHm.
    assert (Hi : Sprintf_v (Z.of_nat i) ∉ (keyed_values l).*1).
    { intros Hin%keyed_values_fst. apply (Hfresh _ Hin). simpl.
      apply list_elem_of_here. }
    destruct (decide (v = "")) as [->|Hv].
    + rewrite decide_False by (intros H; by apply H).
      rewrite app_nil_r. done.
    + rewrite decide_True by done. split.
      * symmetry. by apply list_to_map_snoc.
      * rewrite fmap_app. apply NoDup_app. split; [done|]. split.
        -- intros k Hk Hk'. simpl in Hk'. apply list_elem_of_singleton in Hk'.
           by subst.
        -- simpl. apply NoDup_singleton.
Qed.

Lemma slot_keys_NoDup (c : CasbinPolicy) :
  NoDup (slot_key <$> imap (fun i v => (i, v)) (slots c)).
Proof.
  apply (bool_decide_unpack _). vm_compute. exact I.
Qed.

(** The entries of [filterValuesWithKey], up to the order of iteration. *)
Lemma filterValuesWithKey_entries (c : CasbinPolicy) :
  map_to_list (filterValuesWithKey c)
  ≡ₚ keyed_values (imap (fun i v => (i, v)) (slots c)).
Proof.
  destruct (filterValuesWithKey_fold _ (slot_keys_NoDup c)) as [Hm Hnd].
  unfold filterValuesWithKey. fold (slots c). rewrite Hm.
  by apply map_to_list_to_map.
Qed.

Lemma where_values_where (query : Query) (values : gmap string string) :
  q_where (where_values query values)
  = q_where query ++ ((fun kv => CondEq kv.1 kv.2) <$> map_to_list values).
Proof.
  unfold where_values. generalize (map_to_list values). intros l.
  revert query. induction l as [|[key value] l IH]; intros query; simpl.
  - by rewrite app_nil_r.
  - rewrite IH. simpl. by rewrite <- app_assoc.
Qed.

(** The WHERE clause of [deleteRecord]: the rule type first, then one
    equality per non-empty slot, in the order the map is iterated. *)
Lemma deleteRecord_where (h : handle) (c : CasbinPolicy) :
  exists rest,
    q_where (where_values (Where (NewDelete h) (CondEq "ptype" (PType c)))
                          (filterValuesWithKey c))
    = CondEq "ptype" (PType c) :: rest
    /\ CondEq "ptype" (PType c) :: rest ≡ₚ key_filter c.
Proof.
  eexists. split; [by rewrite where_values_where|].
  unfold key_filter. constructor.
  by rewrite filterValuesWithKey_entries.
Qed.

Lemma matches_Forall (conds : list cond) (r : CasbinPolicy) :
  matches conds r = true <-> Forall (fun c => eval_cond c r = true) conds.
Proof.
  unfold matches. induction conds as [|c conds IH]; simpl.
  - split; [constructor | done].
  - rewrite andb_true_iff, Forall_cons, IH. done.
Qed.

(** The order of the conjuncts does not matter. *)
Lemma matches_Permutation (conds conds' : list cond) (r : CasbinPolicy) :
  conds ≡ₚ conds' -> matches conds r = matches conds' r.
Proof.
  intros Hp. apply eq_true_iff_eq. rewrite !matches_Forall. by rewrite Hp.
Qed.

Lemma unknown_column_None (conds : list cond) :
  Forall (fun c => cond_column c ∈ ["ptype"; "v0"; "v1"; "v2"; "v3"; "v4"; "v5"])
         conds ->
  unknown_column conds = None.
Proof.
  intros H. unfold unknown_column.
  induction H as [|c conds Hc _ IH]; [done|].
  rewrite filter_cons. rewrite decide_False; [exact IH|].
  intros Hn. apply Hn.
  repeat (apply elem_of_cons in Hc as [->|Hc]; [by eexists|]).
  by apply elem_of_nil in Hc.
Qed.

Lemma key_filter_columns (c : CasbinPolicy) :
  Forall (fun c => cond_column c ∈ ["ptype"; "v0"; "v1"; "v2"; "v3"; "v4"; "v5"])
         (key_filter c).
Proof.
  unfold key_filter. constructor; [apply list_elem_of_here|].
  apply Forall_forall. intros x Hx.
  apply list_elem_of_fmap in Hx as ([k v] & -> & Hkv). simpl.
  apply list_elem_of_further.
  assert (Hk : k ∈ (keyed_values (imap (fun i v => (i, v)) (slots c))).*1).
  { apply list_elem_of_fmap. by exists (k, v). }
  apply keyed_values_fst in Hk.
  revert Hk. generalize k. apply Forall_forall.
  apply (bool_decide_unpack _). vm_compute. exact I.
Qed.

(** A row satisfies the key filter exactly when it shares the partial
    key. *)
Lemma key_filter_matches (p r : CasbinPolicy) :
  matches (key_filter p) r = true <-> shares_partial_key p r.
Proof.
  unfold key_filter, shares_partial_key.
  change (matches (?c :: ?l) r) with (eval_cond c r && matches l r).
  rewrite andb_true_iff, matches_Forall. simpl eval_cond.
  rewrite bool_decide_eq_true.
  change (column "ptype" r) with (Some (PType r)).
  assert (Hslot : forall i a, slots p !! i = Some a -> a <> "" ->
            (CondEq (Sprintf_v (Z.of_nat i)) a
             ∈ (fun kv => CondEq kv.1 kv.2)
                 <$> keyed_values (imap (fun i v => (i, v)) (slots p)))).
  { intros i a Hi Ha. apply list_elem_of_fmap.
    exists (Sprintf_v (Z.of_nat i), a). split; [done|].
    apply list_elem_of_omap. exists (i, a). split.
    - by apply (elem_of_lookup_imap_2 (fun i v => (i, v))).
    - by rewrite decide_False. }
  split.
  - intros [[= Hp] Hall]. split; [exact Hp|].
    apply Forall2_same_length_lookup_2; [done|].
    intros i a b Ha Hb. destruct (decide (a = "")) as [|Hne]; [by left | right].
    rewrite Forall_forall in Hall.
    specialize (Hall _ (Hslot i a Ha Hne)). simpl in Hall.
    apply bool_decide_eq_true in Hall.
    apply lookup_lt_Some in Ha. simpl in Ha.
    rewrite column_Sprintf_v in Hall by lia.
    rewrite Nat2Z.id in Hall. congruence.
  - intros [Hp Hall]. split; [by rewrite Hp|].
    apply Forall_forall. intros c Hc.
    apply list_elem_of_fmap in Hc as ([k v] & -> & Hkv).
    apply list_elem_of_omap in Hkv as ([i a] & Hin & Hg).
    destruct (decide (a = "")) as [|Hne]; [done|]. injection Hg as <- <-.
    apply elem_of_lookup_imap in Hin as (i' & a' & [= <- <-] & Ha).
    simpl. apply bool_decide_eq_true.
    pose proof (lookup_lt_Some _ _ _ Ha) as Hlt. simpl in Hlt.
    rewrite column_Sprintf_v by lia. rewrite Nat2Z.id.
    destruct (Forall2_lookup_l _ _ _ _ _ Hall Ha) as (b & Hb & [Hab|Hab]);
      [done | congruence].
Qed.

(** What a single remove does when the driver does not fail. *)
Lemma RemovePolicyCtx_run (ptype : string) (rule : list string) (w : World)
    (t : Table) :
  faults w = [] ->
  casbin_policies (committed w) = Some t ->
  run (RemovePolicyCtx ptype rule) w
  = Done None
      (mkWorld
         (mkDatabase
            (Some (mkTable (indexes t)
                           (filter (fun r => ~ shares_partial_key
                                                 (newCasbinPolicy ptype rule) r)
                                   (rows t))
                           (next_id t))))
         (pending w) []).
Proof.
  intros Hf Ht. unfold RemovePolicyCtx, deleteRecord, delete.
  set (p := newCasbinPolicy ptype rule).
  destruct (deleteRecord_where OnDB p) as (rest & Hw & Hperm).
  set (q := where_values _ _) in *.
  assert (Hq : Exec q = run_stmt OnDB (sql_delete (q_where q))).
  { unfold Exec. subst q.
    by destruct (where_values_on (Where (NewDelete OnDB) (CondEq "ptype" (PType p)))
                                 (filterValuesWithKey p)) as [-> ->]. }
  rewrite Hq. unfold mbind, M_bind. cbn [run].
  erewrite run_stmt_db_ok; [reflexivity | exact Hf |].
  unfold sql_delete. rewrite Ht.
  rewrite unknown_column_None.
  2:{ rewrite Hw, Hperm. apply key_filter_columns. }
  do 4 f_equal. apply list_filter_iff. intros r.
  rewrite Hw, (matches_Permutation _ _ r Hperm).
  rewrite <- key_filter_matches. by destruct (matches (key_filter p) r).
Qed.

Lemma Sprintf_v_slot_inj (i j : nat) :
  (i < 6)%nat -> (j < 6)%nat ->
  Sprintf_v (Z.of_nat i) = Sprintf_v (Z.of_nat j) -> i = j.
Proof.
  intros Hi Hj.
  do 6 (destruct i as [|i]; [do 6 (destruct j as [|j]; [by vm_compute|]); lia|]).
  lia.
Qed.

(** An empty slot of the key contributes no conjunct. *)
Lemma key_filter_skips_empty (p : CasbinPolicy) (i : nat) (c : cond) :
  slots p !! i = Some "" -> c ∈ key_filter p ->
  cond_column c <> Sprintf_v (Z.of_nat i).
Proof.
  intros Hi Hc Heq. unfold key_filter in Hc.
  apply elem_of_cons in Hc as [->|Hc].
  { simpl in Heq. apply lookup_lt_Some in Hi. simpl in Hi.
    do 6 (destruct i as [|i]; [by vm_compute in Heq|]). lia. }
  apply list_elem_of_fmap in Hc as ([k v] & -> & Hkv).
  apply list_elem_of_omap in Hkv as ([j a] & Hin & Hg).
  destruct (decide (a = "")) as [|Hne]; [done|]. injection Hg as <- <-.
  apply elem_of_lookup_imap in Hin as (j' & a' & [= <- <-] & Ha).
  simpl in Heq.
  pose proof (lookup_lt_Some _ _ _ Ha) as Hj. simpl in Hj.
  pose proof (lookup_lt_Some _ _ _ Hi) as Hi'. simpl in Hi'.
  apply Sprintf_v_slot_inj in Heq; [|done..]. subst j. congruence.
Qed.

(** C6: the delete filter of a single remove is the equality on the rule
    type followed by one equality per non-empty slot of the encoded tuple,
    in the order the keyed map is iterated; an empty slot contributes no
    conjunct.  A row satisfies the filter exactly when it shares this
    partial key, and when the driver does not fail the remove deletes
    every such row: on the example table, removing the tuple (alice)
    deletes two rows. *)
Theorem RemovePolicyCtx_partial_key (ptype : string) (rule : list string) :
  (exists rest,
      q_where (where_values
                 (Where (NewDelete OnDB)
                        (CondEq "ptype" (PType (newCasbinPolicy ptype rule))))
                 (filterValuesWithKey (newCasbinPolicy ptype rule)))
      = CondEq "ptype" ptype :: rest
      /\ CondEq "ptype" ptype :: rest ≡ₚ key_filter (newCasbinPolicy ptype rule))
  /\ (forall (i : nat) (c : cond),
        slots (newCasbinPolicy ptype rule) !! i = Some "" ->
        c ∈ key_filter (newCasbinPolicy ptype rule) ->
        cond_column c <> Sprintf_v (Z.of_nat i))
  /\ (forall r : CasbinPolicy,
        matches (key_filter (newCasbinPolicy ptype rule)) r = true
        <-> shares_partial_key (newCasbinPolicy ptype rule) r)
  /\ (forall (w : World) (t : Table),
        faults w = [] ->
        casbin_policies (committed w) = Some t ->
        run (RemovePolicyCtx ptype rule) w
        = Done None
            (mkWorld
               (mkDatabase
                  (Some (mkTable (indexes t)
                           (filter (fun r => ~ shares_partial_key
                                                 (newCasbinPolicy ptype rule) r)
                                   (rows t))
                           (next_id t))))
               (pending w) []))
  /\ run (RemovePolicyCtx "p" ["alice"]) three_rows
     = Done None (world_of_rows [bob_data1_read] 4).
Proof.
  split; [|split; [|split; [|split]]].
  - destruct (deleteRecord_where OnDB (newCasbinPolicy ptype rule))
      as (rest & Hw & Hperm).
    rewrite newCasbinPolicy_PType in Hw, Hperm |- *. eauto.
  - intros i c. apply key_filter_skips_empty.
  - intros r. apply key_filter_matches.
  - intros w t. apply RemovePolicyCtx_run.
  - vm_compute. reflexivity.
Qed.

Lemma RemovePolicyCtx_partial_key_witness :
  run (RemovePolicyCtx "p" ["alice"; "data1"]) three_rows
  = Done None
      (mkWorld
         (mkDatabase
            (Some (mkTable [unique_casbin_policy; idx_casbin_ptype]
                     (filter (fun r => ~ shares_partial_key
                                           (newCasbinPolicy "p" ["alice"; "data1"]) r)
                             [alice_data1_read; bob_data1_read; alice_data2_write])
                     4)))
         None []).
Proof.
  apply (proj1 (proj2 (proj2 (proj2
           (RemovePolicyCtx_partial_key "p" ["alice"; "data1"]))))
           three_rows
           (table_of [alice_data1_read; bob_data1_read; alice_data2_write] 4));
    reflexivity.
Defined.

(** The key of the empty tuple is the rule type alone. *)
Lemma shares_partial_key_empty (ptype : string) (r : CasbinPolicy) :
  shares_partial_key (newCasbinPolicy ptype []) r <-> PType r = ptype.
Proof.
  unfold shares_partial_key. simpl. split; [by intros [H _]|].
  intros H. split; [exact H|]. destruct r. repeat constructor; by left.
Qed.

(** C9: for the empty tuple the keyed filter map is empty, the WHERE
    clause of the delete is the equality on the rule type alone, and, when
    the driver does not fail, the remove deletes every row of that rule
    type and no other. *)
Theorem RemovePolicyCtx_empty_rule (ptype : string) (w : World) (t : Table) :
  faults w = [] ->
  casbin_policies (committed w) = Some t ->
  filterValuesWithKey (newCasbinPolicy ptype []) = ∅
  /\ q_where (where_values (Where (NewDelete OnDB) (CondEq "ptype" ptype))
                           (filterValuesWithKey (newCasbinPolicy ptype [])))
     = [CondEq "ptype" ptype]
  /\ run (RemovePolicyCtx ptype []) w
     = Done None
         (mkWorld
            (mkDatabase
               (Some (mkTable (indexes t)
                              (filter (fun r => PType r <> ptype) (rows t))
                              (next_id t))))
            (pending w) []).
Proof.
  intros Hf Ht. split; [reflexivity|]. split; [reflexivity|].
  rewrite (RemovePolicyCtx_run ptype [] w t Hf Ht).
  rewrite (list_filter_iff _ (fun r => PType r <> ptype)); [done|].
  intros r. by rewrite shares_partial_key_empty.
Qed.

Lemma RemovePolicyCtx_empty_rule_witness :
  run (RemovePolicyCtx "p" []) mixed_rows = Done None (world_of_rows [alice_admin] 4).
Proof.
  apply (RemovePolicyCtx_empty_rule "p" mixed_rows
           (table_of [alice_data1_read; alice_admin; alice_data2_write] 4));
    reflexivity.
Defined.

End Remove.

(** ** Filtered remove, end to end *)

Section FilteredRemove.

(** When the driver does not fail, the filtered remove deletes the rows
    that satisfy the specified predicate and no other. *)
Lemma RemoveFilteredPolicyCtx_run (ptype : string) (fieldIndex : Z)
    (fieldValues : list string) (w : World) (t : Table) :
  int_min <= fieldIndex <= int_max ->
  len fieldValues <= int_max - 5 ->
  faults w = [] ->
  casbin_policies (committed w) = Some t ->
  run (RemoveFilteredPolicyCtx ptype fieldIndex fieldValues) w
  = Done None
      (mkWorld
         (mkDatabase
            (Some (mkTable (indexes t)
                     (filter (fun r => matches (filter_predicate ptype fieldIndex
                                                                 fieldValues) r
                                       = false)
                             (rows t))
                     (next_id t))))
         (pending w) []).
Proof.
  intros Hfi Hlen Hf Ht.
  unfold RemoveFilteredPolicyCtx, deleteFilteredPolicy, mbind, M_bind.
  cbn [run].
  rewrite (deleteFilteredPolicy_where_spec fieldIndex fieldValues Hfi Hlen).
  cbn [run Exec q_verb q_on q_where NewDelete Where app].
  fold (filter_predicate ptype fieldIndex fieldValues).
  erewrite run_stmt_db_ok; [reflexivity | exact Hf |].
  unfold sql_delete. rewrite Ht.
  by rewrite unknown_column_None by apply filter_predicate_columns.
Qed.

End FilteredRemove.

(** ** The tests of the repository, replayed

    They are run on an engine that answers in insertion order; the one
    model that is saved has one rule type. *)

Section RepositoryTests.

Example TestAddPolicies :
  stored (run (_ ← NewAdapter []; AddPoliciesCtx "p" test_policies) fresh)
  = [["p"; "alice"; "data1"; "write"]; ["p"; "bob"; "data1"; "read"];
     ["p"; "alice"; "data2"; "write"]].
Proof. vm_compute. reflexivity. Qed.

Example TestRemovePolicy :
  stored (run (_ ← NewAdapter [];
               _ ← AddPoliciesCtx "p" test_policies;
               RemovePolicyCtx "p" ["alice"; "data2"; "write"]) fresh)
  = [["p"; "alice"; "data1"; "write"]; ["p"; "bob"; "data1"; "read"]].
Proof. vm_compute. reflexivity. Qed.

Example TestRemovePolicies :
  stored (run (_ ← NewAdapter [];
               _ ← AddPoliciesCtx "p" test_policies;
               RemovePoliciesCtx "p" [["bob"; "data1"; "read"];
                                      ["alice"; "data2"; "write"]]) fresh)
  = [["p"; "alice"; "data1"; "write"]].
Proof. vm_compute. reflexivity. Qed.

Example TestRemoveFilteredPolicy :
  stored (run (_ ← NewAdapter [];
               _ ← AddPoliciesCtx "p" [["alice"; "data1"; "read"];
                                       ["bob"; "data1"; "read"];
                                       ["alice"; "data2"; "write"]];
               RemoveFilteredPolicyCtx "p" 0 ["alice"]) fresh)
  = [["p"; "bob"; "data1"; "read"]].
Proof. vm_compute. reflexivity. Qed.

Example TestUpdatePolicy :
  stored (run (_ ← NewAdapter [];
               _ ← AddPoliciesCtx "p" test_policies;
               UpdatePolicyCtx "p" ["alice"; "data1"; "write"]
                                   ["alice"; "data1"; "read"]) fresh)
  = [["p"; "alice"; "data1"; "read"]; ["p"; "bob"; "data1"; "read"];
     ["p"; "alice"; "data2"; "write"]].
Proof. vm_compute. reflexivity. Qed.

Example TestUpdatePolicies :
  stored (run (_ ← NewAdapter [];
               _ ← AddPoliciesCtx "p" test_policies;
               UpdatePoliciesCtx "p"
                 [["alice"; "data1"; "write"]; ["alice"; "data2"; "write"]]
                 [["alice"; "data1"; "read"]; ["alice"; "data2"; "read"]]) fresh)
  = [["p"; "alice"; "data1"; "read"]; ["p"; "bob"; "data1"; "read"];
     ["p"; "alice"; "data2"; "read"]].
Proof. vm_compute. reflexivity. Qed.

Example TestUpdateFilteredPolicies :
  stored (run (_ ← NewAdapter [];
               _ ← AddPoliciesCtx "p" [["alice"; "data1"; "read"];
                                       ["bob"; "data1"; "read"];
                                       ["alice"; "data2"; "write"]];
               UpdateFilteredPoliciesCtx table_order "p"
                 [["alice"; "data1"; "write"]; ["bob"; "data1"; "write"]]
                 1 ["data1"; "read"]) fresh)
  = [["p"; "alice"; "data2"; "write"]; ["p"; "alice"; "data1"; "write"];
     ["p"; "bob"; "data1"; "write"]].
Proof. vm_compute. reflexivity. Qed.

Example TestSavePolicy :
  stored (run (_ ← NewAdapter [];
               SavePolicyCtx key_order
                 {[ "p" := {[ "p" := mkAssertion [["alice"; "data"; "write"]] ]} ]})
              fresh)
  = [["p"; "alice"; "data"; "write"]].
Proof. vm_compute. reflexivity. Qed.

(** The filtered delete of the specification: field index 1, value data1. *)
Example filtered_delete_data1 :
  stored (run (_ ← NewAdapter [];
               _ ← AddPoliciesCtx "p" [["alice"; "data1"; "read"];
                                       ["bob"; "data1"; "write"];
                                       ["carol"; "data2"; "read"]];
               RemoveFilteredPolicyCtx "p" 1 ["data1"]) fresh)
  = [["p"; "carol"; "data2"; "read"]].
Proof. vm_compute. reflexivity. Qed.

(** The second insert of one tuple fails on the unique index. *)
Example second_insert_fails :
  run (_ ← NewAdapter [];
       _ ← AddPolicyCtx "p" ["alice"; "data1"; "read"];
       AddPolicyCtx "p" ["alice"; "data1"; "read"]) fresh
  = Done (Some (ErrUnique "unique_casbin_policy"))
         (world_of_rows [mkCasbinPolicy 1 "p" "alice" "data1" "read" "" "" ""] 2).
Proof. vm_compute. reflexivity. Qed.

End RepositoryTests.

(** ** More on the codec *)

Section CodecMore.

Lemma filter_replicate_empty (n : nat) :
  filter (fun x : string => x <> "") (replicate n "") = [].
Proof.
  rewrite <- nonEmptyFields_filter. apply nonEmptyFields_replicate_empty.
Qed.

Lemma filter_pad6 (T : list string) :
  filter (fun x : string => x <> "") (pad6 T)
  = filter (fun x : string => x <> "") (take 6 T).
Proof.
  unfold pad6. rewrite take_app, take_replicate, filter_app.
  by rewrite filter_replicate_empty, app_nil_r.
Qed.

Lemma filterValues_encoded (ptype : string) (T : list string) :
  filterValues (newCasbinPolicy ptype T)
  = filter (fun x => x <> "") (take 6 T).
Proof.
  rewrite filterValues_slots, newCasbinPolicy_slots, nonEmptyFields_filter.
  apply filter_pad6.
Qed.

(** X1: for every tuple, of any length and with or without empty
    strings, the filter values of its encoding are the non-empty strings
    among its first six elements, in order; there are at most six of
    them. *)
Theorem filterValues_newCasbinPolicy (ptype : string) (T : list string) :
  filterValues (newCasbinPolicy ptype T)
  = filter (fun x => x <> "") (take 6 T)
  /\ (length (filterValues (newCasbinPolicy ptype T)) <= 6)%nat.
Proof.
  split; [apply filterValues_encoded|].
  rewrite filterValues_encoded.
  pose proof (length_filter (fun x : string => x <> "") (take 6 T)) as H.
  rewrite length_take in H. lia.
Qed.

Lemma toSlice_cons (c : CasbinPolicy) :
  toSlice c = (if decide (PType c = "") then [] else [PType c]) ++ filterValues c.
Proof.
  unfold toSlice, filterValues. rewrite !nonEmptyFields_filter, filter_cons.
  destruct (decide (PType c <> "")) as [Hne|He].
  - by rewrite decide_False.
  - rewrite decide_True; [done|]. by destruct (decide (PType c = "")).
Qed.

(** X2: [toSlice] of an encoding is the rule type followed by the
    non-empty strings among the first six elements, and an empty rule
    type is dropped like any empty slot; so a tuple of at most six
    non-empty strings under a non-empty rule type comes back with its rule
    type in front. *)
Theorem toSlice_newCasbinPolicy (ptype : string) (T : list string) :
  toSlice (newCasbinPolicy ptype T)
  = (if decide (ptype = "") then [] else [ptype])
    ++ filter (fun x => x <> "") (take 6 T)
  /\ (ptype <> "" -> (length T <= 6)%nat -> Forall (fun x => x <> "") T ->
      toSlice (newCasbinPolicy ptype T) = ptype :: T).
Proof.
  assert (H : toSlice (newCasbinPolicy ptype T)
              = (if decide (ptype = "") then [] else [ptype])
                ++ filter (fun x => x <> "") (take 6 T)).
  { by rewrite toSlice_cons, newCasbinPolicy_PType, filterValues_encoded. }
  split; [exact H|].
  intros Hp Hlen Hne. rewrite H, decide_False by done.
  rewrite take_ge by done. simpl. f_equal.
  rewrite <- nonEmptyFields_filter. by apply nonEmptyFields_id.
Qed.

Lemma toSlice_newCasbinPolicy_witness :
  toSlice (newCasbinPolicy "g" ["alice"; "admin"]) = ["g"; "alice"; "admin"].
Proof.
  apply (proj2 (toSlice_newCasbinPolicy "g" ["alice"; "admin"])).
  - discriminate.
  - simpl; lia.
  - repeat constructor; discriminate.
Defined.

Lemma CasbinPolicy_ext (c c' : CasbinPolicy) :
  ID c = ID c' -> PType c = PType c' -> slots c = slots c' -> c = c'.
Proof.
  destruct c, c'. unfold slots. simpl. intros -> -> [= -> -> -> -> -> ->].
  reflexivity.
Qed.

Lemma no_gap_split (l : list string) :
  no_gap l = true ->
  l = filter (fun x => x <> "") l
      ++ replicate (length l - length (filter (fun x => x <> "") l)) "".
Proof.
  induction l as [|x l IH]; [done|]. simpl. rewrite filter_cons.
  destruct (decide (x = "")) as [->|Hx].
  - intros Hall. rewrite decide_False by (intros H; by apply H).
    assert (Hl : l = replicate (length l) "").
    { clear IH. induction l as [|y l IH]; [done|]. simpl in Hall.
      apply andb_true_iff in Hall as [Hy Hall].
      apply bool_decide_eq_true in Hy. subst y. simpl. f_equal. by apply IH. }
    assert (Hf : filter (fun x : string => x <> "") l = []).
    { rewrite Hl. apply filter_replicate_empty. }
    rewrite Hf. simpl. f_equal. exact Hl.
  - intros Hg. rewrite decide_True by done. simpl.
    f_equal. by apply IH.
Qed.

(** X3: a record without identity whose slots have no gap is the
    encoding of its own filter values: decoding then encoding gives the
    record back. *)
Theorem newCasbinPolicy_filterValues (c : CasbinPolicy) :
  ID c = 0 -> no_gap (slots c) = true ->
  newCasbinPolicy (PType c) (filterValues c) = c.
Proof.
  intros Hid Hgap. apply CasbinPolicy_ext.
  - by rewrite newCasbinPolicy_ID.
  - apply newCasbinPolicy_PType.
  - rewrite newCasbinPolicy_slots, filterValues_slots, nonEmptyFields_filter.
    pose proof (no_gap_split _ Hgap) as Hs.
    pose proof (length_filter (fun x : string => x <> "") (slots c)) as Hle.
    change (length (slots c)) with 6%nat in *.
    rewrite take_app_ge by lia. rewrite take_replicate.
    rewrite Hs at 3. f_equal. f_equal. lia.
Qed.

Lemma newCasbinPolicy_filterValues_witness :
  newCasbinPolicy "p" (filterValues (mkCasbinPolicy 0 "p" "alice" "data1" "" "" "" ""))
  = mkCasbinPolicy 0 "p" "alice" "data1" "" "" "" "".
Proof.
  apply (newCasbinPolicy_filterValues
           (mkCasbinPolicy 0 "p" "alice" "data1" "" "" "" "")); reflexivity.
Defined.

(** X4: two tuples have the same encoding under a rule type exactly when
    they agree once cut or padded to six slots: elements beyond the sixth
    and trailing empty strings do not tell tuples apart. *)
Theorem newCasbinPolicy_eq_iff (ptype : string) (T T' : list string) :
  newCasbinPolicy ptype T = newCasbinPolicy ptype T' <-> pad6 T = pad6 T'.
Proof.
  unfold pad6. rewrite <- !(newCasbinPolicy_slots ptype). split.
  - by intros ->.
  - intros Hs. apply CasbinPolicy_ext; [|by rewrite !newCasbinPolicy_PType|done].
    by rewrite !newCasbinPolicy_ID.
Qed.

(** X5: the keyed filter map holds, for each non-empty slot, its value
    under the name of its column, and nothing else; the column of an empty
    slot is a missing key. *)
Theorem filterValuesWithKey_lookup (c : CasbinPolicy) :
  (forall key v,
      filterValuesWithKey c !! key = Some v
      <-> exists i : nat, slots c !! i = Some v /\ v <> ""
                          /\ key = Sprintf_v (Z.of_nat i))
  /\ (forall i : nat, slots c !! i = Some "" ->
        filterValuesWithKey c !! Sprintf_v (Z.of_nat i) = None).
Proof.
  destruct (filterValuesWithKey_fold _ (slot_keys_NoDup c)) as [Hm Hnd].
  assert (Hmap : filterValuesWithKey c
                 = list_to_map (keyed_values (imap (fun i v => (i, v)) (slots c))))
    by exact Hm.
  assert (Hchar : forall key v,
             filterValuesWithKey c !! key = Some v
             <-> exists i : nat, slots c !! i = Some v /\ v <> ""
                                 /\ key = Sprintf_v (Z.of_nat i)).
  { intros key v. rewrite Hmap, <- elem_of_list_to_map by exact Hnd.
    unfold keyed_values. rewrite list_elem_of_omap. split.
    - intros ([i a] & Hin & Hg).
      destruct (decide (a = "")); [done|]. injection Hg as <- <-.
      apply elem_of_lookup_imap in Hin as (i' & a' & [= <- <-] & Ha). eauto.
    - intros (i & Hi & Hv & ->). exists (i, v). split.
      + by apply (elem_of_lookup_imap_2 (fun i v => (i, v))).
      + by rewrite decide_False. }
  split; [exact Hchar|].
  intros i Hi.
  destruct (filterValuesWithKey c !! Sprintf_v (Z.of_nat i)) as [v|] eqn:Hl;
    [|done].
  apply Hchar in Hl as (j & Hj & Hv & Heq).
  pose proof (lookup_lt_Some _ _ _ Hi) as Hi'.
  pose proof (lookup_lt_Some _ _ _ Hj) as Hj'. simpl in Hi', Hj'.
  apply Sprintf_v_slot_inj in Heq; [|done..]. subst j. congruence.
Qed.

Lemma filterValuesWithKey_lookup_witness :
  filterValuesWithKey (newCasbinPolicy "p" ["alice"; ""; "read"]) !! "v1" = None.
Proof.
  apply (proj2 (filterValuesWithKey_lookup
                  (newCasbinPolicy "p" ["alice"; ""; "read"])) 1%nat).
  reflexivity.
Defined.

End CodecMore.

(** ** Runs that meet no failure *)

Section NoFault.

Lemma run_take_fault_nil (w : World) :
  faults w = [] -> run take_fault w = Done false w.
Proof. intros Hf. unfold take_fault. cbn [run]. by rewrite Hf. Qed.

Lemma world_eta (w : World) :
  faults w = [] -> mkWorld (committed w) (pending w) [] = w.
Proof. destruct w. simpl. by intros ->. Qed.

Lemma run_stmt_db_err (stmt : Database -> result Database) (w : World)
    (e : error) :
  faults w = [] -> stmt (committed w) = Err e ->
  run (run_stmt OnDB stmt) w = Done (Some e) w.
Proof.
  intros Hf Hs. unfold run_stmt, mbind, M_bind. cbn [run].
  rewrite run_take_fault_nil by done. cbn [run]. by rewrite Hs.
Qed.

Lemma run_stmt_tx_ok (stmt : Database -> result Database) (w : World)
    (d d' : Database) :
  faults w = [] -> pending w = Some d -> stmt d = Ok d' ->
  run (run_stmt OnTx stmt) w = Done None (mkWorld (committed w) (Some d') []).
Proof.
  intros Hf Hp Hs. unfold run_stmt, mbind, M_bind. cbn [run].
  rewrite run_take_fault_nil by done. cbn [run]. by rewrite Hp, Hs, Hf.
Qed.

Lemma run_stmt_tx_err (stmt : Database -> result Database) (w : World)
    (d : Database) (e : error) :
  faults w = [] -> pending w = Some d -> stmt d = Err e ->
  run (run_stmt OnTx stmt) w = Done (Some e) w.
Proof.
  intros Hf Hp Hs. unfold run_stmt, mbind, M_bind. cbn [run].
  rewrite run_take_fault_nil by done. cbn [run]. by rewrite Hp, Hs.
Qed.

Lemma run_query_db_ok (stmt : Database -> result (list CasbinPolicy))
    (w : World) (rs : list CasbinPolicy) :
  faults w = [] -> stmt (committed w) = Ok rs ->
  run (run_query OnDB stmt) w = Done (rs, None) w.
Proof.
  intros Hf Hs. unfold run_query, mbind, M_bind. cbn [run].
  rewrite run_take_fault_nil by done. cbn [run]. by rewrite Hs.
Qed.

Lemma run_query_tx_ok (stmt : Database -> result (list CasbinPolicy))
    (w : World) (d : Database) (rs : list CasbinPolicy) :
  faults w = [] -> pending w = Some d -> stmt d = Ok rs ->
  run (run_query OnTx stmt) w = Done (rs, None) w.
Proof.
  intros Hf Hp Hs. unfold run_query, mbind, M_bind. cbn [run].
  rewrite run_take_fault_nil by done. cbn [run]. by rewrite Hp, Hs.
Qed.

Lemma run_BeginTx_ok (w : World) :
  faults w = [] ->
  run BeginTx w = Done None (mkWorld (committed w) (Some (committed w)) []).
Proof.
  intros Hf. unfold BeginTx, mbind, M_bind. cbn [run].
  rewrite run_take_fault_nil by done. cbn [run]. by rewrite Hf.
Qed.

Lemma run_Commit_ok (w : World) (d : Database) :
  faults w = [] -> pending w = Some d ->
  run Commit w = Done None (mkWorld d None []).
Proof.
  intros Hf Hp. unfold Commit, mbind, M_bind. cbn [run].
  rewrite run_take_fault_nil by done. cbn [run]. by rewrite Hp, Hf.
Qed.

Lemma run_Rollback_ok (w : World) (d : Database) :
  faults w = [] -> pending w = Some d ->
  run Rollback w = Done None (mkWorld (committed w) None []).
Proof.
  intros Hf Hp. unfold Rollback, mbind, M_bind. cbn [run].
  rewrite run_take_fault_nil by done. cbn [run]. by rewrite Hp, Hf.
Qed.

(** The unique index of [createTable] is violated exactly by two rows that
    differ in their identity at most. *)
Lemma NoDup_index_key (rs : list CasbinPolicy) :
  NoDup (index_key unique_casbin_policy <$> rs) <-> NoDup (forget_id <$> rs).
Proof.
  assert (Heq : index_key unique_casbin_policy <$> rs
                = index_key unique_casbin_policy <$> (forget_id <$> rs))
    by (rewrite <- list_fmap_compose; by apply list_fmap_ext).
  rewrite Heq. split; [apply NoDup_fmap_1|].
  intros Hnd. apply NoDup_fmap_2_strong; [|exact Hnd].
  intros x y Hx Hy Hxy.
  apply list_elem_of_fmap in Hx as (r & -> & _).
  apply list_elem_of_fmap in Hy as (r' & -> & _).
  rewrite !index_key_forget_id in Hxy. by apply index_key_inj.
Qed.

Lemma violated_index_unique (rest : list Index) (rs : list CasbinPolicy) :
  violated_index (unique_casbin_policy :: rest) rs
  = if decide (NoDup (forget_id <$> rs)) then violated_index rest rs
    else Some "unique_casbin_policy".
Proof.
  unfold violated_index. rewrite filter_cons.
  destruct (decide (NoDup (forget_id <$> rs))) as [Hnd|Hnd].
  - rewrite decide_False; [done|]. intros [_ H]. by apply H, NoDup_index_key.
  - rewrite decide_True; [done|]. split; [done|]. by rewrite NoDup_index_key.
Qed.

Lemma violated_index_ptype (rs : list CasbinPolicy) :
  violated_index [idx_casbin_ptype] rs = None.
Proof.
  unfold violated_index. by rewrite filter_cons, decide_False by (by intros [? _]).
Qed.

Lemma violated_index_bootstrap (rs : list CasbinPolicy) :
  violated_index [unique_casbin_policy; idx_casbin_ptype] rs
  = if decide (NoDup (forget_id <$> rs)) then None
    else Some "unique_casbin_policy".
Proof. by rewrite violated_index_unique, violated_index_ptype. Qed.

End NoFault.

(** ** Adding rules *)

Section Add.

Lemma forget_id_idemp (r : CasbinPolicy) : forget_id (forget_id r) = forget_id r.
Proof. reflexivity. Qed.

Lemma forget_id_newCasbinPolicy (ptype : string) (rule : list string) :
  forget_id (newCasbinPolicy ptype rule) = newCasbinPolicy ptype rule.
Proof.
  apply CasbinPolicy_ext; [by rewrite newCasbinPolicy_ID | done | done].
Qed.

Lemma forget_inserted (t : Table) (ps : list CasbinPolicy) :
  Forall (fun p => ID p = 0) ps ->
  forget_id <$> (rows t ++ assign_ids (next_id t) ps)
  = (forget_id <$> rows t) ++ ps.
Proof. intros Hps. by rewrite fmap_app, forget_assign_ids. Qed.

Lemma newCasbinPolicy_IDs (ptype : string) (rules : list (list string)) :
  Forall (fun p => ID p = 0) (newCasbinPolicy ptype <$> rules).
Proof.
  apply Forall_fmap, Forall_forall. intros rule _. apply newCasbinPolicy_ID.
Qed.

(** A bulk insert into the table that [createTable] makes. *)
Lemma sql_insert_bootstrap (ps : list CasbinPolicy) (d : Database) (t : Table) :
  casbin_policies d = Some t ->
  indexes t = [unique_casbin_policy; idx_casbin_ptype] ->
  Forall (fun p => ID p = 0) ps ->
  sql_insert ps d
  = if decide (NoDup ((forget_id <$> rows t) ++ ps))
    then Ok (mkDatabase
               (Some (mkTable (indexes t)
                        (rows t ++ assign_ids (next_id t) ps)
                        (next_id t + Z.of_nat (length ps)))))
    else Err (ErrUnique "unique_casbin_policy").
Proof.
  intros Ht Hix Hps. unfold sql_insert. rewrite Ht. cbv zeta.
  rewrite Hix at 1. rewrite violated_index_bootstrap, forget_inserted by done.
  by destruct (decide (NoDup _)).
Qed.

Lemma AddPoliciesCtx_run (ptype : string) (rules : list (list string))
    (w : World) (t : Table) :
  faults w = [] ->
  casbin_policies (committed w) = Some t ->
  indexes t = [unique_casbin_policy; idx_casbin_ptype] ->
  rules <> [] ->
  run (AddPoliciesCtx ptype rules) w
  = if decide (NoDup ((forget_id <$> rows t) ++ (newCasbinPolicy ptype <$> rules)))
    then Done None
           (mkWorld
              (mkDatabase
                 (Some (mkTable (indexes t)
                          (rows t ++ assign_ids (next_id t)
                                       (newCasbinPolicy ptype <$> rules))
                          (next_id t + Z.of_nat (length rules)))))
              (pending w) [])
    else Done (Some (ErrUnique "unique_casbin_policy")) w.
Proof.
  intros Hf Ht Hix Hne.
  unfold AddPoliciesCtx, mbind, M_bind. cbn [run].
  rewrite append_policies_fmap. simpl app.
  rewrite ExecInsert_rows by (by destruct rules).
  pose proof (sql_insert_bootstrap _ _ _ Ht Hix (newCasbinPolicy_IDs ptype rules))
    as Hins.
  destruct (decide (NoDup _)).
  - erewrite run_stmt_db_ok by done. cbn [run mret M_ret].
    by rewrite length_fmap.
  - by erewrite run_stmt_db_err by done.
Qed.

(** X6: on the table that [createTable] makes and with a driver that does
    not fail, a batch add of at least one rule succeeds exactly when the
    encodings of the rules differ from one another and from every stored
    row; it then appends them in order under fresh identities.  Otherwise
    it returns the violation of the unique index and stores nothing.  A
    single add behaves like a batch of one rule. *)
Theorem AddPoliciesCtx_unique (ptype : string) (rules : list (list string))
    (rule : list string) (w : World) (t : Table) :
  faults w = [] ->
  casbin_policies (committed w) = Some t ->
  indexes t = [unique_casbin_policy; idx_casbin_ptype] ->
  rules <> [] ->
  run (AddPoliciesCtx ptype rules) w
  = (if decide (NoDup ((forget_id <$> rows t) ++ (newCasbinPolicy ptype <$> rules)))
     then Done None
            (mkWorld
               (mkDatabase
                  (Some (mkTable (indexes t)
                           (rows t ++ assign_ids (next_id t)
                                        (newCasbinPolicy ptype <$> rules))
                           (next_id t + Z.of_nat (length rules)))))
               (pending w) [])
     else Done (Some (ErrUnique "unique_casbin_policy")) w)
  /\ run (AddPolicyCtx ptype rule) w = run (AddPoliciesCtx ptype [rule]) w.
Proof.
  intros Hf Ht Hix Hne. split; [by apply AddPoliciesCtx_run | reflexivity].
Qed.

Lemma AddPoliciesCtx_unique_witness :
  run (AddPoliciesCtx "p" [["carol"; "data3"; "read"]; ["carol"; "data3"; "read"; ""]])
      three_rows
  = Done (Some (ErrUnique "unique_casbin_policy")) three_rows.
Proof.
  pose proof (proj1 (AddPoliciesCtx_unique "p"
                [["carol"; "data3"; "read"]; ["carol"; "data3"; "read"; ""]] []
                three_rows
                (table_of [alice_data1_read; bob_data1_read; alice_data2_write] 4)
                eq_refl eq_refl eq_refl ltac:(discriminate))) as H.
  rewrite H. apply (decide_False (P := NoDup _)).
  intros Hnd. apply (bool_decide_pack _) in Hnd.
  vm_compute in Hnd. exact Hnd.
Defined.

Lemma shares_partial_key_forget (p r : CasbinPolicy) :
  shares_partial_key p (forget_id r) <-> shares_partial_key p r.
Proof. reflexivity. Qed.

Lemma shares_partial_key_refl (p : CasbinPolicy) : shares_partial_key p p.
Proof.
  split; [done|]. apply Forall2_same_length_lookup_2; [done|].
  intros i a b Ha Hb. right. congruence.
Qed.

Lemma shares_partial_key_same (p r : CasbinPolicy) :
  PType r = PType p -> slots r = slots p -> shares_partial_key p r.
Proof.
  intros Hp Hs. split; [done|]. rewrite Hs.
  apply Forall2_same_length_lookup_2; [done|].
  intros i a b Ha Hb. right. congruence.
Qed.

(** X7: adding a rule and then removing it gives back the stored rows,
    when the table is the one [createTable] makes, holds no two rows with
    the same tuple and no row that shares the partial key of the rule, and
    the driver does not fail; only the identity counter has moved. *)
Theorem AddPolicyCtx_RemovePolicyCtx (ptype : string) (rule : list string)
    (w : World) (t : Table) :
  faults w = [] ->
  casbin_policies (committed w) = Some t ->
  indexes t = [unique_casbin_policy; idx_casbin_ptype] ->
  NoDup (forget_id <$> rows t) ->
  Forall (fun r => ~ shares_partial_key (newCasbinPolicy ptype rule) r) (rows t) ->
  run (_ ← AddPolicyCtx ptype rule; RemovePolicyCtx ptype rule) w
  = Done None
      (mkWorld (mkDatabase (Some (mkTable (indexes t) (rows t) (next_id t + 1))))
               (pending w) []).
Proof.
  intros Hf Ht Hix Hnd Hfar.
  set (p := newCasbinPolicy ptype rule) in *.
  assert (Hfresh : p ∉ forget_id <$> rows t).
  { intros Hin. apply list_elem_of_fmap in Hin as (r & Hr & Hin).
    rewrite Forall_forall in Hfar. apply (Hfar r Hin).
    apply (proj1 (shares_partial_key_forget p r)). rewrite <- Hr.
    apply shares_partial_key_refl. }
  unfold mbind at 1, M_bind at 1. cbn [run].
  change (run (AddPolicyCtx ptype rule) w)
    with (run (AddPoliciesCtx ptype [rule]) w).
  rewrite (AddPoliciesCtx_run ptype [rule] w t Hf Ht Hix) by discriminate.
  rewrite decide_True.
  2:{ simpl. apply NoDup_app. split; [done|]. split.
      - intros x Hx Hx'. apply list_elem_of_singleton in Hx'. by subst.
      - apply NoDup_singleton. }
  erewrite RemovePolicyCtx_run; [|done|reflexivity]. simpl.
  do 4 f_equal.
  rewrite filter_app. fold p.
  assert (Hkeep : filter (fun r => ~ shares_partial_key p r) (rows t) = rows t).
  { clear -Hfar. induction Hfar as [|r rs Hr _ IH]; [done|].
    by rewrite filter_cons, decide_True, IH. }
  rewrite Hkeep.
  assert (Hrow : filter (fun r => ~ shares_partial_key p r)
                        (assign_ids (next_id t) [p]) = []).
  { unfold assign_ids. cbn [imap]. rewrite filter_cons, decide_False; [done|].
    intros Hn. apply Hn.
    destruct (decide (ID p = 0)); by apply shares_partial_key_same. }
  by rewrite Hrow, app_nil_r.
Qed.

Lemma AddPolicyCtx_RemovePolicyCtx_witness :
  run (_ ← AddPolicyCtx "p" ["carol"; "data3"; "read"];
       RemovePolicyCtx "p" ["carol"; "data3"; "read"]) three_rows
  = Done None
      (world_of_rows [alice_data1_read; bob_data1_read; alice_data2_write] 5).
Proof.
  apply (AddPolicyCtx_RemovePolicyCtx "p" ["carol"; "data3"; "read"] three_rows
           (table_of [alice_data1_read; bob_data1_read; alice_data2_write] 4));
    try reflexivity.
  - apply (bool_decide_unpack _). vm_compute. exact I.
  - apply (bool_decide_unpack _). vm_compute. exact I.
Defined.

End Add.

(** ** Batch remove and update by key *)

Section ByKey.

(** The WHERE clause that [delete] and [update] build from a record: the
    rule type first, then the key filter in some order. *)
Lemma where_values_key_filter (q0 : Query) (c : CasbinPolicy) :
  q_where q0 = [] ->
  q_where (where_values (Where q0 (CondEq "ptype" (PType c)))
                        (filterValuesWithKey c))
  ≡ₚ key_filter c.
Proof.
  intros Hq. rewrite where_values_where. unfold Where. cbn [q_where].
  rewrite Hq. simpl. unfold key_filter. constructor.
  by rewrite filterValuesWithKey_entries.
Qed.

Lemma matches_key_filter (conds : list cond) (p r : CasbinPolicy) :
  conds ≡ₚ key_filter p ->
  matches conds r = bool_decide (shares_partial_key p r).
Proof.
  intros Hp. rewrite (matches_Permutation _ _ r Hp).
  apply eq_true_iff_eq. by rewrite key_filter_matches, bool_decide_eq_true.
Qed.

Lemma unknown_column_key_filter (conds : list cond) (p : CasbinPolicy) :
  conds ≡ₚ key_filter p -> unknown_column conds = None.
Proof.
  intros Hp. apply unknown_column_None. rewrite Hp. apply key_filter_columns.
Qed.

Lemma sql_delete_key_filter (conds : list cond) (p : CasbinPolicy)
    (d : Database) (t : Table) :
  casbin_policies d = Some t -> conds ≡ₚ key_filter p ->
  sql_delete conds d
  = Ok (mkDatabase
          (Some (mkTable (indexes t)
                   (filter (fun r => ~ shares_partial_key p r) (rows t))
                   (next_id t)))).
Proof.
  intros Ht Hp. unfold sql_delete.
  rewrite Ht, (unknown_column_key_filter _ _ Hp).
  do 4 f_equal. apply list_filter_iff. intros r.
  rewrite (matches_key_filter _ _ r Hp).
  rewrite bool_decide_eq_false. done.
Qed.

Lemma sql_update_key_filter (model : CasbinPolicy) (conds : list cond)
    (p : CasbinPolicy) (d : Database) (t : Table) :
  casbin_policies d = Some t -> conds ≡ₚ key_filter p ->
  sql_update model conds d
  = match violated_index (indexes t)
            ((fun r => if decide (shares_partial_key p r)
                       then rewritten model r else r) <$> rows t) with
    | Some name => Err (ErrUnique name)
    | None =>
        Ok (mkDatabase
              (Some (mkTable (indexes t)
                       ((fun r => if decide (shares_partial_key p r)
                                  then rewritten model r else r) <$> rows t)
                       (next_id t))))
    end.
Proof.
  intros Ht Hp. unfold sql_update.
  rewrite Ht, (unknown_column_key_filter _ _ Hp). cbv zeta.
  assert (Hrs : (fun r => if matches conds r
                          then mkCasbinPolicy (ID r) (PType model)
                                 (V0 model) (V1 model) (V2 model)
                                 (V3 model) (V4 model) (V5 model)
                          else r) <$> rows t
                = (fun r => if decide (shares_partial_key p r)
                            then rewritten model r else r) <$> rows t).
  { apply list_fmap_ext. intros i r _.
    rewrite (matches_key_filter _ _ r Hp), bool_decide_decide.
    by destruct (decide (shares_partial_key p r)). }
  by rewrite Hrs.
Qed.

Lemma Exec_delete (q : Query) :
  q_verb q = Delete -> Exec q = run_stmt (q_on q) (sql_delete (q_where q)).
Proof. intros Hv. unfold Exec. by rewrite Hv. Qed.

Lemma Exec_update (q : Query) (model : CasbinPolicy) :
  q_verb q = Update model ->
  Exec q = run_stmt (q_on q) (sql_update model (q_where q)).
Proof. intros Hv. unfold Exec. by rewrite Hv. Qed.

(** One delete of the batch, run on the transaction. *)
Lemma deleteRecordInTx_run (p : CasbinPolicy) (w : World) (d : Database)
    (t : Table) :
  faults w = [] -> pending w = Some d -> casbin_policies d = Some t ->
  run (deleteRecordInTx p) w
  = Done None
      (mkWorld (committed w)
         (Some (mkDatabase
                  (Some (mkTable (indexes t)
                           (filter (fun r => ~ shares_partial_key p r) (rows t))
                           (next_id t)))))
         []).
Proof.
  intros Hf Hp Ht. unfold deleteRecordInTx, delete.
  set (q := where_values _ _).
  assert (Hq : Exec q = run_stmt OnTx (sql_delete (q_where q))).
  { destruct (where_values_on (Where (NewDelete OnTx) (CondEq "ptype" (PType p)))
                              (filterValuesWithKey p)) as [Hon Hv].
    rewrite Exec_delete by (subst q; by rewrite Hv).
    subst q. by rewrite Hon. }
  rewrite Hq. unfold mbind, M_bind. cbn [run].
  erewrite run_stmt_tx_ok; [reflexivity | done | done |].
  apply sql_delete_key_filter; [done|].
  subst q. by apply where_values_key_filter.
Qed.

Lemma range_deleteRecordInTx_run (ptype : string) (rules : list (list string))
    (w : World) (d : Database) (t : Table) :
  faults w = [] -> pending w = Some d -> casbin_policies d = Some t ->
  run (range_err rules (fun rule => deleteRecordInTx (newCasbinPolicy ptype rule))) w
  = Done None
      (mkWorld (committed w)
         (Some (mkDatabase
                  (Some (mkTable (indexes t)
                           (foldl (fun rs rule =>
                                     filter (fun r => ~ shares_partial_key
                                                          (newCasbinPolicy ptype rule) r)
                                            rs)
                                  (rows t) rules)
                           (next_id t)))))
         (faults w)).
Proof.
  revert w d t. induction rules as [|rule rules IH]; intros w d t Hf Hp Ht.
  - simpl. cbn [run mret M_ret]. destruct w, d, t. simpl in *. by subst.
  - cbn [range_err]. unfold mbind at 1, M_bind at 1. cbn [run].
    erewrite deleteRecordInTx_run by done. cbn [foldl].
    erewrite IH; [| reflexivity | reflexivity | reflexivity].
    cbn. by rewrite Hf.
Qed.

(** X8: when the driver does not fail, a batch remove commits the table
    that removing the rules one after the other gives: each rule deletes
    the rows that share its partial key among those the earlier rules have
    left.  The transaction that was open before the call is gone. *)
Theorem RemovePoliciesCtx_run (ptype : string) (rules : list (list string))
    (w : World) (t : Table) :
  faults w = [] ->
  casbin_policies (committed w) = Some t ->
  run (RemovePoliciesCtx ptype rules) w
  = Done None
      (mkWorld
         (mkDatabase
            (Some (mkTable (indexes t)
                     (foldl (fun rs rule =>
                               filter (fun r => ~ shares_partial_key
                                                    (newCasbinPolicy ptype rule) r)
                                      rs)
                            (rows t) rules)
                     (next_id t))))
         None []).
Proof.
  intros Hf Ht. unfold RemovePoliciesCtx, RunInTx, mbind, M_bind. cbn [run].
  rewrite run_BeginTx_ok by done. cbn [run].
  erewrite range_deleteRecordInTx_run; [|done|reflexivity|exact Ht].
  cbn [faults]. by erewrite run_Commit_ok.
Qed.

Lemma RemovePoliciesCtx_run_witness :
  run (RemovePoliciesCtx "p" [["bob"]; ["alice"; "data2"]]) three_rows
  = Done None (world_of_rows [alice_data1_read] 4).
Proof.
  rewrite (RemovePoliciesCtx_run "p" [["bob"]; ["alice"; "data2"]] three_rows
             (table_of [alice_data1_read; bob_data1_read; alice_data2_write] 4)
             eq_refl eq_refl).
  vm_compute. reflexivity.
Defined.

(** What [UpdatePolicyCtx] asks of the engine. *)
Lemma UpdatePolicyCtx_stmt (ptype : string) (oldRule newRule : list string) :
  exists conds,
    conds ≡ₚ key_filter (newCasbinPolicy ptype oldRule)
    /\ UpdatePolicyCtx ptype oldRule newRule
       = (err ← run_stmt OnDB (sql_update (newCasbinPolicy ptype newRule) conds);
          match err with
          | Some e => mret (Some e)
          | None => mret None
          end).
Proof.
  eexists. split; [|unfold UpdatePolicyCtx, updateRecord, update].
  2:{ rewrite (Exec_update _ (newCasbinPolicy ptype newRule)).
      - by rewrite (proj1 (where_values_on _ _)).
      - by rewrite (proj2 (where_values_on _ _)). }
  by apply where_values_key_filter.
Qed.

(** X9: a single update that returns without error has rewritten every
    row that shares the partial key of the old rule to the encoding of the
    new rule, and no other row; it adds and removes no row and keeps every
    identity. *)
Theorem UpdatePolicyCtx_rewrites (ptype : string) (oldRule newRule : list string)
    (w w' : World) :
  run (UpdatePolicyCtx ptype oldRule newRule) w = Done None w' ->
  exists t t',
    casbin_policies (committed w) = Some t
    /\ casbin_policies (committed w') = Some t'
    /\ rows t'
       = (fun r => if decide (shares_partial_key (newCasbinPolicy ptype oldRule) r)
                   then rewritten (newCasbinPolicy ptype newRule) r else r)
           <$> rows t
    /\ ID <$> rows t' = ID <$> rows t
    /\ indexes t' = indexes t /\ next_id t' = next_id t.
Proof.
  destruct (UpdatePolicyCtx_stmt ptype oldRule newRule) as (conds & Hp & ->).
  intros Hrun.
  assert (H : wp (err ← run_stmt OnDB
                         (sql_update (newCasbinPolicy ptype newRule) conds);
                  match err with
                  | Some e => mret (Some e)
                  | None => mret None
                  end)
                 (fun err w' =>
                    err = None ->
                    exists d', sql_update (newCasbinPolicy ptype newRule) conds
                                          (committed w) = Ok d'
                               /\ committed w' = d')
                 (fun _ => True) w).
  { apply wp_bind, wp_run_stmt_db.
    - intros e w1 _. by apply wp_ret.
    - intros d' w1 Hs Hc. apply wp_ret. eauto. }
  unfold wp in H. rewrite Hrun in H. destruct (H eq_refl) as (d' & Hs & Hc).
  destruct (casbin_policies (committed w)) as [t|] eqn:Ht;
    [|by unfold sql_update in Hs; rewrite Ht in Hs].
  rewrite (sql_update_key_filter _ _ _ _ _ Ht Hp) in Hs.
  destruct (violated_index _ _); [done|]. injection Hs as <-.
  eexists t, _. split; [done|]. split; [by rewrite Hc|]. split; [done|].
  split; [|done]. simpl. rewrite <- list_fmap_compose.
  apply list_fmap_ext. intros i r _. simpl.
  by destruct (decide (shares_partial_key _ r)).
Qed.

Lemma UpdatePolicyCtx_rewrites_witness :
  exists t',
    casbin_policies
      (committed (world_of (run (UpdatePolicyCtx "p" ["bob"] ["bob"; "data9"])
                                three_rows)))
    = Some t'
    /\ rows t' = [alice_data1_read;
                  mkCasbinPolicy 2 "p" "bob" "data9" "" "" "" "";
                  alice_data2_write].
Proof.
  destruct (UpdatePolicyCtx_rewrites "p" ["bob"] ["bob"; "data9"] three_rows
              (world_of (run (UpdatePolicyCtx "p" ["bob"] ["bob"; "data9"])
                             three_rows)))
    as (t & t' & Ht & Ht' & Hrows & _).
  - vm_compute. reflexivity.
  - exists t'. split; [exact Ht'|]. rewrite Hrows.
    injection Ht as <-. vm_compute. reflexivity.
Defined.

(** X10: on the table that [createTable] makes, a single update whose old
    rule shares its partial key with two stored rows cannot succeed: both
    rows would become the same tuple, so the engine reports the violation
    of the unique index and the table stays as it was. *)
Theorem UpdatePolicyCtx_two_matches (ptype : string) (oldRule newRule : list string)
    (w : World) (t : Table) (i j : nat) (r1 r2 : CasbinPolicy) :
  faults w = [] ->
  casbin_policies (committed w) = Some t ->
  indexes t = [unique_casbin_policy; idx_casbin_ptype] ->
  i <> j -> rows t !! i = Some r1 -> rows t !! j = Some r2 ->
  shares_partial_key (newCasbinPolicy ptype oldRule) r1 ->
  shares_partial_key (newCasbinPolicy ptype oldRule) r2 ->
  run (UpdatePolicyCtx ptype oldRule newRule) w
  = Done (Some (ErrUnique "unique_casbin_policy")) w.
Proof.
  intros Hf Ht Hix Hij Hi Hj H1 H2.
  destruct (UpdatePolicyCtx_stmt ptype oldRule newRule) as (conds & Hp & ->).
  unfold mbind, M_bind. cbn [run].
  erewrite run_stmt_db_err; [reflexivity | done |].
  rewrite (sql_update_key_filter _ _ _ _ _ Ht Hp), Hix.
  rewrite violated_index_bootstrap, decide_False; [done|].
  intros Hnd. apply Hij.
  apply (proj1 (NoDup_alt _) Hnd i j
               (forget_id (rewritten (newCasbinPolicy ptype newRule) r1))).
  - rewrite !list_lookup_fmap, Hi. simpl. by rewrite decide_True.
  - rewrite !list_lookup_fmap, Hj. simpl. by rewrite decide_True.
Qed.

Lemma UpdatePolicyCtx_two_matches_witness :
  run (UpdatePolicyCtx "p" ["alice"] ["carol"; "data1"; "read"]) three_rows
  = Done (Some (ErrUnique "unique_casbin_policy")) three_rows.
Proof.
  apply (UpdatePolicyCtx_two_matches "p" ["alice"] ["carol"; "data1"; "read"]
           three_rows
           (table_of [alice_data1_read; bob_data1_read; alice_data2_write] 4)
           0%nat 2%nat alice_data1_read alice_data2_write);
    try reflexivity.
  - discriminate.
  - apply (bool_decide_unpack _). vm_compute. exact I.
  - apply (bool_decide_unpack _). vm_compute. exact I.
Defined.

End ByKey.

(** ** Filtered operations, end to end *)

Section Filtered.

(** X11: when the driver does not fail, the filtered remove deletes
    exactly the rows that the filter predicate selects: a row goes when
    its rule type is [ptype] and every slot that faces a non-empty value
    holds that value; every other row, the indexes and the identity
    counter stay. *)
Theorem RemoveFilteredPolicyCtx_deletes (ptype : string) (fieldIndex : Z)
    (fieldValues : list string) (w : World) (t : Table) :
  int_min <= fieldIndex <= int_max ->
  len fieldValues <= int_max - 5 ->
  faults w = [] ->
  casbin_policies (committed w) = Some t ->
  exists t',
    run (RemoveFilteredPolicyCtx ptype fieldIndex fieldValues) w
    = Done None (mkWorld (mkDatabase (Some t')) (pending w) [])
    /\ indexes t' = indexes t /\ next_id t' = next_id t
    /\ (forall r : CasbinPolicy,
          r ∈ rows t'
          <-> r ∈ rows t
              /\ ~ (PType r = ptype
                    /\ forall (n : Z) (value : string),
                         0 <= n <= 5 -> fieldIndex <= n ->
                         fieldValues !! Z.to_nat (n - fieldIndex) = Some value ->
                         value <> "" ->
                         slots r !! Z.to_nat n = Some value))
    /\ rows t' `sublist_of` rows t.
Proof.
  intros Hfi Hlen Hf Ht. eexists.
  split; [by apply RemoveFilteredPolicyCtx_run|]. cbn [indexes next_id rows].
  split; [done|]. split; [done|]. split; [|apply sublist_filter].
  intros r. rewrite list_elem_of_filter.
  rewrite <- (filter_predicate_matches fieldIndex fieldValues ptype r).
  destruct (matches (filter_predicate ptype fieldIndex fieldValues) r).
  - split; intros [H1 H2]; [discriminate | exfalso; by apply H2].
  - split; intros [H1 H2]; (split; [done|]); [discriminate | done].
Qed.

Lemma RemoveFilteredPolicyCtx_deletes_witness :
  exists t',
    run (RemoveFilteredPolicyCtx "p" 1 ["data1"]) three_rows
    = Done None (mkWorld (mkDatabase (Some t')) None [])
    /\ rows t' `sublist_of` [alice_data1_read; bob_data1_read; alice_data2_write].
Proof.
  destruct (RemoveFilteredPolicyCtx_deletes "p" 1 ["data1"] three_rows
              (table_of [alice_data1_read; bob_data1_read; alice_data2_write] 4))
    as (t' & Hrun & _ & _ & _ & Hsub).
  - unfold int_min, int_max. lia.
  - unfold len, int_max. simpl. lia.
  - reflexivity.
  - reflexivity.
  - exists t'. split; [exact Hrun | exact Hsub].
Defined.

(** X15: once the unique index exists, [createTable] cannot succeed,
    whatever the driver does: its [CREATE UNIQUE INDEX] carries no
    [IF NOT EXISTS]; it returns an error and leaves the schema and the
    rows as they were. *)
Theorem createTable_never_twice (w : World) (t : Table) :
  casbin_policies (committed w) = Some t ->
  "unique_casbin_policy" ∈ ix_name <$> indexes t ->
  failed (run createTable w)
  /\ committed (world_of (run createTable w)) = committed w.
Proof.
  intros Ht Hix.
  destruct (createTable_existing_index_fails w t Ht Hix) as (e & w' & -> & Hc).
  by split.
Qed.

Lemma createTable_never_twice_witness :
  failed (run createTable (mkWorld (committed three_rows) None [false; true]))
  /\ committed (world_of (run createTable
                            (mkWorld (committed three_rows) None [false; true])))
     = committed three_rows.
Proof.
  apply (createTable_never_twice
           (mkWorld (committed three_rows) None [false; true])
           (table_of [alice_data1_read; bob_data1_read; alice_data2_write] 4)).
  - reflexivity.
  - vm_compute. elem_of_literal.
Defined.

Lemma RemoveFilteredPolicyCtx_run_witness :
  run (RemoveFilteredPolicyCtx "p" 1 ["data1"]) three_rows
  = Done None (world_of_rows [alice_data2_write] 4).
Proof.
  rewrite (RemoveFilteredPolicyCtx_run "p" 1 ["data1"] three_rows
             (table_of [alice_data1_read; bob_data1_read; alice_data2_write] 4)).
  - vm_compute. reflexivity.
  - unfold int_min, int_max. lia.
  - unfold len, int_max. simpl. lia.
  - reflexivity.
  - reflexivity.
Defined.

(** X12: a filtered remove none of whose values constrains a slot, because
    every value is empty or none is given, deletes every row of the rule
    type and leaves the rows of the other rule types. *)
Theorem RemoveFilteredPolicyCtx_wildcards (ptype : string) (fieldIndex : Z)
    (fieldValues : list string) (w : World) (t : Table) :
  int_min <= fieldIndex <= int_max ->
  len fieldValues <= int_max - 5 ->
  faults w = [] ->
  casbin_policies (committed w) = Some t ->
  Forall (fun value => value = "") fieldValues ->
  run (RemoveFilteredPolicyCtx ptype fieldIndex fieldValues) w
  = Done None
      (mkWorld
         (mkDatabase
            (Some (mkTable (indexes t)
                           (filter (fun r => PType r <> ptype) (rows t))
                           (next_id t))))
         (pending w) []).
Proof.
  intros Hfi Hlen Hf Ht Hall.
  rewrite (RemoveFilteredPolicyCtx_run ptype fieldIndex fieldValues w t) by done.
  rewrite (list_filter_iff _ (fun r => PType r <> ptype)); [done|].
  intros r.
  pose proof (filter_predicate_matches fieldIndex fieldValues ptype r) as Hm.
  destruct (matches (filter_predicate ptype fieldIndex fieldValues) r).
  - split; [done|]. intros Hne. exfalso. by apply Hne, Hm.
  - split; [|done]. intros _ Hp. assert (false = true); [|done].
    apply Hm. split; [done|]. intros n value _ _ Hv Hne.
    rewrite Forall_forall in Hall. destruct Hne.
    apply Hall. by eapply list_elem_of_lookup_2.
Qed.

Lemma RemoveFilteredPolicyCtx_wildcards_witness :
  run (RemoveFilteredPolicyCtx "p" 0 [""; ""]) mixed_rows
  = Done None (world_of_rows [alice_admin] 4).
Proof.
  rewrite (RemoveFilteredPolicyCtx_wildcards "p" 0 [""; ""] mixed_rows
             (table_of [alice_data1_read; alice_admin; alice_data2_write] 4)).
  - vm_compute. reflexivity.
  - unfold int_min, int_max. lia.
  - unfold len, int_max. simpl. lia.
  - reflexivity.
  - reflexivity.
  - repeat constructor.
Defined.

Lemma sql_insert_ok (ps : list CasbinPolicy) (d : Database) (t : Table) :
  casbin_policies d = Some t ->
  violated_index (indexes t) (rows t ++ assign_ids (next_id t) ps) = None ->
  sql_insert ps d
  = Ok (mkDatabase
          (Some (mkTable (indexes t) (rows t ++ assign_ids (next_id t) ps)
                         (next_id t + Z.of_nat (length ps))))).
Proof. intros Ht Hv. unfold sql_insert. rewrite Ht. cbv zeta. by rewrite Hv. Qed.

(** The filtered replace that meets no failure: the rows the filter
    predicate selects are returned as the engine orders them, and the table
    committed holds the other rows followed by the new ones. *)
Lemma UpdateFilteredPoliciesCtx_no_fault (order : RowOrder) (ptype : string)
    (newRules : list (list string)) (fieldIndex : Z) (fieldValues : list string)
    (w : World) (t : Table) :
  int_min <= fieldIndex <= int_max ->
  len fieldValues <= int_max - 5 ->
  faults w = [] ->
  casbin_policies (committed w) = Some t ->
  newRules <> [] ->
  violated_index (indexes t)
    (filter (fun r => matches (filter_predicate ptype fieldIndex fieldValues) r
                      = false) (rows t)
     ++ assign_ids (next_id t) (newCasbinPolicy ptype <$> newRules)) = None ->
  run (UpdateFilteredPoliciesCtx order ptype newRules fieldIndex fieldValues) w
  = Done (toSlice
            <$> answer order t (filter_predicate ptype fieldIndex fieldValues)
                  (filter (fun r => matches (filter_predicate ptype fieldIndex
                                                              fieldValues) r = true)
                          (rows t)),
          None)
         (mkWorld
            (mkDatabase
               (Some (mkTable (indexes t)
                        (filter (fun r => matches (filter_predicate ptype fieldIndex
                                                                    fieldValues) r
                                          = false) (rows t)
                         ++ assign_ids (next_id t) (newCasbinPolicy ptype <$> newRules))
                        (next_id t + Z.of_nat (length newRules)))))
            None []).
Proof.
  intros Hfi Hlen Hf Ht Hne Hix.
  unfold UpdateFilteredPoliciesCtx, mbind, M_bind. cbn [run].
  rewrite run_BeginTx_ok by done. cbn [run].
  rewrite (UpdateFilteredPoliciesCtx_where_spec fieldIndex fieldValues Hfi Hlen).
  cbn [run Scan Exec q_verb q_on q_where NewSelect NewDelete Where app].
  fold (filter_predicate ptype fieldIndex fieldValues).
  set (fp := filter_predicate ptype fieldIndex fieldValues) in *.
  assert (Hcol : unknown_column fp = None)
    by apply unknown_column_None, filter_predicate_columns.
  unfold Scan. cbn [q_on q_where].
  erewrite run_query_tx_ok;
    [| reflexivity | reflexivity
     | unfold sql_select; rewrite Ht, Hcol; reflexivity].
  cbn [run].
  erewrite run_stmt_tx_ok;
    [| reflexivity | reflexivity
     | unfold sql_delete; rewrite Ht, Hcol; reflexivity].
  cbn [run].
  rewrite append_policies_fmap. simpl app.
  rewrite ExecInsert_rows by (by destruct newRules).
  erewrite run_stmt_tx_ok;
    [| reflexivity | reflexivity
     | eapply sql_insert_ok; [reflexivity | exact Hix]].
  cbn [run].
  erewrite run_Commit_ok; [| reflexivity | reflexivity].
  cbn [run mret M_ret]. by rewrite toSlice_fold, length_fmap.
Qed.

(** X13: when the driver does not fail and the replacement rows pass the
    unique indexes next to the rows that stay, the filtered replace
    returns the rows that satisfy the filter predicate, each decoded by
    [toSlice], in the order the engine answers the SELECT (which has no
    ORDER BY): each of them once, in an order that is not the adapter's to
    choose.  It commits the other rows, in table order, followed by the
    encodings of the new rules under fresh identities. *)
Theorem UpdateFilteredPoliciesCtx_run (order : RowOrder) (ptype : string)
    (newRules : list (list string)) (fieldIndex : Z) (fieldValues : list string)
    (w : World) (t : Table) :
  int_min <= fieldIndex <= int_max ->
  len fieldValues <= int_max - 5 ->
  faults w = [] ->
  casbin_policies (committed w) = Some t ->
  newRules <> [] ->
  violated_index (indexes t)
    (filter (fun r => matches (filter_predicate ptype fieldIndex fieldValues) r
                      = false) (rows t)
     ++ assign_ids (next_id t) (newCasbinPolicy ptype <$> newRules)) = None ->
  exists removed : list (list string),
    run (UpdateFilteredPoliciesCtx order ptype newRules fieldIndex fieldValues) w
    = Done (removed, None)
           (mkWorld
              (mkDatabase
                 (Some (mkTable (indexes t)
                          (filter (fun r => matches (filter_predicate ptype fieldIndex
                                                                      fieldValues) r
                                            = false) (rows t)
                           ++ assign_ids (next_id t)
                                (newCasbinPolicy ptype <$> newRules))
                          (next_id t + Z.of_nat (length newRules)))))
              None [])
    /\ removed
       ≡ₚ toSlice
            <$> filter (fun r => matches (filter_predicate ptype fieldIndex
                                                           fieldValues) r = true)
                       (rows t).
Proof.
  intros Hfi Hlen Hf Ht Hne Hix. eexists. split.
  - by apply UpdateFilteredPoliciesCtx_no_fault.
  - apply fmap_Permutation, answer_perm.
Qed.

(** An engine that answers in the reverse of the insertion order, which
    on this table is the order of the unique index. *)
Lemma UpdateFilteredPoliciesCtx_run_witness :
  exists removed : list (list string),
    run (UpdateFilteredPoliciesCtx
           (mkRowOrder (fun _ _ rs => reverse rs)
                       (fun _ _ rs => reverse_Permutation rs))
           "p" [["carol"; "data1"; "read"]] 0 ["alice"])
        (world_of_rows [alice_data2_write; bob_data1_read; alice_data1_read] 4)
    = Done (removed, None)
           (world_of_rows [bob_data1_read;
                           mkCasbinPolicy 4 "p" "carol" "data1" "read" "" "" ""] 5)
    /\ removed ≡ₚ [["p"; "alice"; "data2"; "write"]; ["p"; "alice"; "data1"; "read"]].
Proof.
  apply (UpdateFilteredPoliciesCtx_run
           (mkRowOrder (fun _ _ rs => reverse rs)
                       (fun _ _ rs => reverse_Permutation rs))
           "p" [["carol"; "data1"; "read"]] 0 ["alice"]
           (world_of_rows [alice_data2_write; bob_data1_read; alice_data1_read] 4)
           (table_of [alice_data2_write; bob_data1_read; alice_data1_read] 4)).
  - unfold int_min, int_max. lia.
  - unfold len, int_max. simpl. lia.
  - reflexivity.
  - reflexivity.
  - discriminate.
  - vm_compute. reflexivity.
Defined.

End Filtered.

(** ** Filtered replace on the example table *)

Section FilteredReplace.

(** C3: on the table holding (alice, data1, read), (bob, data1, read) and
    (alice, data2, write) under rule type p, the filtered replace with the
    new rules (alice, data1, write) and (bob, data1, write), field index 1
    and values data1, read returns the first two rows, decoded by
    [toSlice] (the rule type, then the values), and commits a table that
    holds (alice, data2, write) followed by the two new rules.  Whatever
    the order in which the engine answers the SELECT, these two rows are
    what is returned; an engine that answers in insertion order returns
    alice before bob. *)
Theorem UpdateFilteredPoliciesCtx_example :
  (forall order : RowOrder,
     exists removed : list (list string),
       run (UpdateFilteredPoliciesCtx order "p"
              [["alice"; "data1"; "write"]; ["bob"; "data1"; "write"]]
              1 ["data1"; "read"]) three_rows
       = Done (removed, None)
              (world_of_rows
                 [alice_data2_write;
                  mkCasbinPolicy 4 "p" "alice" "data1" "write" "" "" "";
                  mkCasbinPolicy 5 "p" "bob" "data1" "write" "" "" ""] 6)
       /\ removed ≡ₚ [toSlice alice_data1_read; toSlice bob_data1_read])
  /\ run (UpdateFilteredPoliciesCtx table_order "p"
            [["alice"; "data1"; "write"]; ["bob"; "data1"; "write"]]
            1 ["data1"; "read"]) three_rows
     = Done ([toSlice alice_data1_read; toSlice bob_data1_read], None)
            (world_of_rows
               [alice_data2_write;
                mkCasbinPolicy 4 "p" "alice" "data1" "write" "" "" "";
                mkCasbinPolicy 5 "p" "bob" "data1" "write" "" "" ""] 6)
  /\ toSlice alice_data1_read = ["p"; "alice"; "data1"; "read"]
  /\ toSlice bob_data1_read = ["p"; "bob"; "data1"; "read"]
  /\ filterValues <$> [alice_data1_read; bob_data1_read]
     = [["alice"; "data1"; "read"]; ["bob"; "data1"; "read"]].
Proof.
  split; [|repeat split; vm_compute; reflexivity].
  intros order. eexists. split.
  - rewrite (UpdateFilteredPoliciesCtx_no_fault order "p"
               [["alice"; "data1"; "write"]; ["bob"; "data1"; "write"]]
               1 ["data1"; "read"] three_rows
               (table_of [alice_data1_read; bob_data1_read; alice_data2_write] 4));
      [| unfold int_min, int_max; lia | unfold len, int_max; simpl; lia
       | reflexivity | reflexivity | discriminate | vm_compute; reflexivity].
    reflexivity.
  - change [toSlice alice_data1_read; toSlice bob_data1_read]
      with (toSlice <$> [alice_data1_read; bob_data1_read]).
    apply fmap_Permutation. etrans; [apply answer_perm|].
    vm_compute. reflexivity.
Qed.

End FilteredReplace.

(** ** More on the bootstrap *)

Section BootstrapMore.

(** X14: whatever step of [createTable] fails (the begin, one of the
    three statements or the commit), the committed schema and rows are the
    ones before the call. *)
Theorem createTable_rolls_back (w : World) :
  failed (run createTable w) ->
  committed (world_of (run createTable w)) = committed w.
Proof.
  pose proof (createTable_all_or_nothing w) as H. unfold wp in H.
  destruct (run createTable w) as [[e|] w'|w']; simpl; intros Hf;
    [by apply H | done | done].
Qed.

Lemma createTable_rolls_back_witness :
  run createTable (mkWorld (mkDatabase None) None [false; false; false; true])
  = Done (Some (ErrJoin1 ErrDriver)) (mkWorld (mkDatabase None) None [])
  /\ committed (world_of (run createTable
                            (mkWorld (mkDatabase None) None
                                     [false; false; false; true])))
     = mkDatabase None.
Proof.
  split; [vm_compute; reflexivity|].
  apply (createTable_rolls_back
           (mkWorld (mkDatabase None) None [false; false; false; true])).
  vm_compute. exact I.
Defined.

Lemma createTable_existing_index_fails_witness :
  exists e w',
    run createTable (mkWorld (committed three_rows) None [false; true]) = Done (Some e) w'
    /\ committed w' = committed three_rows.
Proof.
  apply (createTable_existing_index_fails
           (mkWorld (committed three_rows) None [false; true])
           (table_of [alice_data1_read; bob_data1_read; alice_data2_write] 4)).
  - reflexivity.
  - vm_compute. elem_of_literal.
Defined.

(** X16: with a driver that does not fail, [createTable] on a database
    without the table creates it empty with both indexes; on a table that
    is there without any index it adds both indexes and keeps the rows
    when no two rows hold the same tuple, and otherwise returns the
    violation of the unique index and adds nothing. *)
Theorem createTable_run (w : World) :
  faults w = [] ->
  (casbin_policies (committed w) = None ->
   run createTable w
   = Done None
       (mkWorld
          (mkDatabase (Some (mkTable [unique_casbin_policy; idx_casbin_ptype] [] 1)))
          None []))
  /\ (forall t, casbin_policies (committed w) = Some t -> indexes t = [] ->
        run createTable w
        = if decide (NoDup (forget_id <$> rows t))
          then Done None
                 (mkWorld
                    (mkDatabase
                       (Some (mkTable [unique_casbin_policy; idx_casbin_ptype]
                                      (rows t) (next_id t))))
                    None [])
          else Done (Some (ErrJoin1 (ErrUnique "unique_casbin_policy")))
                    (mkWorld (committed w) None [])).
Proof.
  intros Hf. destruct w as [[ot] p fs]. simpl in Hf. subst fs. split.
  - cbn [committed casbin_policies]. intros ->. vm_compute. reflexivity.
  - cbn [committed casbin_policies]. intros [ixs rs nx] -> Hix.
    cbn [indexes] in Hix. subst ixs. cbn [rows next_id].
    unfold createTable, mbind, M_bind. cbn [run].
    rewrite run_BeginTx_ok by done. cbn [run committed].
    erewrite run_stmt_tx_ok; [| reflexivity | reflexivity | reflexivity].
    cbn [run committed].
    assert (Hu : sql_create_index unique_casbin_policy
                   (mkDatabase (Some (mkTable [] rs nx)))
                 = if decide (NoDup (forget_id <$> rs))
                   then Ok (mkDatabase
                              (Some (mkTable [unique_casbin_policy] rs nx)))
                   else Err (ErrUnique "unique_casbin_policy")).
    { unfold sql_create_index. cbn [casbin_policies indexes rows next_id].
      rewrite decide_False by (simpl; apply not_elem_of_nil).
      rewrite violated_index_unique. simpl.
      by destruct (decide (NoDup (forget_id <$> rs))). }
    destruct (decide (NoDup (forget_id <$> rs))) as [Hnd|Hnd].
    + erewrite run_stmt_tx_ok; [| reflexivity | reflexivity | exact Hu].
      cbn [run committed].
      erewrite run_stmt_tx_ok; [| reflexivity | reflexivity |].
      * cbn [run]. by erewrite run_Commit_ok.
      * unfold sql_create_index. cbn [casbin_policies indexes rows next_id].
        rewrite decide_False.
        -- by rewrite violated_index_ptype.
        -- vm_compute. intros H. apply list_elem_of_singleton in H. discriminate.
    + erewrite run_stmt_tx_err; [| reflexivity | reflexivity | exact Hu].
      cbn [run]. by erewrite run_Rollback_ok.
Qed.

Lemma createTable_run_witness :
  run createTable
      (mkWorld (mkDatabase (Some (mkTable [] [alice_data1_read; bob_data1_read] 3)))
               None [])
  = Done None (world_of_rows [alice_data1_read; bob_data1_read] 3).
Proof.
  rewrite (proj2 (createTable_run
                    (mkWorld (mkDatabase
                                (Some (mkTable [] [alice_data1_read; bob_data1_read] 3)))
                             None []) eq_refl)
                 (mkTable [] [alice_data1_read; bob_data1_read] 3) eq_refl eq_refl).
  vm_compute. reflexivity.
Defined.

Lemma createTable_returns : returns createTable.
Proof.
  intros w. unfold createTable.
  apply wp_bind, wp_BeginTx. intros [e|] w1 _; [by apply wp_ret|].
  apply wp_bind, wp_run_stmt_tx. intros [e|] w2 _.
  { apply wp_bind, wp_Rollback. intros r w' _. by apply wp_ret. }
  apply wp_bind, wp_run_stmt_tx. intros [e|] w3 _.
  { apply wp_bind, wp_Rollback. intros r w' _. by apply wp_ret. }
  apply wp_bind, wp_run_stmt_tx. intros [e|] w4 _.
  { apply wp_bind, wp_Rollback. intros r w' _. by apply wp_ret. }
  by apply wp_Commit.
Qed.

(** The option of the package sets the flag and leaves the world alone. *)
Lemma apply_options_package (opts : list CasbinBunOption) (b : Adapter)
    (w : World) :
  Forall (fun opt => opt = DisableAutoCreateTable) opts ->
  run (apply_options opts b) w
  = Done (match opts with [] => b | _ :: _ => mkAdapter true end) w.
Proof.
  intros Hall. revert b. induction Hall as [|opt opts -> _ IH]; intros b; [done|].
  cbn [apply_options]. rewrite run_bind. cbn [call_option DisableAutoCreateTable].
  cbn [run mret M_ret]. rewrite IH. by destruct opts.
Qed.

(** A nil option among options of the package: the call panics, and the
    world is the one [NewAdapter] was called in. *)
Lemma apply_options_nil (opts : list CasbinBunOption) (b : Adapter) (w : World) :
  Forall (fun opt => opt = None \/ opt = DisableAutoCreateTable) opts ->
  None ∈ opts ->
  run (apply_options opts b) w = Panicked w.
Proof.
  intros Hall. revert b.
  induction Hall as [|opt opts [->| ->] _ IH]; intros b Hin.
  - by apply elem_of_nil in Hin.
  - reflexivity.
  - apply elem_of_cons in Hin as [Hin|Hin]; [discriminate|].
    cbn [apply_options]. rewrite run_bind.
    cbn [call_option DisableAutoCreateTable run mret M_ret]. by apply IH.
Qed.

(** X17: the options are called before the database is touched.  Given
    options that are nil or the option of the package, [NewAdapter] panics
    when one of them is nil, in the world it was called in, even when
    an option before it has disabled the bootstrap; with
    [DisableAutoCreateTable] and no nil option it returns the adapter
    without a call to the driver; and with no option it returns the
    adapter exactly when [createTable] returns nil, and otherwise no
    adapter and the error of [createTable], the committed database being
    as before. *)
Theorem NewAdapter_options (opts : list CasbinBunOption) (w : World) :
  Forall (fun opt => opt = None \/ opt = DisableAutoCreateTable) opts ->
  (None ∈ opts -> run (NewAdapter opts) w = Panicked w)
  /\ (None ∉ opts -> opts <> [] ->
      run (NewAdapter opts) w = Done (Some (mkAdapter true), None) w)
  /\ (opts = [] ->
      (exists w', run createTable w = Done None w'
                  /\ run (NewAdapter opts) w
                     = Done (Some (mkAdapter false), None) w')
      \/ (exists e w', run createTable w = Done (Some e) w'
                       /\ run (NewAdapter opts) w = Done (None, Some e) w'
                       /\ committed w' = committed w)).
Proof.
  intros Hall. split; [|split].
  - intros Hin. unfold NewAdapter. rewrite run_bind.
    by rewrite apply_options_nil.
  - intros Hnin Hne. unfold NewAdapter. rewrite run_bind.
    rewrite apply_options_package.
    + by destruct opts.
    + apply Forall_forall. intros opt Hin. rewrite Forall_forall in Hall.
      destruct (Hall opt Hin) as [->|H]; [done | exact H].
  - intros ->. unfold NewAdapter. rewrite run_bind.
    cbn [apply_options run mret M_ret notCreateTables negb]. rewrite run_bind.
    pose proof (createTable_all_or_nothing w) as Ha.
    pose proof (createTable_returns w) as Hr.
    unfold wp in Ha, Hr.
    destruct (run createTable w) as [[e|] w'|w']; [| |done].
    + right. exists e, w'. split; [reflexivity|]. split; [reflexivity|].
      by apply Ha.
    + left. exists w'. split; reflexivity.
Qed.

(** The bootstrap is disabled and the next option is nil: the panic. *)
Lemma NewAdapter_options_witness :
  run (NewAdapter [DisableAutoCreateTable; None]) three_rows = Panicked three_rows.
Proof.
  apply (proj1 (NewAdapter_options [DisableAutoCreateTable; None] three_rows
                  ltac:(constructor; [by right | constructor; [by left | constructor]]))).
  elem_of_literal.
Defined.

End BootstrapMore.

(** ** Loading *)

Section Loading.

Context {Model ModelError : Type}.
Variable HasPolicyEx :
  Model -> string -> string -> list string -> bool * option ModelError.
Variable AddPolicy :
  Model -> string -> string -> list string -> Model * option ModelError.
(** The order in which the engine answers the SELECT. *)
Variable order : RowOrder.

Local Abbreviation load_record := (loadPolicyRecord HasPolicyEx AddPolicy).
Local Abbreviation load_range := (LoadPolicyCtx_range HasPolicyEx AddPolicy).
Local Abbreviation load := (LoadPolicyCtx HasPolicyEx AddPolicy order).

Lemma run_slice_to_1 (ptype : string) (w : World) :
  ptype <> "" -> run (slice_to_1 ptype) w = Done (section_of ptype) w.
Proof. by destruct ptype. Qed.

(** One row, when its rule type is not empty. *)
Lemma loadPolicyRecord_run (policy : CasbinPolicy) (model : Model) (w : World) :
  PType policy <> "" ->
  run (load_record policy model) w
  = Done (let '(ok, err) := HasPolicyEx model (section_of (PType policy))
                              (PType policy) (filterValues policy) in
          match err with
          | Some e => (model, Some e)
          | None =>
              if (ok : bool) then (model, None)
              else AddPolicy model (section_of (PType policy)) (PType policy)
                             (filterValues policy)
          end) w.
Proof.
  intros Hp. unfold loadPolicyRecord. rewrite run_bind, run_slice_to_1 by done.
  destruct (HasPolicyEx _ _ _ _) as [[] [e|]]; reflexivity.
Qed.

Lemma loadPolicyRecord_world (policy : CasbinPolicy) (model : Model) (w : World) :
  world_of (run (load_record policy model) w) = w.
Proof.
  unfold loadPolicyRecord. rewrite run_bind.
  destruct (PType policy) as [|a s]; [reflexivity|]. cbn [slice_to_1 run].
  destruct (HasPolicyEx _ _ _ _) as [[] [e|]]; reflexivity.
Qed.

Lemma LoadPolicyCtx_range_world (policies : list CasbinPolicy) (model : Model)
    (w : World) :
  world_of (run (load_range policies model) w) = w.
Proof.
  revert model. induction policies as [|policy policies IH]; intros model;
    [reflexivity|].
  cbn [LoadPolicyCtx_range]. rewrite run_bind.
  pose proof (loadPolicyRecord_world policy model w) as Hw.
  destruct (run (load_record policy model) w) as [[model' [e|]] w'|w'];
    simpl in Hw; subst w'; [reflexivity | apply IH | reflexivity].
Qed.

(** X18: [LoadPolicyCtx] only reads: whatever the model does and whatever
    the driver injects, the committed database and the open transaction
    are as before; and when the scan fails, the error of the driver is
    returned with the model it was given. *)
Theorem LoadPolicyCtx_reads_only (model : Model) (w : World) :
  committed (world_of (run (load model) w)) = committed w
  /\ pending (world_of (run (load model) w)) = pending w
  /\ (forall e model' w',
        run (load model) w = Done (model', Some (inl e)) w' -> model' = model).
Proof.
  unfold LoadPolicyCtx. rewrite run_bind.
  assert (Hq : wp (Scan order (NewSelect OnDB))
                  (fun _ w' => committed w' = committed w /\ pending w' = pending w)
                  (fun _ => False) w).
  { unfold Scan, run_query. apply wp_bind, wp_take_fault.
    intros [] w1 Hc Hp; [by apply wp_ret|].
    unfold wp. cbn. by destruct (sql_select order [] (committed w1)). }
  unfold wp in Hq.
  destruct (run (Scan order (NewSelect OnDB)) w) as [[policies [e|]] w1|w1];
    [| |done].
  - cbn [run mret M_ret world_of]. split; [tauto|]. split; [tauto|].
    by intros e' model' w' [= <- _ _].
  - rewrite run_bind.
    pose proof (LoadPolicyCtx_range_world policies model w1) as Hw.
    destruct (run (load_range policies model) w1) as [[model' err] w2|w2];
      simpl in Hw; subst w2; cbn [run mret M_ret world_of].
    + split; [tauto|]. split; [tauto|]. intros e model'' w'.
      destruct err; simpl; by intros [= ].
    + split; [tauto|]. split; [tauto|]. done.
Qed.

(** The scan of the whole table returns every row, as the engine orders
    them. *)
Lemma sql_select_all (d : Database) (t : Table) :
  casbin_policies d = Some t ->
  sql_select order [] d = Ok (answer order t [] (rows t)).
Proof.
  intros Ht. unfold sql_select. rewrite Ht. cbn [unknown_column].
  change (unknown_column []) with (@None string). do 2 f_equal.
  induction (rows t) as [|r rs IH]; [done|].
  rewrite filter_cons, decide_True by reflexivity. by rewrite IH.
Qed.

Lemma run_Scan_all (w : World) (t : Table) :
  faults w = [] -> casbin_policies (committed w) = Some t ->
  run (Scan order (NewSelect OnDB)) w
  = Done (answer order t [] (rows t), None) w.
Proof.
  intros Hf Ht. unfold Scan. cbn [q_on q_where NewSelect].
  apply run_query_db_ok; [done|]. by apply sql_select_all.
Qed.

Lemma LoadPolicyCtx_range_empty_ptype (policies : list CasbinPolicy)
    (r : CasbinPolicy) (model model' : Model) (w w' : World) :
  r ∈ policies -> PType r = "" ->
  run (load_range policies model) w <> Done (model', None) w'.
Proof.
  intros Hin Hp. revert model.
  induction policies as [|policy policies IH]; intros model;
    [by apply elem_of_nil in Hin|].
  cbn [LoadPolicyCtx_range]. rewrite run_bind.
  apply elem_of_cons in Hin as [<-|Hin].
  - unfold loadPolicyRecord. rewrite run_bind, Hp. done.
  - pose proof (loadPolicyRecord_world policy model w) as Hw.
    destruct (run (load_record policy model) w) as [[model1 [e|]] w1|w1];
      simpl in Hw; subst; [done | by apply IH | done].
Qed.

(** X19: a stored row whose rule type is empty makes [LoadPolicyCtx]
    unable to complete: with a driver that does not fail it never returns
    nil, and when that row is the first one the engine returns (the first
    one stored, for an engine that answers in insertion order) it panics on
    [pType[:1]] before the model is asked anything. *)
Theorem LoadPolicyCtx_empty_ptype (model : Model) (w : World) (t : Table)
    (r : CasbinPolicy) :
  faults w = [] ->
  casbin_policies (committed w) = Some t ->
  r ∈ rows t -> PType r = "" ->
  (forall model' w', run (load model) w <> Done (model', None) w')
  /\ (head (answer order t [] (rows t)) = Some r ->
      run (load model) w = Panicked w).
Proof.
  intros Hf Ht Hin Hp. unfold LoadPolicyCtx.
  rewrite run_bind, (run_Scan_all w t Hf Ht). rewrite run_bind.
  rewrite <- (answer_perm order t []) in Hin.
  generalize dependent (answer order t [] (rows t)). intros policies Hin. split.
  - intros model' w'.
    pose proof (fun m' w' =>
                  LoadPolicyCtx_range_empty_ptype policies r model m' w w' Hin Hp)
      as Hne.
    destruct (run (load_range policies model) w) as [[model1 [e|]] w1|w1];
      cbn [run mret M_ret]; [by intros [= ] | | by intros [= ]].
    by destruct (Hne model1 w1).
  - destruct policies as [|r' rs]; [done|]. intros [= ->].
    cbn [LoadPolicyCtx_range]. rewrite run_bind.
    unfold loadPolicyRecord. by rewrite run_bind, Hp.
Qed.

(** Rows the model already holds are not added. *)
Lemma LoadPolicyCtx_range_known (policies : list CasbinPolicy) (model : Model)
    (w : World) :
  Forall (fun r => PType r <> ""
                   /\ HasPolicyEx model (section_of (PType r)) (PType r)
                                  (filterValues r) = (true, None)) policies ->
  run (load_range policies model) w = Done (model, None) w.
Proof.
  induction 1 as [|r rs [Hp Hhas] _ IH]; [reflexivity|].
  cbn [LoadPolicyCtx_range].
  rewrite run_bind, loadPolicyRecord_run by done. by rewrite Hhas.
Qed.

(** X20: when the driver does not fail and the model answers, for every
    stored row, that it holds the row's filter values under the row's
    rule type and section, [LoadPolicyCtx] adds nothing: it returns nil
    and the model it was given. *)
Theorem LoadPolicyCtx_known (model : Model) (w : World) (t : Table) :
  faults w = [] ->
  casbin_policies (committed w) = Some t ->
  Forall (fun r => PType r <> ""
                   /\ HasPolicyEx model (section_of (PType r)) (PType r)
                                  (filterValues r) = (true, None)) (rows t) ->
  run (load model) w = Done (model, None) w.
Proof.
  intros Hf Ht Hall. unfold LoadPolicyCtx.
  rewrite run_bind, (run_Scan_all w t Hf Ht), run_bind.
  rewrite LoadPolicyCtx_range_known; [done|].
  by rewrite (answer_perm order t []).
Qed.

End Loading.

(** ** Loading twice *)

Section LoadingTwice.

Context {Model ModelError : Type}.
Variable HasPolicyEx :
  Model -> string -> string -> list string -> bool * option ModelError.
Variable AddPolicy :
  Model -> string -> string -> list string -> Model * option ModelError.
Variable order : RowOrder.

(** What the membership check of the model is taken to guarantee. *)
Hypothesis has_total : forall m s p r, (HasPolicyEx m s p r).2 = None.
Hypothesis add_total : forall m s p r, (AddPolicy m s p r).2 = None.
Hypothesis has_add :
  forall m s p r, (HasPolicyEx (AddPolicy m s p r).1 s p r).1 = true.
Hypothesis has_keep :
  forall m s p r s' p' r',
    (HasPolicyEx m s p r).1 = true ->
    (HasPolicyEx (AddPolicy m s' p' r').1 s p r).1 = true.

Lemma has_true (m : Model) (s p : string) (r : list string) :
  (HasPolicyEx m s p r).1 = true -> HasPolicyEx m s p r = (true, None).
Proof.
  intros H. pose proof (has_total m s p r) as Ht.
  destruct (HasPolicyEx m s p r) as [ok err]. simpl in *. by subst.
Qed.

(** After the loop, the model holds every row it was offered and all it
    held before. *)
Lemma LoadPolicyCtx_range_loads (policies : list CasbinPolicy) (model : Model)
    (w : World) :
  Forall (fun r => PType r <> "") policies ->
  exists model1,
    run (LoadPolicyCtx_range HasPolicyEx AddPolicy policies model) w
    = Done (model1, None) w
    /\ (forall s p r, (HasPolicyEx model s p r).1 = true ->
                      (HasPolicyEx model1 s p r).1 = true)
    /\ Forall (fun r => PType r <> ""
                        /\ HasPolicyEx model1 (section_of (PType r)) (PType r)
                                       (filterValues r) = (true, None)) policies.
Proof.
  intros Hall. revert model.
  induction Hall as [|r rs Hp _ IH]; intros model.
  { exists model. split; [reflexivity|]. split; [done | constructor]. }
  cbn [LoadPolicyCtx_range].
  rewrite run_bind, loadPolicyRecord_run by done.
  pose proof (has_total model (section_of (PType r)) (PType r) (filterValues r))
    as Herr.
  destruct (HasPolicyEx model (section_of (PType r)) (PType r) (filterValues r))
    as [ok err] eqn:Hhas.
  simpl in Herr. subst err. destruct ok.
  - destruct (IH model) as (model1 & Hrun & Hmono & Hrows).
    exists model1. split; [exact Hrun|]. split; [exact Hmono|].
    constructor; [|exact Hrows]. split; [done|].
    apply has_true, Hmono. by rewrite Hhas.
  - pose proof (add_total model (section_of (PType r)) (PType r) (filterValues r))
      as Hadd.
    pose proof (has_add model (section_of (PType r)) (PType r) (filterValues r))
      as Hin.
    pose proof (fun s p r0 => has_keep model s p r0 (section_of (PType r))
                                       (PType r) (filterValues r)) as Hkeep.
    destruct (AddPolicy model (section_of (PType r)) (PType r) (filterValues r))
      as [model' err].
    simpl in Hadd, Hin, Hkeep. subst err.
    destruct (IH model') as (model1 & Hrun & Hmono & Hrows).
    exists model1. split; [exact Hrun|]. split.
    + intros s p r0 H0. by apply Hmono, Hkeep.
    + constructor; [|exact Hrows]. split; [done|]. by apply has_true, Hmono.
Qed.

(** X21: with a driver that does not fail, rule types that are not empty
    and a model whose membership check and addition do not fail and agree
    (what is added is held, what is held stays held), loading returns nil,
    and loading again into the model it gave adds nothing. *)
Theorem LoadPolicyCtx_twice (model : Model) (w : World) (t : Table) :
  faults w = [] ->
  casbin_policies (committed w) = Some t ->
  Forall (fun r => PType r <> "") (rows t) ->
  exists model1,
    run (LoadPolicyCtx HasPolicyEx AddPolicy order model) w
    = Done (model1, None) w
    /\ run (LoadPolicyCtx HasPolicyEx AddPolicy order model1) w
       = Done (model1, None) w.
Proof.
  intros Hf Ht Hall. rewrite <- (answer_perm order t []) in Hall.
  destruct (LoadPolicyCtx_range_loads (answer order t [] (rows t)) model w Hall)
    as (model1 & Hrun & _ & Hrows).
  exists model1. split.
  - unfold LoadPolicyCtx.
    by rewrite run_bind, (run_Scan_all order w t Hf Ht), run_bind, Hrun.
  - unfold LoadPolicyCtx.
    rewrite run_bind, (run_Scan_all order w t Hf Ht), run_bind.
    by rewrite LoadPolicyCtx_range_known.
Qed.

End LoadingTwice.

(** ** Loading into the stand-in model *)

Section LoadingExamples.

Lemma rule_list_has_add (m : rule_list) (s p : string) (r : list string) :
  (rule_list_HasPolicyEx (rule_list_AddPolicy m s p r).1 s p r).1 = true.
Proof.
  simpl. apply bool_decide_eq_true. apply elem_of_app. right.
  apply list_elem_of_here.
Qed.

Lemma rule_list_has_keep (m : rule_list) (s p : string) (r : list string)
    (s' p' : string) (r' : list string) :
  (rule_list_HasPolicyEx m s p r).1 = true ->
  (rule_list_HasPolicyEx (rule_list_AddPolicy m s' p' r').1 s p r).1 = true.
Proof.
  simpl. rewrite !bool_decide_eq_true. intros H. apply elem_of_app. by left.
Qed.

Lemma LoadPolicyCtx_empty_ptype_witness :
  run (LoadPolicyCtx rule_list_HasPolicyEx rule_list_AddPolicy table_order [])
      (world_of_rows [mkCasbinPolicy 1 "" "alice" "data1" "read" "" "" ""] 2)
  = Panicked (world_of_rows [mkCasbinPolicy 1 "" "alice" "data1" "read" "" "" ""] 2).
Proof.
  apply (proj2 (LoadPolicyCtx_empty_ptype rule_list_HasPolicyEx rule_list_AddPolicy
                  table_order [] (world_of_rows [mkCasbinPolicy 1 "" "alice" "data1" "read" "" "" ""] 2)
                  (table_of [mkCasbinPolicy 1 "" "alice" "data1" "read" "" "" ""] 2)
                  (mkCasbinPolicy 1 "" "alice" "data1" "read" "" "" "")
                  eq_refl eq_refl (list_elem_of_here _ _) eq_refl)).
  reflexivity.
Defined.

Lemma LoadPolicyCtx_known_witness :
  run (LoadPolicyCtx rule_list_HasPolicyEx rule_list_AddPolicy table_order
         [("p", "p", ["alice"; "data1"; "read"]);
          ("p", "p", ["bob"; "data1"; "read"]);
          ("p", "p", ["alice"; "data2"; "write"])]) three_rows
  = Done ([("p", "p", ["alice"; "data1"; "read"]);
           ("p", "p", ["bob"; "data1"; "read"]);
           ("p", "p", ["alice"; "data2"; "write"])], None) three_rows.
Proof.
  apply (LoadPolicyCtx_known rule_list_HasPolicyEx rule_list_AddPolicy
           table_order _ three_rows
           (table_of [alice_data1_read; bob_data1_read; alice_data2_write] 4)
           eq_refl eq_refl).
  repeat constructor; try discriminate; vm_compute; reflexivity.
Defined.

Lemma LoadPolicyCtx_twice_witness :
  exists model1,
    run (LoadPolicyCtx rule_list_HasPolicyEx rule_list_AddPolicy table_order []) mixed_rows
    = Done (model1, None) mixed_rows
    /\ run (LoadPolicyCtx rule_list_HasPolicyEx rule_list_AddPolicy table_order model1) mixed_rows
       = Done (model1, None) mixed_rows.
Proof.
  apply (LoadPolicyCtx_twice rule_list_HasPolicyEx rule_list_AddPolicy table_order
           (fun _ _ _ _ => eq_refl) (fun _ _ _ _ => eq_refl)
           rule_list_has_add rule_list_has_keep [] mixed_rows
           (table_of [alice_data1_read; alice_admin; alice_data2_write] 4)
           eq_refl eq_refl).
  repeat constructor; discriminate.
Defined.

(** The test [TestLoadPolicy] of the repository: three policy rules and
    one role rule, loaded into an empty model. *)
Example TestLoadPolicy :
  run (LoadPolicyCtx rule_list_HasPolicyEx rule_list_AddPolicy table_order [])
      (world_of_rows
         [mkCasbinPolicy 1 "p" "alice" "data1" "read" "" "" "";
          mkCasbinPolicy 2 "p" "bob" "data1" "write" "" "" "";
          mkCasbinPolicy 3 "p" "admin" "*" "*" "" "" "";
          mkCasbinPolicy 4 "g" "bob" "admin" "" "" "" ""] 5)
  = Done ([("p", "p", ["alice"; "data1"; "read"]);
           ("p", "p", ["bob"; "data1"; "write"]);
           ("p", "p", ["admin"; "*"; "*"]);
           ("g", "g", ["bob"; "admin"])], None)
         (world_of_rows
            [mkCasbinPolicy 1 "p" "alice" "data1" "read" "" "" "";
             mkCasbinPolicy 2 "p" "bob" "data1" "write" "" "" "";
             mkCasbinPolicy 3 "p" "admin" "*" "*" "" "" "";
             mkCasbinPolicy 4 "g" "bob" "admin" "" "" "" ""] 5).
Proof. vm_compute. reflexivity. Qed.

Lemma LoadPolicyCtx_reads_only_witness :
  run (LoadPolicyCtx rule_list_HasPolicyEx rule_list_AddPolicy table_order
         [("p", "p", ["carol"])])
      (mkWorld (committed three_rows) None [true])
  = Done ([("p", "p", ["carol"])], Some (inl ErrDriver)) three_rows
  /\ committed (world_of
                  (run (LoadPolicyCtx rule_list_HasPolicyEx rule_list_AddPolicy table_order
                          [("p", "p", ["carol"])])
                       (mkWorld (committed three_rows) None [true])))
     = committed three_rows.
Proof.
  split; [vm_compute; reflexivity|].
  apply (proj1 (LoadPolicyCtx_reads_only
                  rule_list_HasPolicyEx rule_list_AddPolicy table_order
                  [("p", "p", ["carol"])]
                  (mkWorld (committed three_rows) None [true]))).
Defined.

End LoadingExamples.

(** ** More on saving *)

Section SaveMore.

(** [SavePolicyCtx] reads the sections p and g of the model only: the
    rules of any other section are not saved. *)
Theorem SavePolicyCtx_other_section (order : RangeOrder)
    (model : gmap string (gmap string Assertion)) (sec : string)
    (assertions : gmap string Assertion) :
  sec <> "p" -> sec <> "g" ->
  SavePolicyCtx order (<[sec := assertions]> model) = SavePolicyCtx order model.
Proof.
  intros Hp Hg. unfold SavePolicyCtx, section_policies.
  by rewrite !lookup_insert_ne by done.
Qed.

Lemma SavePolicyCtx_other_section_witness :
  SavePolicyCtx key_order
    (<["r" := {[ "r" := mkAssertion [["sub"; "obj"; "act"]] ]}]> small_model)
  = SavePolicyCtx key_order small_model.
Proof.
  apply (SavePolicyCtx_other_section key_order small_model "r"); discriminate.
Defined.



(** [SavePolicyCtx] on the table that [createTable] makes, with a driver
    that does not fail: the truncation takes effect, then the insert is
    refused for a model without rules, fails on the unique index when two
    rules have the same encoding, and succeeds otherwise. *)
Lemma SavePolicyCtx_no_fault (order : RangeOrder)
    (model : gmap string (gmap string Assertion)) (w : World) (t : Table) :
  faults w = [] ->
  casbin_policies (committed w) = Some t ->
  indexes t = [unique_casbin_policy; idx_casbin_ptype] ->
  run (SavePolicyCtx order model) w
  = match model_rules order model with
    | [] =>
        Done (Some ErrEmptySlice)
             (mkWorld (mkDatabase (Some (mkTable (indexes t) [] (next_id t))))
                      (pending w) [])
    | _ :: _ =>
        if decide (NoDup (encode <$> model_rules order model))
        then Done None
               (mkWorld
                  (mkDatabase
                     (Some (mkTable (indexes t)
                              (assign_ids (next_id t)
                                 (encode <$> model_rules order model))
                              (next_id t
                               + Z.of_nat (length (model_rules order model))))))
                  (pending w) [])
        else Done (Some (ErrUnique "unique_casbin_policy"))
                  (mkWorld (mkDatabase (Some (mkTable (indexes t) [] (next_id t))))
                           (pending w) [])
    end.
Proof.
  intros Hf Ht Hix. unfold SavePolicyCtx.
  rewrite SavePolicyCtx_policies.
  unfold savePolicyRecords, refreshTable.
  rewrite !run_bind.
  rewrite (run_stmt_db_ok sql_truncate w
             (mkDatabase (Some (mkTable (indexes t) [] (next_id t)))) Hf)
    by (unfold sql_truncate; by rewrite Ht).
  cbn [run mret M_ret]. rewrite run_bind.
  destruct (model_rules order model) as [|rule rules] eqn:Hrules; [reflexivity|].
  rewrite <- Hrules.
  rewrite ExecInsert_rows by (by rewrite Hrules).
  pose proof (sql_insert_bootstrap (encode <$> model_rules order model)
                (mkDatabase (Some (mkTable (indexes t) [] (next_id t))))
                (mkTable (indexes t) [] (next_id t)) eq_refl Hix (encode_ID _))
    as Hins.
  cbn [rows fmap list_fmap app indexes next_id] in Hins.
  destruct (decide (NoDup (encode <$> model_rules order model))).
  - erewrite run_stmt_db_ok; [| reflexivity | exact Hins].
    cbn [run mret M_ret pending]. by rewrite length_fmap.
  - by erewrite run_stmt_db_err; [| reflexivity | exact Hins].
Qed.

(** X23: [SavePolicyCtx] is not all or nothing.  On the table that
    [createTable] makes and with a driver that does not fail, a model two
    of whose rules have the same encoding makes it return the violation of
    the unique index after the truncation has taken effect: the rows that
    were stored are gone and none of the model is stored. *)
Theorem SavePolicyCtx_loses_rows (order : RangeOrder)
    (model : gmap string (gmap string Assertion)) (w : World) (t : Table) :
  faults w = [] ->
  casbin_policies (committed w) = Some t ->
  indexes t = [unique_casbin_policy; idx_casbin_ptype] ->
  ~ NoDup (encode <$> model_rules order model) ->
  run (SavePolicyCtx order model) w
  = Done (Some (ErrUnique "unique_casbin_policy"))
         (mkWorld (mkDatabase (Some (mkTable (indexes t) [] (next_id t))))
                  (pending w) []).
Proof.
  intros Hf Ht Hix Hdup. rewrite (SavePolicyCtx_no_fault order model w t Hf Ht Hix).
  destruct (model_rules order model) as [|rule rules] eqn:Hrules.
  - destruct Hdup. constructor.
  - by rewrite decide_False.
Qed.

Lemma SavePolicyCtx_loses_rows_witness :
  run (SavePolicyCtx key_order
         {[ "p" := {[ "p" := mkAssertion [["alice"; "data1"];
                                          ["alice"; "data1"; ""]] ]} ]})
      three_rows
  = Done (Some (ErrUnique "unique_casbin_policy")) (world_of_rows [] 4).
Proof.
  apply (SavePolicyCtx_loses_rows key_order _ three_rows
           (table_of [alice_data1_read; bob_data1_read; alice_data2_write] 4)
           eq_refl eq_refl eq_refl).
  intros Hnd. apply (bool_decide_pack _) in Hnd. vm_compute in Hnd. exact Hnd.
Defined.

(** A section with one rule type is visited in one way. *)
Lemma range_of_singleton (order : RangeOrder) (sec ptype : string)
    (ast : Assertion) :
  range_of order sec {[ ptype := ast ]} = [(ptype, ast)].
Proof.
  apply Permutation_singleton_r.
  by rewrite range_of_perm, map_to_list_singleton.
Qed.

Lemma range_of_empty (order : RangeOrder) (sec : string) :
  range_of order sec ∅ = [].
Proof.
  apply Permutation_nil_r. by rewrite range_of_perm, map_to_list_empty.
Qed.

(** C4 does not hold of every rule set.  Two rules of seven elements that
    differ in the seventh have the same encoding: whatever the order of
    the visit, [SavePolicyCtx] on the table of three rows, with a driver
    that does not fail, returns the violation of the unique index and
    leaves the table empty, holding neither the rules passed in nor the
    rows it held. *)
Lemma SavePolicyCtx_same_encoding :
  (forall order : RangeOrder,
     run (SavePolicyCtx order
            {[ "p" := {[ "p" := mkAssertion
                                  [["a"; "b"; "c"; "d"; "e"; "f"; "g"];
                                   ["a"; "b"; "c"; "d"; "e"; "f"; "h"]] ]} ]})
         three_rows
     = Done (Some (ErrUnique "unique_casbin_policy")) (world_of_rows [] 4))
  /\ newCasbinPolicy "p" ["a"; "b"; "c"; "d"; "e"; "f"; "g"]
     = newCasbinPolicy "p" ["a"; "b"; "c"; "d"; "e"; "f"; "h"].
Proof.
  split; [|reflexivity]. intros order.
  rewrite (SavePolicyCtx_no_fault order _ three_rows
             (table_of [alice_data1_read; bob_data1_read; alice_data2_write] 4)
             eq_refl eq_refl eq_refl).
  assert (Hrules : model_rules order
                     {[ "p" := {[ "p" := mkAssertion
                                           [["a"; "b"; "c"; "d"; "e"; "f"; "g"];
                                            ["a"; "b"; "c"; "d"; "e"; "f"; "h"]] ]} ]}
                   = [("p", ["a"; "b"; "c"; "d"; "e"; "f"; "g"]);
                      ("p", ["a"; "b"; "c"; "d"; "e"; "f"; "h"])]).
  { unfold model_rules, section_rules.
    rewrite lookup_singleton_eq, lookup_singleton_ne by done.
    cbn [from_option id]. by rewrite range_of_singleton, range_of_empty. }
  rewrite Hrules. rewrite decide_False; [reflexivity|].
  intros Hnd. apply (bool_decide_pack _) in Hnd. vm_compute in Hnd. exact Hnd.
Qed.

End SaveMore.

(** ** Single operations: an error changes nothing *)

Section SingleAtomicity.

Lemma wp_Exec_db (q : Query) (w : World) :
  q_on q = OnDB ->
  wp (Exec q) (fun err w' => err <> None -> committed w' = committed w)
     (fun w' => committed w' = committed w) w.
Proof.
  intros Hon. unfold Exec. rewrite Hon. destruct (q_verb q).
  - apply wp_bind, wp_run_query. intros [rs err] w' Hc. by apply wp_ret.
  - by apply wp_run_stmt_db.
  - by apply wp_run_stmt_db.
Qed.

Lemma all_or_nothing_by_key (q : Query) (values : gmap string string) :
  q_on q = OnDB ->
  all_or_nothing (err ← Exec (where_values q values);
                  match err with
                  | Some e => mret (Some e)
                  | None => mret None
                  end).
Proof.
  intros Hon w. apply wp_bind.
  eapply wp_mono; [apply wp_Exec_db | | done].
  - by rewrite (proj1 (where_values_on _ _)).
  - intros [e|] w' Hc; by apply wp_ret.
Qed.

Lemma pure_deleteFilteredPolicy_where (query : Query) (fieldIndex : Z)
    (fieldValues : list string) :
  q_on query = OnDB ->
  pure_in (fun q : Query => q_on q = OnDB)
          (deleteFilteredPolicy_where query fieldIndex fieldValues).
Proof.
  intros Hq. unfold deleteFilteredPolicy_where.
  apply (pure_for_n (fun q : Query => q_on q = OnDB)); [done|].
  intros n q Hon w. unfold deleteFilteredPolicy_body.
  destruct (bool_decide (fieldIndex > n)
            || bool_decide (n >= int_add fieldIndex (len fieldValues)));
    [by apply wp_ret|].
  apply wp_bind, wp_index; [|done].
  intros value _ _. destruct (decide (value = "")); by apply wp_ret.
Qed.

(** X24: the operations that issue one statement outside a transaction
    (single add, single remove, filtered remove, single update) leave the
    committed table as it was whenever they return an error or panic,
    whatever the driver injects. *)
Theorem single_operations_all_or_nothing (ptype : string)
    (rule newRule : list string) (fieldIndex : Z) (fieldValues : list string)
    (w : World) :
  (failed (run (AddPolicyCtx ptype rule) w) ->
   committed (world_of (run (AddPolicyCtx ptype rule) w)) = committed w)
  /\ (failed (run (RemovePolicyCtx ptype rule) w) ->
      committed (world_of (run (RemovePolicyCtx ptype rule) w)) = committed w)
  /\ (failed (run (RemoveFilteredPolicyCtx ptype fieldIndex fieldValues) w) ->
      committed (world_of (run (RemoveFilteredPolicyCtx ptype fieldIndex
                                                         fieldValues) w))
      = committed w)
  /\ (failed (run (UpdatePolicyCtx ptype rule newRule) w) ->
      committed (world_of (run (UpdatePolicyCtx ptype rule newRule) w))
      = committed w).
Proof.
  assert (Hgen : forall m : M (option error),
             all_or_nothing m ->
             failed (run m w) -> committed (world_of (run m w)) = committed w).
  { intros m Hm. specialize (Hm w). unfold wp in Hm.
    destruct (run m w) as [[e|] w'|w']; simpl; intros Hf;
      [by apply Hm | done | done]. }
  split; [|split; [|split]]; apply Hgen.
  - intros w0. unfold AddPolicyCtx, ExecInsert.
    apply wp_bind, wp_run_stmt_db.
    + intros e w' Hc. by apply wp_ret.
    + intros d' w' _ _. by apply wp_ret.
  - intros w0. unfold RemovePolicyCtx, deleteRecord, delete. apply wp_bind.
    eapply wp_mono; [apply all_or_nothing_by_key; reflexivity | | done].
    intros [e|] w' Hc; by apply wp_ret.
  - intros w0. unfold RemoveFilteredPolicyCtx, deleteFilteredPolicy.
    apply wp_bind.
    eapply wp_mono;
      [by apply pure_deleteFilteredPolicy_where | | by intros w' ->].
    intros q w' [-> Hon]. apply wp_bind.
    eapply wp_mono; [by apply wp_Exec_db | | done].
    intros [e|] w' Hc; by apply wp_ret.
  - intros w0. unfold UpdatePolicyCtx, updateRecord, update.
    apply all_or_nothing_by_key. reflexivity.
Qed.

Lemma single_operations_all_or_nothing_witness :
  run (UpdatePolicyCtx "p" ["bob"] ["alice"; "data1"; "read"]) three_rows
  = Done (Some (ErrUnique "unique_casbin_policy")) three_rows
  /\ committed (world_of (run (UpdatePolicyCtx "p" ["bob"] ["alice"; "data1"; "read"])
                              three_rows))
     = committed three_rows.
Proof.
  split; [vm_compute; reflexivity|].
  apply (proj2 (proj2 (proj2 (single_operations_all_or_nothing
                                "p" ["bob"] ["alice"; "data1"; "read"] 0 []
                                three_rows)))).
  vm_compute. exact I.
Defined.

End SingleAtomicity.
